(** * Axis coordinate conversion and scaling (plots/cartesian/set_convert.js)

    A shallow embedding of [setConvert]: the conversion functions it
    installs on an axis, [cleanRange], [setScale], [makeCalcdata],
    [setupMultiCategory], [isValidRange], [isPtWithinRange] and
    [clearCalc], and of [getXY] of traces/bar/plot.js, which calls them;
    followed by the properties of the specification that concern them and
    by further properties of the code.

    Conventions of the embedding.
    - A JavaScript number is an exact rational or one of Infinity, -Infinity,
      NaN ([num]); finite results are kept in lowest terms so that equal
      numbers are equal terms.  The binary rounding of doubles, their
      overflow and the sign of zero are not represented.  The properties
      below therefore state what does not rest on exact arithmetic: which
      branch the code takes, what it registers and in which order, the
      order of numbers, a zero that comes out of [-p + p], and the values
      of worked examples whose arithmetic is exact in doubles too.  That
      two different computations give the same number is not stated.
    - A JavaScript value is undefined, null, a number, a string, an array, a
      typed array, or one of the members that every plain object inherits
      from [Object.prototype] ([value]); booleans, Date objects and other
      objects are outside the embedding.
    - The dictionaries keyed by labels of the data ([ax._categoriesMap] and
      the [seen] tables of [setupMultiCategory]) are plain objects: a
      [gmap] of their own properties, keyed by the label converted to a
      string, read through [object_get] and [object_has], which also find
      the members inherited from [Object.prototype].  Traces, calcdata
      points and match groups are keyed by attribute names and axis ids,
      none of which is the name of such a member, and are finite maps or
      association lists.
    - The closures of [setConvert] read and write the axis object; here every
      function takes the axis record and the mutating ones return the new
      record.  A thrown exception is the [Throw] result of [exn].
    - [Array.prototype.sort] is a stable sort. *)

From Stdlib Require Import QArith Qround Qabs Qminmax Lqa.
From stdpp Require Import gmap strings list sorting pretty.

Set Warnings "-register-all".

(** ** JavaScript numbers *)

Inductive num : Type :=
  | Fin (q : Q)
  | PInf
  | NInf
  | NaN.

Module Num.

Local Open Scope Q_scope.

Definition zero : num := Fin 0.
Definition one : num := Fin 1.

Definition isFinite (a : num) : bool :=
  match a with Fin _ => true | _ => false end.

Definition opp (a : num) : num :=
  match a with
  | Fin x => Fin (Qred (- x))
  | PInf => NInf
  | NInf => PInf
  | NaN => NaN
  end.

Definition add (a b : num) : num :=
  match a, b with
  | Fin x, Fin y => Fin (Qred (x + y))
  | NaN, _ | _, NaN => NaN
  | PInf, NInf | NInf, PInf => NaN
  | PInf, _ | _, PInf => PInf
  | NInf, _ | _, NInf => NInf
  end.

Definition sub (a b : num) : num := add a (opp b).

(** The infinity of the sign of [x], NaN when [x] is zero. *)
Definition signed_inf (x : Q) (pos : bool) : num :=
  match x ?= 0 with
  | Gt => if pos then PInf else NInf
  | Lt => if pos then NInf else PInf
  | Eq => NaN
  end.

Definition mul (a b : num) : num :=
  match a, b with
  | Fin x, Fin y => Fin (Qred (x * y))
  | NaN, _ | _, NaN => NaN
  | Fin x, PInf | PInf, Fin x => signed_inf x true
  | Fin x, NInf | NInf, Fin x => signed_inf x false
  | PInf, PInf | NInf, NInf => PInf
  | PInf, NInf | NInf, PInf => NInf
  end.

(** Division; a finite non-zero number over zero is an infinity and
    zero over zero is NaN. *)
Definition div (a b : num) : num :=
  match a, b with
  | Fin x, Fin y =>
      if Qeq_bool y 0 then signed_inf x true else Fin (Qred (x / y))
  | NaN, _ | _, NaN => NaN
  | Fin _, (PInf | NInf) => Fin 0
  | PInf, Fin y => match y ?= 0 with Lt => NInf | _ => PInf end
  | NInf, Fin y => match y ?= 0 with Lt => PInf | _ => NInf end
  | (PInf | NInf), (PInf | NInf) => NaN
  end.

(** [a < b]; false as soon as one side is NaN. *)
Definition lt (a b : num) : bool :=
  match a, b with
  | Fin x, Fin y => match x ?= y with Lt => true | _ => false end
  | NaN, _ | _, NaN => false
  | NInf, (Fin _ | PInf) => true
  | Fin _, PInf => true
  | _, _ => false
  end.

(** [a === b] on numbers. *)
Definition eqb (a b : num) : bool :=
  match a, b with
  | Fin x, Fin y => Qeq_bool x y
  | PInf, PInf | NInf, NInf => true
  | _, _ => false
  end.

Definition le (a b : num) : bool := lt a b || eqb a b.
Definition gt (a b : num) : bool := lt b a.

(** [Math.abs], [Math.max], [Math.min], [Math.floor], [Math.round]. *)
Definition abs (a : num) : num :=
  match a with
  | Fin x => Fin (Qred (Qabs x))
  | PInf | NInf => PInf
  | NaN => NaN
  end.

Definition max (a b : num) : num :=
  match a, b with
  | NaN, _ | _, NaN => NaN
  | _, _ => if lt a b then b else a
  end.

Definition min (a b : num) : num :=
  match a, b with
  | NaN, _ | _, NaN => NaN
  | _, _ => if lt b a then b else a
  end.

Definition floor (a : num) : num :=
  match a with
  | Fin x => Fin (inject_Z (Qfloor x))
  | _ => a
  end.

Definition round (a : num) : num := floor (add a (Fin (1 # 2))).

(** A non-negative integer as a number. *)
Definition of_nat (n : nat) : num := Fin (inject_Z (Z.of_nat n)).

End Num.

(** ** JavaScript values *)

Inductive value : Type :=
  | Undefined
  | Null
  | Num (n : num)
  | Str (s : string)
  | Arr (l : list value)
  | TypedArr (l : list num)
  | Member (k : string).

(** [Member k] is the value of the property [k] of [Object.prototype]: a
    built-in function, or the prototype object itself for [__proto__].
    These are the names under which every plain object finds one. *)
Definition Object_prototype : list string :=
  ["constructor"; "toString"; "toLocaleString"; "valueOf";
   "hasOwnProperty"; "isPrototypeOf"; "propertyIsEnumerable";
   "__defineGetter__"; "__defineSetter__"; "__lookupGetter__";
   "__lookupSetter__"; "__proto__"].

Definition inherited (k : string) : bool :=
  bool_decide (k ∈ Object_prototype).

(** The [length] of a member: the number of parameters of the function, and
    nothing for the prototype object. *)
Definition Member_length (k : string) : option nat :=
  if String.eqb k "__proto__" then None
  else if bool_decide (k ∈ ["__defineGetter__"; "__defineSetter__"])
  then Some 2
  else if bool_decide (k ∈ ["toString"; "toLocaleString"; "valueOf"])
  then Some 0
  else Some 1.

(** Modelled from the spec: [BADNUM] of constants/numerical.js, which is not
    among the sources; the distinguished sentinel that is not NaN is
    JavaScript's [undefined]. *)
Definition BADNUM : value := Undefined.

(** Exceptions. [ScalingError] is the
    [Error('Something went wrong with axis scaling')] of [setScale];
    [TypeError] is a property read on undefined or null, or the call of a
    conversion that the axis type does not define. *)
Inductive error : Type := TypeError | ScalingError.

Inductive exn (A : Type) : Type :=
  | Ok (a : A)
  | Throw (e : error).
Arguments Ok {A} a.
Arguments Throw {A} e.

#[global] Instance exn_ret : MRet exn := fun A a => Ok a.

#[global] Instance exn_bind : MBind exn := fun A B k m =>
  match m with
  | Ok a => k a
  | Throw e => Throw e
  end.

(** A loop over a list that stops at the first exception. *)
Fixpoint foldlM {A B : Type} (f : B -> A -> exn B) (b : B) (l : list A)
    : exn B :=
  match l with
  | [] => Ok b
  | x :: l' => b' ← f b x; foldlM f b' l'
  end.

(** [a[i]] on an array: undefined outside its bounds. *)
Definition item (l : list value) (i : nat) : value := nth i l Undefined.

(** Truthiness of a value, as in [if(v)] and [v || w]. *)
Definition truthy (v : value) : bool :=
  match v with
  | Undefined | Null => false
  | Num (Fin x) => negb (Qeq_bool x 0%Q)
  | Num NaN => false
  | Num _ => true
  | Str s => negb (String.eqb s "")
  | Arr _ | TypedArr _ | Member _ => true
  end.

(** The white space that fast-isnumeric's [allBlankCharCodes] accepts,
    among the character codes below 256. *)
Definition blankCode (c : Ascii.ascii) : bool :=
  let n := Ascii.nat_of_ascii c in
  ((9 <=? n) && (n <=? 13)) || (n =? 32) || (n =? 133) || (n =? 160).

Fixpoint allBlankCharCodes (s : string) : bool :=
  match s with
  | EmptyString => true
  | String c s' => blankCode c && allBlankCharCodes s'
  end.

(** [sep.join] of strings. *)
Fixpoint join (sep : string) (l : list string) : string :=
  match l with
  | [] => ""
  | [s] => s
  | s :: l' => s +:+ sep +:+ join sep l'
  end.

(** ** What the module takes from its environment

    JavaScript built-ins whose results are not rational functions of their
    arguments, the constants of constants/numerical.js and
    plots/cartesian/constants.js, and the date and array helpers of lib/,
    none of which is among the sources. *)

Class Env : Type := {
  (** [Number(s)] for a string [s]. *)
  StringToNumber : string -> num;
  (** [String(n)] for a number [n]. *)
  NumberToString : num -> string;
  (** [String(f)] for the member of [Object.prototype] of a given name: the
      text of a built-in function, which the engine chooses. *)
  MemberToString : string -> string;
  Math_log : num -> num;
  Math_LN10 : num;
  Math_pow : num -> num -> num;
  (** constants/numerical.js *)
  FP_SAFE : Q;
  LOG_CLIP : Q;
  (** [v.replace(JUNK, '')] of Lib.cleanNumber. *)
  stripJunk : string -> string;
  (** [Lib.dateTime2ms(v, calendar)]: milliseconds, or [None] for BADNUM. *)
  dateTime2ms : value -> value -> option Q;
  (** [Lib.dateTime2ms(new Date(ms))]. *)
  dateTime2ms_Date : num -> option Q;
  (** [Lib.ms2DateTime(ms, r, calendar)]. *)
  ms2DateTime : value -> value -> value -> value;
  (** [Lib.cleanDate(v, dflt, calendar)], [Lib.isDateTime(v, calendar)],
      [Lib.dfltRange(calendar)], [Lib.MIN_MS], [Lib.MAX_MS]. *)
  cleanDate : value -> value -> value -> value;
  isDateTime : value -> value -> bool;
  dfltRange : value -> list value;
  MIN_MS : Q;
  MAX_MS : Q;
  (** plots/cartesian/constants.js *)
  DFLTRANGEX : list value;
  DFLTRANGEY : list value;
  (** [Lib.minRowLength(z)]. *)
  minRowLength : value -> nat
}.

(** What the built-ins guarantee about the names of the members of
    [Object.prototype]: none of them reads as a number, and no number
    prints as one of them. *)
Class EnvLaws (E : Env) : Prop := {
  StringToNumber_inherited :
    forall k, inherited k = true -> StringToNumber k = NaN;
  NumberToString_plain :
    forall n, inherited (NumberToString n) = false
}.

(** ** The axis object, the layout and traces *)

(** The axis types for which [setConvert] installs conversions; [linear]
    stands for both ['linear'] and ['-']. *)
Inductive axtype : Type := linear | log | date | category | multicategory.

(** [range] and [_r] are absent or arrays; [_categoriesMap] is absent or a
    dictionary from keys to indices; [overlaying] is the id of the axis this
    one overlays.  The scale fields [_offset], [_length], [_m], [_b] read as
    NaN until [setScale] has set them, which is what arithmetic on their
    absence gives. *)
Record axis : Type := {
  _id : option string;
  type : axtype;
  calendar : value;
  range : option (list value);
  _r : option (list value);
  domain : num * num;
  overlaying : option string;
  _categories : list value;
  _categoriesMap : option (gmap string nat);
  _traceIndices : list nat;
  _offset : num;
  _length : num;
  _m : num;
  _b : num
}.

(** [fullLayout._size]. *)
Record size : Type := { gs_l : num; gs_t : num; gs_w : num; gs_h : num }.

(** [fullLayout]: the plot area, the match groups (each an object from axis
    ids to scale factors, in property order) and the axes by id. *)
Record layout : Type := {
  _size : size;
  _axisMatchGroups : option (list (list (string * value)));
  axes : gmap string axis
}.

(** A trace: [trace_length] is its [_length], a non-negative integer when
    the trace defaults have set one, and [props] its other properties by
    name. *)
Record trace : Type := {
  trace_length : option nat;
  props : gmap string value
}.

(** The two attributes [cleanRange] and [setScale] operate on. *)
Inductive rangeAttr : Type := attr_range | attr_r.

Definition get_range (ax : axis) (a : rangeAttr) : option (list value) :=
  match a with attr_range => range ax | attr_r => _r ax end.

Definition set_range (ax : axis) (a : rangeAttr) (r : list value) : axis :=
  match a with
  | attr_range =>
      {| _id := _id ax; type := type ax; calendar := calendar ax;
         range := Some r; _r := _r ax; domain := domain ax;
         overlaying := overlaying ax; _categories := _categories ax;
         _categoriesMap := _categoriesMap ax;
         _traceIndices := _traceIndices ax; _offset := _offset ax;
         _length := _length ax; _m := _m ax; _b := _b ax |}
  | attr_r =>
      {| _id := _id ax; type := type ax; calendar := calendar ax;
         range := range ax; _r := Some r; domain := domain ax;
         overlaying := overlaying ax; _categories := _categories ax;
         _categoriesMap := _categoriesMap ax;
         _traceIndices := _traceIndices ax; _offset := _offset ax;
         _length := _length ax; _m := _m ax; _b := _b ax |}
  end.

Definition set_categories (ax : axis) (cs : list value)
    (m : gmap string nat) : axis :=
  {| _id := _id ax; type := type ax; calendar := calendar ax;
     range := range ax; _r := _r ax; domain := domain ax;
     overlaying := overlaying ax; _categories := cs;
     _categoriesMap := Some m;
     _traceIndices := _traceIndices ax; _offset := _offset ax;
     _length := _length ax; _m := _m ax; _b := _b ax |}.

Definition set_scale (ax : axis) (dom : num * num) (off len m b : num)
    : axis :=
  {| _id := _id ax; type := type ax; calendar := calendar ax;
     range := range ax; _r := _r ax; domain := dom;
     overlaying := overlaying ax; _categories := _categories ax;
     _categoriesMap := _categoriesMap ax;
     _traceIndices := _traceIndices ax; _offset := off;
     _length := len; _m := m; _b := b |}.

(** [var axId = (ax._id || 'x'); var axLetter = axId.charAt(0);] *)
Definition axId (ax : axis) : string :=
  match _id ax with
  | Some s => if String.eqb s "" then "x" else s
  | None => "x"
  end.

Definition axLetter (ax : axis) : string :=
  match axId ax with
  | String c _ => String c EmptyString
  | EmptyString => ""
  end.

(** ** The functions of [setConvert] *)

Section SetConvert.

Context {E : Env}.

(** *** Coercions of the language *)

(** [String(v)], which is also the property key [v] stands for. *)
Fixpoint ToString (v : value) : string :=
  match v with
  | Undefined => "undefined"
  | Null => "null"
  | Num n => NumberToString n
  | Str s => s
  | Arr l =>
      join ","
        (map (fun x => match x with
                       | Undefined | Null => ""
                       | _ => ToString x
                       end) l)
  | TypedArr l => join "," (map NumberToString l)
  | Member k => MemberToString k
  end.

(** [Number(v)] and the unary [+v]. *)
Definition ToNumber (v : value) : num :=
  match v with
  | Undefined => NaN
  | Null => Fin 0
  | Num n => n
  | Str s => StringToNumber s
  | Arr _ | TypedArr _ => StringToNumber (ToString v)
  | Member _ => NaN
  end.

(** The binary [a + b]: concatenation as soon as one operand is a string or
    an object, addition of numbers otherwise. *)
Definition js_add (a b : value) : value :=
  match a, b with
  | (Str _ | Arr _ | TypedArr _ | Member _), _
  | _, (Str _ | Arr _ | TypedArr _ | Member _) =>
      Str (ToString a +:+ ToString b)
  | _, _ => Num (Num.add (ToNumber a) (ToNumber b))
  end.

(** [a === b]; two arrays are the same only if they are the same object,
    which the embedding does not track, so they compare as different. *)
Definition strict_eq (a b : value) : bool :=
  match a, b with
  | Undefined, Undefined | Null, Null => true
  | Num x, Num y => Num.eqb x y
  | Str x, Str y => String.eqb x y
  | Member x, Member y => String.eqb x y
  | _, _ => false
  end.

(** [v[i]]: a TypeError on undefined and null. *)
Definition get (v : value) (i : nat) : exn value :=
  match v with
  | Undefined | Null => Throw TypeError
  | Num _ => Ok Undefined
  | Str s =>
      Ok (match String.get i s with
          | Some c => Str (String c EmptyString)
          | None => Undefined
          end)
  | Arr l => Ok (item l i)
  | TypedArr l =>
      Ok (match nth_error l i with Some n => Num n | None => Undefined end)
  | Member _ => Ok Undefined
  end.

(** [v.length]: [None] stands for undefined. *)
Definition get_length (v : value) : exn (option nat) :=
  match v with
  | Undefined | Null => Throw TypeError
  | Num _ => Ok None
  | Str s => Ok (Some (String.length s))
  | Arr l => Ok (Some (length l))
  | TypedArr l => Ok (Some (length l))
  | Member k => Ok (Member_length k)
  end.

Definition isArrayOrTypedArray (v : value) : bool :=
  match v with Arr _ | TypedArr _ => true | _ => false end.

Definition isTypedArray (v : value) : bool :=
  match v with TypedArr _ => true | _ => false end.

(** *** Imported helpers *)

(** The fast-isnumeric package: finite numbers, and strings that convert
    to a finite number and are not blank. *)
Definition isNumeric (v : value) : bool :=
  match v with
  | Num n => Num.isFinite n
  | Str s =>
      let n := StringToNumber s in
      if Num.eqb n (Fin 0) && allBlankCharCodes s then false
      else Num.isFinite n
  | _ => false
  end.

(** Modelled from the spec: Lib.cleanNumber (lib/ is not among the
    sources), the cleaned identity of a linear axis: the number a value
    stands for once leading and trailing junk is removed, BADNUM when it
    stands for none. *)
Definition cleanNumber (v : value) : value :=
  let v' := match v with Str s => Str (stripJunk s) | _ => v end in
  if isNumeric v' then Num (ToNumber v') else BADNUM.

(** Modelled from the spec: Lib.ensureNumber (lib/ is not among the
    sources), the numeric clamp: the number a numeric value stands for,
    BADNUM when the value is not numeric or lies beyond [FP_SAFE]. *)
Definition ensureNumber (v : value) : value :=
  if negb (isNumeric v) then BADNUM
  else
    let n := ToNumber v in
    if Num.lt n (Fin (- FP_SAFE)) || Num.gt n (Fin FP_SAFE) then BADNUM
    else if isNumeric (Num n) then Num n else BADNUM.

(** Modelled from the spec: Lib.mod (lib/ is not among the sources), the
    remainder of [v] by [d] brought into [[0, d)]; here for [d = 1], the
    only use in this module. *)
Definition Lib_mod1 (v : num) : num := Num.sub v (Num.floor v).

(** Modelled from the spec: Lib.constrain (lib/ is not among the sources),
    [v] brought between [v0] and [v1], whichever of the two is larger. *)
Definition Lib_constrain (v v0 v1 : num) : num :=
  if Num.gt v0 v1 then Num.max v1 (Num.min v0 v)
  else Num.max v0 (Num.min v1 v).

(** [d3.round(x, 2)]: [Math.round(x * 100) / 100]. *)
Definition d3_round2 (x : num) : num :=
  Num.div (Num.round (Num.mul x (Fin 100))) (Fin 100).

(** *** The closures of [setConvert] *)

Definition fromLog (v : value) : value :=
  Num (Math_pow (Fin 10) (ToNumber v)).

Definition isValidCategory (v : value) : bool :=
  match v with Null | Undefined => false | _ => true end.

(** [toLog(v, clip)].  The comparisons [v > 0] and [v <= 0] convert [v] to
    a number; [r0 + r1] is the binary [+] of the language. *)
Definition toLog (ax : axis) (v : value) (clip : bool) : value :=
  if Num.gt (ToNumber v) (Fin 0) then
    Num (Num.div (Math_log (ToNumber v)) Math_LN10)
  else
    match range ax with
    | Some r =>
        if Num.le (ToNumber v) (Fin 0) && clip && (length r =? 2) then
          let r0 := item r 0 in
          let r1 := item r 1 in
          Num (Num.mul (Fin (1 # 2))
                 (Num.sub (ToNumber (js_add r0 r1))
                    (Num.mul (Num.mul (Fin 2) (Fin LOG_CLIP))
                       (Num.abs (Num.sub (ToNumber r0) (ToNumber r1))))))
        else BADNUM
    | None => BADNUM
    end.

(** [calendar || ax.calendar] *)
Definition or_calendar (ax : axis) (cal : value) : value :=
  if truthy cal then cal else calendar ax.

Definition dt2ms (ax : axis) (v _a2 cal : value) : value :=
  match dateTime2ms v (or_calendar ax cal) with
  | Some ms => Num (Fin ms)
  | None =>
      if isNumeric v then
        let n := ToNumber v in
        let msecTenths :=
          Num.floor (Num.mul (Lib_mod1 (Num.add n (Fin (5 # 100)))) (Fin 10)) in
        let msRounded := Num.round (Num.sub n (Num.div msecTenths (Fin 10))) in
        Num (Num.add
               (match dateTime2ms_Date msRounded with
                | Some d => Fin d
                | None => NaN
                end)
               (Num.div msecTenths (Fin 10)))
      else BADNUM
  end.

Definition ms2dt (ax : axis) (v r cal : value) : value :=
  ms2DateTime v r (or_calendar ax cal).

(** [a[n]] for a number [n]: the element when [n] is an index of [a]. *)
Definition item_num (a : list value) (n : num) : value :=
  match n with
  | Fin q =>
      if Qeq_bool q (inject_Z (Qfloor q)) && (0 <=? Qfloor q)%Z
      then item a (Z.to_nat (Qfloor q))
      else Undefined
  | _ => Undefined
  end.

Definition getCategoryName (ax : axis) (v : value) : value :=
  item_num (_categories ax) (Num.round (ToNumber v)).

(** [o[k]] and [k in o] for a plain object [o] whose own properties are
    the indices of [m]: an own property, else the member of that name
    inherited from [Object.prototype], else undefined. *)
Definition object_get (m : gmap string nat) (k : string) : value :=
  match m !! k with
  | Some i => Num (Num.of_nat i)
  | None => if inherited k then Member k else Undefined
  end.

Definition object_has (m : gmap string nat) (k : string) : bool :=
  bool_decide (is_Some (m !! k)) || inherited k.

(** [setCategoryIndex(v)].  The dictionary is created when it is missing;
    a label for which [ax._categoriesMap[v]] is not undefined gets that
    value, be it the index of the label or a member that the dictionary
    inherits; another label is pushed and indexed. *)
Definition setCategoryIndex (ax : axis) (v : value) : value * axis :=
  if isValidCategory v then
    let m := default ∅ (_categoriesMap ax) in
    match m !! ToString v with
    | Some i => (Num (Num.of_nat i), ax)
    | None =>
        if inherited (ToString v) then
          (Member (ToString v), set_categories ax (_categories ax) m)
        else
          let curLength := length (_categories ax) in
          (Num (Num.of_nat curLength),
           set_categories ax (_categories ax ++ [v])
             (<[ToString v := curLength]> m))
    end
  else (BADNUM, ax).

Definition getCategoryIndex (ax : axis) (v : value) : value :=
  match _categoriesMap ax with
  | Some m => object_get m (ToString v)
  | None => Undefined
  end.

(** [(arrayIn[k] || [])[i]] *)
Definition row_item (arrayIn : value) (k i : nat) : exn value :=
  a ← get arrayIn k;
  get (if truthy a then a else Arr []) i.

Definition setMultiCategoryIndex (ax : axis) (arrayIn : value) (len : nat)
    : exn (list value) :=
  mapM (fun i =>
          v0 ← row_item arrayIn 0 i;
          v1 ← row_item arrayIn 1 i;
          mret (getCategoryIndex ax (Arr [v0; v1])))
       (seq 0 len).

Definition getCategoryPosition (ax : axis) (v : value) : value :=
  let index := getCategoryIndex ax v in
  if negb (strict_eq index Undefined) then index
  else if isNumeric v then Num (ToNumber v)
  else Undefined.

Definition l2p (ax : axis) (v : value) : value :=
  if negb (isNumeric v) then BADNUM
  else Num (d3_round2 (Num.add (_b ax) (Num.mul (_m ax) (ToNumber v)))).


(** *** The conversions installed on the axis

    Every conversion is called with up to three arguments: the value, a
    second argument that is [clip] on log axes and the precision [r] of
    ms2DateTime on date axes, and the calendar. *)

Definition c2l (ax : axis) (v a2 cal : value) : value :=
  match type ax with
  | log => toLog ax v (truthy a2)
  | _ => ensureNumber v
  end.




Definition d2r (ax : axis) (v a2 cal : value) : value :=
  match type ax with
  | linear => cleanNumber v
  | log => toLog ax (cleanNumber v) (truthy a2)
  | date => v
  | category | multicategory => getCategoryPosition ax v
  end.


Definition r2l (ax : axis) (v a2 cal : value) : value :=
  match type ax with
  | linear | log => cleanNumber v
  | date => dt2ms ax v a2 cal
  | category | multicategory => getCategoryPosition ax v
  end.

Definition l2r (ax : axis) (v a2 cal : value) : value :=
  match type ax with
  | linear | log => ensureNumber v
  | date => ms2dt ax v a2 cal
  | category | multicategory => ensureNumber v
  end.

Definition c2d (ax : axis) (v a2 cal : value) : value :=
  match type ax with
  | linear | log => ensureNumber v
  | date => ms2dt ax v a2 cal
  | category | multicategory => getCategoryName ax v
  end.



(** [ax.fraction2r]: the range value at a fraction of the axis.  Reading
    [ax.range[0]] throws when the axis has no range. *)
Definition fraction2r (ax : axis) (v : num) : exn value :=
  match range ax with
  | None => Throw TypeError
  | Some r =>
      let rl0 := r2l ax (item r 0) Undefined Undefined in
      let rl1 := r2l ax (item r 1) Undefined Undefined in
      Ok (l2r ax
            (js_add rl0
               (Num (Num.mul v (Num.sub (ToNumber rl1) (ToNumber rl0)))))
            Undefined Undefined)
  end.

(** [ax.r2fraction] *)
Definition r2fraction (ax : axis) (v : value) : exn value :=
  match range ax with
  | None => Throw TypeError
  | Some r =>
      let rl0 := ToNumber (r2l ax (item r 0) Undefined Undefined) in
      let rl1 := ToNumber (r2l ax (item r 1) Undefined Undefined) in
      Ok (Num (Num.div
                 (Num.sub (ToNumber (r2l ax v Undefined Undefined)) rl0)
                 (Num.sub rl1 rl0)))
  end.

Definition r2c (ax : axis) (v a2 cal : value) : exn value :=
  match type ax with
  | linear => Ok (cleanNumber v)
  | log => Ok (fromLog (cleanNumber v))
  | date => Ok (dt2ms ax v a2 cal)
  | category | multicategory =>
      let index := getCategoryPosition ax v in
      if negb (strict_eq index Undefined) then Ok index
      else fraction2r ax (Fin (1 # 2))
  end.

(** [d2c] and [d2l]: on a category axis they register the label; a
    multicategory axis defines neither, so that calling them throws. *)
Definition d2c (ax : axis) (v a2 cal : value) : exn (value * axis) :=
  match type ax with
  | linear | log => Ok (cleanNumber v, ax)
  | date => Ok (dt2ms ax v a2 cal, ax)
  | category => Ok (setCategoryIndex ax v)
  | multicategory => Throw TypeError
  end.

Definition d2l (ax : axis) (v a2 cal : value) : exn (value * axis) :=
  match type ax with
  | linear => Ok (cleanNumber v, ax)
  | log => Ok (toLog ax (cleanNumber v) (truthy a2), ax)
  | date => Ok (dt2ms ax v a2 cal, ax)
  | category => Ok (setCategoryIndex ax v)
  | multicategory => Throw TypeError
  end.

Definition d2p (ax : axis) (v a2 cal : value) : exn value :=
  match type ax with
  | linear => Ok (l2p ax (cleanNumber v))
  | log => Ok (l2p ax (d2r ax v a2 Undefined))
  | date => Ok (l2p ax (dt2ms ax v (Num (Fin 0)) cal))
  | category | multicategory =>
      c ← r2c ax v Undefined Undefined; mret (l2p ax c)
  end.







(** *** [ax.cleanRange] *)

(** The state of the loop over the two endpoints: the array, which is
    updated in place, or the replacement of the attribute by the default
    range, which leaves the loop. *)
Inductive cleaning : Type :=
  | Continue (r : list value)
  | Break (r : list value)
  | Default.

(** One turn of the loop on a date axis. *)
Definition cleanRange_date (ax : axis) (i : nat) (r : list value)
    : cleaning :=
  if negb (isDateTime (item r i) (calendar ax)) then Default
  else if strict_eq (r2l ax (item r 0) Undefined Undefined)
                    (r2l ax (item r 1) Undefined Undefined) then
    let linCenter :=
      Lib_constrain (ToNumber (r2l ax (item r 0) Undefined Undefined))
        (Fin (Qred (MIN_MS + 1000))) (Fin (Qred (MAX_MS - 1000))) in
    let r' :=
      <[0 := l2r ax (Num (Num.sub linCenter (Fin 1000)))
               Undefined Undefined]> r in
    Break (<[1 := l2r ax (Num (Num.add linCenter (Fin 1000)))
                    Undefined Undefined]> r')
  else Continue r.

(** One turn of the loop on any other axis. *)
Definition cleanRange_numeric (i : nat) (r : list value) : cleaning :=
  let filled :=
    if negb (isNumeric (item r i)) then
      if isNumeric (item r (1 - i)) then
        Some (<[i := Num (Num.mul (ToNumber (item r (1 - i)))
                            (if (i =? 0) then Fin (1 # 10) else Fin 10))]> r)
      else None
    else Some r in
  match filled with
  | None => Default
  | Some r1 =>
      let r2 :=
        if Num.lt (ToNumber (item r1 i)) (Fin (- FP_SAFE)) then
          <[i := Num (Fin (- FP_SAFE))]> r1
        else if Num.gt (ToNumber (item r1 i)) (Fin FP_SAFE) then
          <[i := Num (Fin FP_SAFE)]> r1
        else r1 in
      if strict_eq (item r2 0) (item r2 1) then
        let inc :=
          Num.max (Fin 1)
            (Num.abs (Num.mul (ToNumber (item r2 0)) (Fin (1 # 1000000)))) in
        let r3 := <[0 := Num (Num.sub (ToNumber (item r2 0)) inc)]> r2 in
        Continue (<[1 := js_add (item r3 1) (Num inc)]> r3)
      else Continue r2
  end.

Definition cleanRange_step (ax : axis) (i : nat) (r : list value)
    : cleaning :=
  match type ax with
  | date => cleanRange_date ax i r
  | _ => cleanRange_numeric i r
  end.

(** [ax.cleanRange(rangeAttr, opts)]; [dfltRange] is [opts.dfltRange]. *)
Definition cleanRange (ax : axis) (attr : rangeAttr)
    (dfltRange_opt : option (list value)) : axis :=
  let dflt :=
    match type ax with
    | date => dfltRange (calendar ax)
    | _ =>
        if String.eqb (axLetter ax) "y" then DFLTRANGEY
        else default DFLTRANGEX dfltRange_opt
    end in
  match get_range ax attr with
  | None => set_range ax attr dflt
  | Some r =>
      if negb (length r =? 2) then set_range ax attr dflt
      else
        let r0 :=
          match type ax with
          | date =>
              let r' := <[0 := cleanDate (item r 0) BADNUM (calendar ax)]> r in
              <[1 := cleanDate (item r' 1) BADNUM (calendar ax)]> r'
          | _ => r
          end in
        match cleanRange_step ax 0 r0 with
        | Default => set_range ax attr dflt
        | Break r1 => set_range ax attr r1
        | Continue r1 =>
            match cleanRange_step (set_range ax attr r1) 1 r1 with
            | Default => set_range ax attr dflt
            | Break r2 | Continue r2 => set_range ax attr r2
            end
        end
  end.

(** *** [ax.setScale] *)

(** [(usePrivateRange && ax._r) ? '_r' : 'range'] *)
Definition scale_attr (ax : axis) (usePrivateRange : bool) : rangeAttr :=
  if usePrivateRange && bool_decide (is_Some (_r ax)) then attr_r
  else attr_range.

(** The assignments of [setScale]: the domain of the overlaid axis, the
    cleaned range, and [_offset], [_length], [_m], [_b]. *)
Definition derive_scale (L : layout) (ax : axis) (usePrivateRange : bool)
    : exn axis :=
  let gs := _size L in
  dom ← match overlaying ax with
        | Some id2 =>
            if String.eqb id2 "" then Ok (domain ax)
            else
              match axes L !! id2 with
              | Some ax2 => Ok (domain ax2)
              | None => Throw TypeError
              end
        | None => Ok (domain ax)
        end;
  let attr := scale_attr ax usePrivateRange in
  let cal := calendar ax in
  let ax1 := cleanRange ax attr None in
  match get_range ax1 attr with
  | None => Throw TypeError
  | Some r =>
      let rl0 := ToNumber (r2l ax1 (item r 0) cal Undefined) in
      let rl1 := ToNumber (r2l ax1 (item r 1) cal Undefined) in
      if String.eqb (axLetter ax) "y" then
        let off := Num.add (gs_t gs)
                     (Num.mul (Num.sub (Fin 1) (snd dom)) (gs_h gs)) in
        let len := Num.mul (gs_h gs) (Num.sub (snd dom) (fst dom)) in
        let m := Num.div len (Num.sub rl0 rl1) in
        let b := Num.mul (Num.opp m) rl1 in
        Ok (set_scale ax1 dom off len m b)
      else
        let off := Num.add (gs_l gs) (Num.mul (fst dom) (gs_w gs)) in
        let len := Num.mul (gs_w gs) (Num.sub (snd dom) (fst dom)) in
        let m := Num.div len (Num.sub rl1 rl0) in
        let b := Num.mul (Num.opp m) rl0 in
        Ok (set_scale ax1 dom off len m b)
  end.

(** [ax.setScale(usePrivateRange)]: the assignments, then the check that
    throws.  (The axis and the layout as the throw leaves them are not
    kept.) *)
Definition setScale (L : layout) (ax : axis) (usePrivateRange : bool)
    : exn axis :=
  ax2 ← derive_scale L ax usePrivateRange;
  if negb (Num.isFinite (_m ax2)) || negb (Num.isFinite (_b ax2))
     || Num.lt (_length ax2) (Fin 0)
  then Throw ScalingError
  else Ok ax2.

(** *** [ax.makeCalcdata] *)

(** The loop [for(i = 0; i < len; i++) arrayOut[i] = ax.d2c(arrayIn[i], 0, cal)],
    from index [i], with the axis threaded through the calls. *)
Fixpoint convert_items (ax : axis) (arrayIn cal : value) (i n : nat)
    : exn (list value * axis) :=
  match n with
  | O => Ok ([], ax)
  | S n' =>
      x ← get arrayIn i;
      '(c, ax1) ← d2c ax x (Num (Fin 0)) cal;
      '(cs, ax2) ← convert_items ax1 arrayIn cal (S i) n';
      mret (c :: cs, ax2)
  end.

(** [{x: 'y', y: 'x'}[axLetter]] as a property name. *)
Definition opposite (letter : string) : string :=
  if String.eqb letter "x" then "y"
  else if String.eqb letter "y" then "x"
  else "undefined".

(** [ax.makeCalcdata(trace, axLetter)].  The result is the array returned
    and the axis after the calls of [d2c].  (On an axis that is not a date
    axis [cal] is [false] in the source; it is undefined here, which the
    conversions cannot tell apart.) *)
Definition makeCalcdata (ax : axis) (tr : trace) (letter : string)
    : exn (value * axis) :=
  let cal :=
    match type ax with
    | date => default Undefined (props tr !! (letter +:+ "calendar"))
    | _ => Undefined
    end in
  match props tr !! letter with
  | Some arrayIn =>
      let len :=
        match trace_length tr with
        | Some (S n) => S n
        | _ => minRowLength arrayIn
        end in
      match arrayIn, type ax with
      | TypedArr a, (linear | log) =>
          if len =? length a then Ok (arrayIn, ax)
          else Ok (TypedArr (take len a), ax)
      | _, multicategory =>
          out ← setMultiCategoryIndex ax arrayIn len; mret (Arr out, ax)
      | _, _ =>
          '(out, ax') ← convert_items ax arrayIn cal 0 len; mret (Arr out, ax')
      end
  | None =>
      '(v0, ax') ← match props tr !! (letter +:+ "0") with
                   | Some x0 => d2c ax x0 (Num (Fin 0)) cal
                   | None => Ok (Num (Fin 0), ax)
                   end;
      let dv :=
        match props tr !! ("d" +:+ letter) with
        | Some d => if truthy d then ToNumber d else Fin 1
        | None => Fin 1
        end in
      len ← match trace_length tr with
            | Some (S n) => Ok (Some (S n))
            | _ => get_length (default Undefined (props tr !! opposite letter))
            end;
      match len with
      | Some n =>
          mret (Arr (map (fun i => js_add v0 (Num (Num.mul (Num.of_nat i) dv)))
                       (seq 0 n)), ax')
      | None => mret (Arr [Undefined], ax')
      end
  end.

(** *** [ax.setupMultiCategory] *)

(** [group[axId]] and the keys of [group] other than [axId]. *)
Definition group_lookup (group : list (string * value)) (id : string)
    : value :=
  match List.find (fun kv => String.eqb (fst kv) id) group with
  | Some kv => snd kv
  | None => Undefined
  end.

(** The trace indices of the axes matched with [ax], gathered after its
    own when the axis has no category yet. *)
Definition gather_traceIndices (L : layout) (ax : axis) : exn (list nat) :=
  match _axisMatchGroups L with
  | Some (g :: gs) =>
      if length (_categories ax) =? 0 then
        foldlM (fun acc group =>
                  if truthy (group_lookup group (axId ax)) then
                    foldlM (fun acc2 kv =>
                              if negb (String.eqb (fst kv) (axId ax)) then
                                match axes L !! fst kv with
                                | Some ax2 => Ok (acc2 ++ _traceIndices ax2)
                                | None => Throw TypeError
                                end
                              else Ok acc2)
                           acc group
                  else Ok acc)
               (_traceIndices ax) (g :: gs)
      else Ok (_traceIndices ax)
  | _ => Ok (_traceIndices ax)
  end.

(** [seen]: for each of the two levels, the number of keys met and the
    rank given to each. *)
Definition seen_table : Type := nat * gmap string nat.

(** [if(!(v in seen[k][1])) seen[k][1][v] = seen[k][0]++] *)
Definition see (sn : seen_table) (v : value) : seen_table :=
  if object_has (snd sn) (ToString v) then sn
  else (S (fst sn), <[ToString v := fst sn]> (snd sn)).

(** What the scan of the traces accumulates: [seen[0]], [seen[1]] and
    [list]. *)
Record scan : Type := {
  seen0 : seen_table;
  seen1 : seen_table;
  pairs : list (value * value)
}.

(** The inner loop over the rows [j] of one trace. *)
Fixpoint scan_rows (a0 a1 : value) (j n : nat) (sc : scan) : exn scan :=
  match n with
  | O => Ok sc
  | S n' =>
      v0 ← get a0 j;
      v1 ← get a1 j;
      scan_rows a0 a1 (S j) n'
        (if isValidCategory v0 && isValidCategory v1 then
           {| seen0 := see (seen0 sc) v0;
              seen1 := see (seen1 sc) v1;
              pairs := pairs sc ++ [(v0, v1)] |}
         else sc)
  end.

Definition scan_trace (ax : axis) (fullData : list trace) (sc : scan)
    (ti : nat) : exn scan :=
  match fullData !! ti with
  | None => Throw TypeError
  | Some tr =>
      match props tr !! axLetter ax with
      | None => Ok sc
      | Some arrayIn =>
          let len :=
            match trace_length tr with
            | Some (S n) => S n
            | _ => minRowLength arrayIn
            end in
          a0 ← get arrayIn 0;
          if isArrayOrTypedArray a0 then
            a1 ← get arrayIn 1;
            if isArrayOrTypedArray a1 then scan_rows a0 a1 0 len sc
            else Ok sc
          else Ok sc
      end
  end.

(** The comparison function given to [list.sort].  [ind[k]] is read as a
    number by the subtraction: the rank of a key of the table, NaN for a
    key that the table gave no rank. *)
Definition rank (sn : seen_table) (v : value) : num :=
  ToNumber (object_get (snd sn) (ToString v)).

Definition compare_pairs (sc : scan) (a b : value * value) : num :=
  let d := Num.sub (rank (seen0 sc) (fst a)) (rank (seen0 sc) (fst b)) in
  if truthy (Num d) then d
  else Num.sub (rank (seen1 sc) (snd a)) (rank (seen1 sc) (snd b)).

(** [Array.prototype.sort] with a comparison function: a stable sort, which
    puts [x] before [y] when the comparison of [x] with [y] is negative; a
    result that is NaN counts as zero. *)
Fixpoint sort_insert {A : Type} (cmp : A -> A -> num) (x : A) (l : list A)
    : list A :=
  match l with
  | [] => [x]
  | y :: l' =>
      if Num.lt (cmp x y) (Fin 0) then x :: y :: l'
      else y :: sort_insert cmp x l'
  end.

Definition sort {A : Type} (cmp : A -> A -> num) (l : list A) : list A :=
  fold_left (fun acc x => sort_insert cmp x acc) l [].

(** The last loop: [setCategoryIndex(list[i])] for each pair in turn. *)
Definition register_pairs (ax : axis) (l : list (value * value)) : axis :=
  fold_left (fun a p => snd (setCategoryIndex a (Arr [fst p; snd p]))) l ax.

Definition empty_scan : scan :=
  {| seen0 := (0, ∅); seen1 := (0, ∅); pairs := [] |}.

Definition setupMultiCategory (L : layout) (ax : axis)
    (fullData : list trace) : exn axis :=
  traceIndices ← gather_traceIndices L ax;
  sc ← foldlM (scan_trace ax fullData) empty_scan traceIndices;
  mret (register_pairs ax (sort (compare_pairs sc) (pairs sc))).

(** *** Relational comparison *)

(** [a < b] and [a <= b]: the order of the strings when both operands are
    strings (an object compares as the string it converts to), the order of
    the numbers they convert to otherwise, false when one of these is NaN.
    Strings are compared by the codes of their characters. *)
Definition js_lt (a b : value) : bool :=
  match a, b with
  | (Str _ | Arr _ | TypedArr _ | Member _),
    (Str _ | Arr _ | TypedArr _ | Member _) =>
      String.ltb (ToString a) (ToString b)
  | _, _ => Num.lt (ToNumber a) (ToNumber b)
  end.

Definition js_le (a b : value) : bool :=
  match a, b with
  | (Str _ | Arr _ | TypedArr _ | Member _),
    (Str _ | Arr _ | TypedArr _ | Member _) =>
      negb (String.ltb (ToString b) (ToString a))
  | _, _ => Num.le (ToNumber a) (ToNumber b)
  end.

(** *** [ax.isValidRange] *)

(** [Array.isArray] holds of arrays only, not of typed arrays. *)
Definition isValidRange (ax : axis) (range : value) : bool :=
  match range with
  | Arr l =>
      (length l =? 2)
      && isNumeric (r2l ax (item l 0) Undefined Undefined)
      && isNumeric (r2l ax (item l 1) Undefined Undefined)
  | _ => false
  end.

(** *** [ax.isPtWithinRange] *)

(** [ax.isPtWithinRange(d, calendar)] for a calcdata point [d], an object
    read at the axis letter.  Reading [ax.range[0]] throws when the axis
    has no range. *)
Definition isPtWithinRange (ax : axis) (d : gmap string value) (cal : value)
    : exn bool :=
  let coord := c2l ax (default Undefined (d !! axLetter ax)) Null cal in
  match range ax with
  | None => Throw TypeError
  | Some r =>
      let r0 := r2l ax (item r 0) Undefined Undefined in
      let r1 := r2l ax (item r 1) Undefined Undefined in
      Ok (if js_lt r0 r1 then js_le r0 coord && js_le coord r1
          else js_le r1 coord && js_le coord r0)
  end.

(** *** [ax.clearCalc] *)

Definition emptyCategories (ax : axis) : axis := set_categories ax [] ∅.

(** The loop of [clearCalc] over the axes that a match group lists, in
    the order of its ids: the array and the dictionary of the first axis
    that has an array [_categories].  An axis record of this development
    always holds a list of categories, so that [hasCategories] says, for
    each id, whether the axis of the layout has its array yet (it has none
    before [clearCalc] has set one).  A listed id under which the layout
    has no axis makes the read of [ax2._categories] throw. *)
Fixpoint group_categories (L : layout) (hasCategories : string -> bool)
    (group : list (string * value))
    : exn (option (list value * option (gmap string nat))) :=
  match group with
  | [] => Ok None
  | kv :: rest =>
      match axes L !! fst kv with
      | None => Throw TypeError
      | Some ax2 =>
          if hasCategories (fst kv)
          then Ok (Some (_categories ax2, _categoriesMap ax2))
          else group_categories L hasCategories rest
      end
  end.

(** [ax.clearCalc()].  The axis record of this development has no field
    for [ax._initialCategories], which is given as an argument, absent or
    an array.  The axes of the match group, the axis under work among
    them, are read from the layout.  In the source the axis then holds the
    very array and dictionary of the other axis, so that labels registered
    later through one are seen through the other; here the result is the
    axis under work alone, as it sees its registry. *)
Definition clearCalc (L : layout) (ax : axis)
    (initialCategories : option (list value))
    (hasCategories : string -> bool) : exn axis :=
  ax1 ← match _axisMatchGroups L with
        | Some (g :: gs) =>
            match List.find
                    (fun group => truthy (group_lookup group (axId ax)))
                    (g :: gs) with
            | Some group =>
                found ← group_categories L hasCategories group;
                match found with
                | Some (categories, Some categoriesMap) =>
                    Ok (set_categories ax categories categoriesMap)
                | _ => Ok (emptyCategories ax)
                end
            | None => Ok (emptyCategories ax)
            end
        | _ => Ok (emptyCategories ax)
        end;
  mret (match initialCategories with
        | Some init =>
            fold_left (fun a v => snd (setCategoryIndex a v)) init ax1
        | None => ax1
        end).

End SetConvert.

(** ** The bars of a bar trace (traces/bar/plot.js) *)

Section BarPlot.

Context {E : Env}.



End BarPlot.

(** ** Vocabulary of the properties *)

Section Vocabulary.

Context {E : Env}.

(** The property keys of a list of labels. *)
Definition keys_of (cs : list value) : list string := ToString <$> cs.

(** The keys in the order in which they are first met, after those of
    [acc]. *)
Definition first_seen (acc ks : list string) : list string :=
  foldl (fun a k => if bool_decide (k ∈ a) then a else a ++ [k]) acc ks.

(** [setCategoryIndex] on each label in turn: the indices returned and the
    axis at the end. *)
Definition insert_all (ax : axis) (ls : list value) : list value * axis :=
  foldl (fun st v =>
           let '(i, a) := setCategoryIndex (snd st) v in (fst st ++ [i], a))
        ([], ax) ls.

(** The dictionary and the array of the registry agree: a key has index [i]
    exactly when it is the key of the [i]-th category. *)
Definition registry_ok (ax : axis) : Prop :=
  forall k i,
    default ∅ (_categoriesMap ax) !! k = Some i <->
    keys_of (_categories ax) !! i = Some k.

(** A label is registered when the lookup of its key gives an index. *)
Definition registered (ax : axis) (v : value) : Prop :=
  exists i, getCategoryIndex ax v = Num (Num.of_nat i).

(** A label that [setCategoryIndex] can register: neither null nor
    undefined, with a key that is not the name of a member of
    [Object.prototype]. *)
Definition registrable (v : value) : bool :=
  isValidCategory v && negb (inherited (ToString v)).

(** [ax.l2p(ax.d2l(v, a2, calendar))], the composition through the
    linearized space. *)
Definition l2p_of_d2l (ax : axis) (v a2 cal : value) : exn value :=
  '(x, ax') ← d2l ax v a2 cal; mret (l2p ax' x).





(** A finite number, NaN, or undefined: what the conversions into the
    linearized space return. *)
Definition number_or_undefined (v : value) : Prop :=
  v = Undefined \/ exists n, v = Num n /\ n <> PInf /\ n <> NInf.

(** What [r2l] returns: such a value, or on a category axis a member
    that the dictionary inherits. *)
Definition linearized_shape (v : value) : Prop :=
  number_or_undefined v \/ exists k, v = Member k.

(** The start, the step and the length of the sequence that
    [makeCalcdata] makes when the trace has no array for the axis: the
    [d2c] of the attribute [letter0] when the trace has it, else 0; the
    number of the attribute [dletter] when that is truthy, else 1; the
    [_length] of the trace when that is set and not zero, else the length
    of the array of the opposite letter. *)
Definition sequence_start (ax : axis) (tr : trace) (letter : string)
    : exn (value * axis) :=
  match props tr !! (letter +:+ "0") with
  | Some x0 =>
      d2c ax x0 (Num (Fin 0))
        match type ax with
        | date => default Undefined (props tr !! (letter +:+ "calendar"))
        | _ => Undefined
        end
  | None => Ok (Num (Fin 0), ax)
  end.

Definition sequence_step (tr : trace) (letter : string) : num :=
  match props tr !! ("d" +:+ letter) with
  | Some d => if truthy d then ToNumber d else Fin 1
  | None => Fin 1
  end.

Definition sequence_length (tr : trace) (letter : string)
    : exn (option nat) :=
  match trace_length tr with
  | Some (S n) => Ok (Some (S n))
  | _ => get_length (default Undefined (props tr !! opposite letter))
  end.

(** A trace with the given properties and no [_length]. *)
Definition trace_of (l : list (string * value)) : trace :=
  {| trace_length := None; props := list_to_map l |}.

(** A table of [seen] agrees with a list of keys: it counts them and
    ranks each by its place in the list. *)
Definition seen_ok (sn : seen_table) (ks : list string) : Prop :=
  fst sn = length ks /\
  forall k i, snd sn !! k = Some i <-> ks !! i = Some k.

(** The keys of the first and of the second components of the pairs, and
    the label under which a pair is registered. *)
Definition first_keys (ps : list (value * value)) : list string :=
  (fun p => ToString (fst p)) <$> ps.

Definition second_keys (ps : list (value * value)) : list string :=
  (fun p => ToString (snd p)) <$> ps.

Definition pair_label (p : value * value) : value := Arr [fst p; snd p].

(** The keys that are not names of members of [Object.prototype]. *)
Definition plain_keys (ks : list string) : list string :=
  List.filter (fun k => negb (inherited k)) ks.

(** The scan has ranked the keys of each level, those that a plain object
    does not inherit, in the order in which the pairs met them, and has
    kept only pairs of valid categories. *)
Definition scan_ok (sc : scan) : Prop :=
  seen_ok (seen0 sc) (first_seen [] (plain_keys (first_keys (pairs sc)))) /\
  seen_ok (seen1 sc) (first_seen [] (plain_keys (second_keys (pairs sc)))) /\
  Forall (fun p => isValidCategory (fst p) = true /\
                   isValidCategory (snd p) = true) (pairs sc).

(** The appearance-order ranks of a pair among the pairs [ps]: the places
    of its first and of its second key among the keys of that level, in
    the order in which the pairs first show them. *)
Definition ranked (ps : list (value * value)) (p : value * value)
    (i0 i1 : nat) : Prop :=
  first_seen [] (first_keys ps) !! i0 = Some (ToString (fst p)) /\
  first_seen [] (second_keys ps) !! i1 = Some (ToString (snd p)).

(** The lexicographic order of the ranks, strict and large. *)
Definition lex_lt (ps : list (value * value)) (p q : value * value) : Prop :=
  exists i0 i1 j0 j1,
    ranked ps p i0 i1 /\ ranked ps q j0 j1 /\
    (i0 < j0 \/ (i0 = j0 /\ i1 < j1)).

Definition lex_le (ps : list (value * value)) (p q : value * value) : Prop :=
  exists i0 i1 j0 j1,
    ranked ps p i0 i1 /\ ranked ps q j0 j1 /\
    (i0 < j0 \/ (i0 = j0 /\ i1 <= j1)).

(** No key of the pairs is the name of a member of [Object.prototype]. *)
Definition plain_pairs (ps : list (value * value)) : Prop :=
  Forall (fun p => inherited (ToString (fst p)) = false /\
                   inherited (ToString (snd p)) = false) ps.

(** Two pairs with the same label have the same keys at both levels.  (A
    label joins the two keys with a comma, so that keys that contain commas
    can make two pairs share a label.) *)
Definition labels_distinguish (ps : list (value * value)) : Prop :=
  forall p q, p ∈ ps -> q ∈ ps ->
    ToString (pair_label p) = ToString (pair_label q) ->
    ToString (fst p) = ToString (fst q) /\
    ToString (snd p) = ToString (snd q).


(** The length of the result: the [_length] of the trace when that is set
    and not zero, else [Lib.minRowLength] of the array. *)
Definition calcdata_length (tr : trace) (arrayIn : value) : nat :=
  match trace_length tr with
  | Some (S n) => S n
  | _ => minRowLength arrayIn
  end.

(** The entry [a[i]] of an array, undefined where there is none. *)
Definition entry (a : value) (i : nat) : value :=
  match get a i with Ok x => x | Throw _ => Undefined end.

(** The pairs that a trace shows for a multicategory axis: when its array
    for the axis letter has two rows, the pairs of the entries of the two
    rows at each place below the length sought, those of two valid
    categories, in the order of the rows. *)
Definition observed_rows (ax : axis) (tr : trace) : list (value * value) :=
  match props tr !! axLetter ax with
  | Some arrayIn =>
      if isArrayOrTypedArray (entry arrayIn 0)
         && isArrayOrTypedArray (entry arrayIn 1)
      then
        List.filter
          (fun p => isValidCategory (fst p) && isValidCategory (snd p))
          (map (fun j => (entry (entry arrayIn 0) j, entry (entry arrayIn 1) j))
             (seq 0 (calcdata_length tr arrayIn)))
      else []
  | None => []
  end.

Definition observed_pairs (ax : axis) (fullData : list trace)
    (tis : list nat) : list (value * value) :=
  flat_map (fun ti =>
              match fullData !! ti with
              | Some tr => observed_rows ax tr
              | None => []
              end) tis.

(** The traces that contribute to a multicategory axis: its own, and, for
    an axis without categories yet, those of the other axes of every match
    group that lists it. *)
Definition contributing_traces (L : layout) (ax : axis) : list nat :=
  _traceIndices ax ++
  match _axisMatchGroups L with
  | Some groups =>
      if length (_categories ax) =? 0 then
        flat_map
          (fun group : list (string * value) =>
             if truthy (group_lookup group (axId ax)) then
               flat_map
                 (fun kv : string * value =>
                    if String.eqb (fst kv) (axId ax) then []
                    else match axes L !! fst kv with
                         | Some ax2 => _traceIndices ax2
                         | None => []
                         end)
                 group
             else [])
          groups
      else []
  | None => []
  end.

(** A value that is numeric only if it is a number: any value but a
    string that reads as a number. *)
Definition numeric_is_number (v : value) : Prop :=
  isNumeric v = true -> exists q, v = Num (Fin q).

(** The default range that [cleanRange] falls back on. *)
Definition default_range (ax : axis) (dfltRange_opt : option (list value))
    : list value :=
  match type ax with
  | date => dfltRange (calendar ax)
  | _ =>
      if String.eqb (axLetter ax) "y" then DFLTRANGEY
      else default DFLTRANGEX dfltRange_opt
  end.

(** No match group of the layout lists the axis. *)
Definition in_no_group (L : layout) (ax : axis) : Prop :=
  match _axisMatchGroups L with
  | Some groups =>
      Forall (fun group => truthy (group_lookup group (axId ax)) = false)
        groups
  | None => True
  end.

(** [setCategoryIndex] on each label in turn, for the axis at the end. *)
Definition register_all (ax : axis) (ls : list value) : axis :=
  fold_left (fun a v => snd (setCategoryIndex a v)) ls ax.

End Vocabulary.

(** ** An environment for the worked examples

    Numbers are read from and printed to strings of decimal digits as
    JavaScript does for non-negative integers (a fraction is printed with
    its numerator and denominator, which JavaScript does not do); the
    constants are those of constants/numerical.js and
    plots/cartesian/constants.js.  The examples use linear and category
    axes and reach neither the logarithm of a number other than 1, nor a
    power with a fractional exponent, nor the date helpers; these are NaN
    or BADNUM here. *)

Fixpoint read_digits (s : string) (acc : N) : option N :=
  match s with
  | EmptyString => Some acc
  | String c s' =>
      let n := Ascii.N_of_ascii c in
      if ((48 <=? n) && (n <=? 57))%N
      then read_digits s' (10 * acc + (n - 48))%N
      else None
  end.

Definition sample_StringToNumber (s : string) : num :=
  match read_digits s 0%N with
  | Some n => Fin (inject_Z (Z.of_N n))
  | None => NaN
  end.

Definition sample_NumberToString (n : num) : string :=
  match n with
  | Fin q =>
      if (Zpos (Qden q) =? 1)%Z then pretty (Qnum q)
      else pretty (Qnum q) +:+ "/" +:+ pretty (Zpos (Qden q))
  | PInf => "Infinity"
  | NInf => "-Infinity"
  | NaN => "NaN"
  end.

(** The text of a built-in function as V8 prints it. *)
Definition sample_MemberToString (k : string) : string :=
  if String.eqb k "__proto__" then "[object Object]"
  else "function " +:+ (if String.eqb k "constructor" then "Object" else k)
       +:+ "() { [native code] }".

(** [Math.log]: exact at 1, where the logarithm is rational. *)
Definition sample_log (n : num) : num :=
  match n with
  | Fin q => if Qeq_bool q 1 then Fin 0 else NaN
  | PInf => PInf
  | _ => NaN
  end.

(** [Math.pow]: exact for whole exponents. *)
Definition sample_pow (a b : num) : num :=
  match a, b with
  | Fin x, Fin q =>
      if Qeq_bool q (inject_Z (Qfloor q)) then
        if Qeq_bool x 0 && (Qfloor q <? 0)%Z then PInf
        else Fin (Qred (Qpower x (Qfloor q)))
      else NaN
  | _, _ => NaN
  end.

(** [Number.MAX_VALUE / 10000], the double nearest to it. *)
Definition sample_FP_SAFE : Q := inject_Z (1844674407370955 * 2 ^ 960).

(** [Math.LN10], the double nearest to the logarithm of 10. *)
Definition sample_LN10 : Q := 2592480341699211 # 1125899906842624.

Definition sample_env : Env := {|
  StringToNumber := sample_StringToNumber;
  NumberToString := sample_NumberToString;
  MemberToString := sample_MemberToString;
  Math_log := sample_log;
  Math_LN10 := Fin sample_LN10;
  Math_pow := sample_pow;
  FP_SAFE := sample_FP_SAFE;
  LOG_CLIP := 10;
  stripJunk := fun s => s;
  dateTime2ms := fun _ _ => None;
  dateTime2ms_Date := fun _ => None;
  ms2DateTime := fun _ _ _ => Undefined;
  cleanDate := fun _ dflt _ => dflt;
  isDateTime := fun _ _ => false;
  dfltRange := fun _ => [Str "2000-01-01"; Str "2001-01-01"];
  MIN_MS := (-377705116800000) # 1;
  MAX_MS := 2534023007999999999 # 10000;
  DFLTRANGEX := [Num (Fin (-1)); Num (Fin 6)];
  DFLTRANGEY := [Num (Fin (-1)); Num (Fin 4)];
  minRowLength := fun z =>
    match z with
    | Arr (Arr r :: rows) =>
        foldl (fun n row =>
                 match row with
                 | Arr r' => Nat.min n (length r')
                 | TypedArr r' => Nat.min n (length r')
                 | _ => n
                 end) (length r) rows
    | Arr a => length a
    | TypedArr a => length a
    | _ => 0
    end
|}.

(** A fresh axis of a given type and id: no range, no category, the scale
    not set. *)
Definition fresh_axis (ty : axtype) (id : string) : axis :=
  {| _id := Some id; type := ty; calendar := Undefined;
     range := None; _r := None; domain := (Fin 0, Fin 1);
     overlaying := None; _categories := []; _categoriesMap := None;
     _traceIndices := []; _offset := NaN; _length := NaN;
     _m := NaN; _b := NaN |}.

Definition with_range (ax : axis) (r : list value) : axis :=
  set_range ax attr_range r.

(** A fresh multicategory axis [x] that shows the traces of the given
    indices. *)
Definition multicategory_axis (tis : list nat) : axis :=
  {| _id := Some "x"; type := multicategory; calendar := Undefined;
     range := None; _r := None; domain := (Fin 0, Fin 1);
     overlaying := None; _categories := []; _categoriesMap := None;
     _traceIndices := tis; _offset := NaN; _length := NaN;
     _m := NaN; _b := NaN |}.

(** A trace of three rows with the two-row array
    [[a0, a1, a2], [b0, b1, b2]] for [x]. *)
Definition three_rows (a0 a1 a2 b0 b1 b2 : string) : trace :=
  {| trace_length := Some 3;
     props := {["x" := Arr [Arr [Str a0; Str a1; Str a2];
                            Arr [Str b0; Str b1; Str b2]]]} |}.

(** The layout of a plot area of a given width and height at the origin,
    without match groups or other axes. *)
Definition plain_layout (width height : Q) : layout :=
  {| _size := {| gs_l := Fin 0; gs_t := Fin 0;
                 gs_w := Fin width; gs_h := Fin height |};
     _axisMatchGroups := None;
     axes := ∅ |}.

(** The axis [x] of a given type that shows the range [0, 10] over a plot
    area 800 wide, as [setScale] leaves it: the slope is 80 and the
    intercept 0. *)
Definition sample_axis (ty : axtype) : axis :=
  {| _id := Some "x"; type := ty; calendar := Undefined;
     range := Some [Num (Fin 0); Num (Fin 10)]; _r := None;
     domain := (Fin 0, Fin 1);
     overlaying := None; _categories := []; _categoriesMap := None;
     _traceIndices := []; _offset := Fin 0; _length := Fin 800;
     _m := Fin 80; _b := Fin 0 |}.

(** The category axis of the examples once the label [a] is registered. *)
Definition labelled_axis : axis :=
  set_categories (sample_axis category) [Str "a"] {["a" := 0]}.

(** The log axis of the examples with the range [1, 100]. *)
Definition log_axis : axis :=
  with_range (fresh_axis log "x") [Num (Fin 1); Num (Fin 100)].



(** The linear axis [y] that shows the range [0, 10] over a plot area 600
    high, as [setScale] leaves it: the slope is -60 and the intercept
    600. *)
Definition sample_y_axis : axis :=
  {| _id := Some "y"; type := linear; calendar := Undefined;
     range := Some [Num (Fin 0); Num (Fin 10)]; _r := None;
     domain := (Fin 0, Fin 1);
     overlaying := None; _categories := []; _categoriesMap := None;
     _traceIndices := []; _offset := Fin 0; _length := Fin 600;
     _m := Fin (-60); _b := Fin 600 |}.

(** The log axis [y] with the range [1, 100], before [setScale] and as
    [setScale] leaves it over a plot area 600 high. *)
Definition log_y_axis : axis :=
  with_range (fresh_axis log "y") [Num (Fin 1); Num (Fin 100)].

Definition log_y_scaled : axis :=
  {| _id := Some "y"; type := log; calendar := Undefined;
     range := Some [Num (Fin 1); Num (Fin 100)]; _r := None;
     domain := (Fin 0, Fin 1);
     overlaying := None; _categories := []; _categoriesMap := None;
     _traceIndices := []; _offset := Fin 0; _length := Fin 600;
     _m := Fin (-200 # 33); _b := Fin (20000 # 33) |}.

(** A linear axis [y2] that overlays the axis [y], with a domain and a
    range of its own, and a layout that has the axis [y] with the range
    [0, 10]. *)
Definition overlay_axis : axis :=
  {| _id := Some "y2"; type := linear; calendar := Undefined;
     range := Some [Num (Fin 0); Num (Fin 5)]; _r := None;
     domain := (Fin 0, Fin (1 # 2));
     overlaying := Some "y"; _categories := []; _categoriesMap := None;
     _traceIndices := []; _offset := NaN; _length := NaN;
     _m := NaN; _b := NaN |}.

Definition overlaid_axis : axis :=
  with_range (fresh_axis linear "y") [Num (Fin 0); Num (Fin 10)].

Definition overlay_layout : layout :=
  {| _size := {| gs_l := Fin 0; gs_t := Fin 0;
                 gs_w := Fin 800; gs_h := Fin 600 |};
     _axisMatchGroups := None;
     axes := {["y" := overlaid_axis]} |}.

(** A linear axis [x] with the range [0, 5] and the private range
    [0, 10]. *)
Definition private_axis : axis :=
  {| _id := Some "x"; type := linear; calendar := Undefined;
     range := Some [Num (Fin 0); Num (Fin 5)];
     _r := Some [Num (Fin 0); Num (Fin 10)];
     domain := (Fin 0, Fin 1);
     overlaying := None; _categories := []; _categoriesMap := None;
     _traceIndices := []; _offset := NaN; _length := NaN;
     _m := NaN; _b := NaN |}.

(** A layout whose one match group lists the axes [x2] and [x], in that
    order, the axis [x] being the category axis of the examples with its
    label and the axis [x2] a fresh category axis; of the two the axis [x]
    alone has categories. *)
Definition matched_layout : layout :=
  {| _size := {| gs_l := Fin 0; gs_t := Fin 0;
                 gs_w := Fin 800; gs_h := Fin 600 |};
     _axisMatchGroups := Some [[("x2", Num (Fin 1)); ("x", Num (Fin 1))]];
     axes := <["x2" := fresh_axis category "x2"]> {["x" := labelled_axis]} |}.

(** Which axes of [matched_layout] have their array of categories. *)
Definition matched_hasCategories (id : string) : bool := String.eqb id "x".

(** The multicategory axis of the examples once the pairs of
    [three_rows "x" "x" "y" "1" "2" "1"] are registered. *)
Definition paired_axis : axis :=
  {| _id := Some "x"; type := multicategory; calendar := Undefined;
     range := None; _r := None; domain := (Fin 0, Fin 1);
     overlaying := None;
     _categories := [Arr [Str "x"; Str "1"]; Arr [Str "x"; Str "2"];
                     Arr [Str "y"; Str "1"]];
     _categoriesMap := Some (<["y,1" := 2]> (<["x,2" := 1]> {["x,1" := 0]}));
     _traceIndices := [0]; _offset := NaN; _length := NaN;
     _m := NaN; _b := NaN |}.


(** A string that starts with a digit or with the minus sign, as the text
    of a finite number does. *)
Definition digit_head (s : string) : bool :=
  match s with
  | String c _ =>
      let n := Ascii.nat_of_ascii c in
      ((48 <=? n) && (n <=? 57)) || (n =? 45)
  | EmptyString => false
  end.


(** ** Properties *)

Section Properties.

(** The properties hold in every environment of built-ins that obeys the
    laws of [EnvLaws]; the laws are used only where a label is looked up
    that reads as a number. *)
Context {E : Env} {EL : EnvLaws E}.

(** Rational arithmetic is reasoned about, not unfolded. *)
#[local] Arguments Qplus : simpl never.
#[local] Arguments Qmult : simpl never.
#[local] Arguments Qopp : simpl never.
#[local] Arguments Qminus : simpl never.
#[local] Arguments Qdiv : simpl never.
#[local] Arguments Qinv : simpl never.
#[local] Arguments Qabs : simpl never.
#[local] Arguments Qred : simpl never.
#[local] Arguments Qfloor : simpl never.
#[local] Arguments Qcompare : simpl never.
#[local] Arguments Qeq_bool : simpl never.
#[local] Arguments inject_Z : simpl never.

(** *** Arithmetic of numbers *)

Lemma Fin_Qred_eq (x y : Q) : (x == y)%Q -> Fin (Qred x) = Fin (Qred y).
Proof. intros H. f_equal. by apply Qred_complete. Qed.

Lemma of_nat_inj (i j : nat) : Num.of_nat i = Num.of_nat j -> i = j.
Proof.
  unfold Num.of_nat, inject_Z. intros H. injection H as H. lia.
Qed.

Lemma of_nat_isFinite (i : nat) : Num.isFinite (Num.of_nat i) = true.
Proof. reflexivity. Qed.

(** *** The category registry *)

Lemma inherited_elem (k : string) :
  inherited k = true <-> k ∈ Object_prototype.
Proof. unfold inherited. apply bool_decide_eq_true. Qed.

Lemma object_get_Some (m : gmap string nat) (k : string) (i : nat) :
  object_get m k = Num (Num.of_nat i) <-> m !! k = Some i.
Proof.
  unfold object_get. destruct (m !! k) as [j|].
  - split; intros H.
    + f_equal. apply of_nat_inj. congruence.
    + congruence.
  - destruct (inherited k); split; discriminate.
Qed.

Lemma object_get_None (m : gmap string nat) (k : string) :
  m !! k = None ->
  object_get m k = if inherited k then Member k else Undefined.
Proof. intros H. unfold object_get. by rewrite H. Qed.

Lemma getCategoryIndex_Some (ax : axis) (v : value) (i : nat) :
  getCategoryIndex ax v = Num (Num.of_nat i) <->
  default ∅ (_categoriesMap ax) !! ToString v = Some i.
Proof.
  unfold getCategoryIndex. destruct (_categoriesMap ax) as [m|]; simpl.
  - apply object_get_Some.
  - rewrite lookup_empty. split; discriminate.
Qed.

Lemma registered_lookup (ax : axis) (v : value) :
  registered ax v <->
  is_Some (default ∅ (_categoriesMap ax) !! ToString v).
Proof.
  unfold registered. split.
  - intros [i Hi]. exists i. by apply getCategoryIndex_Some.
  - intros [i Hi]. exists i. by apply getCategoryIndex_Some.
Qed.

Lemma not_registered_lookup (ax : axis) (v : value) :
  ~ registered ax v <->
  default ∅ (_categoriesMap ax) !! ToString v = None.
Proof.
  rewrite registered_lookup. rewrite <- eq_None_not_Some. done.
Qed.

(** The lookup of a key that has no index: the member that the dictionary
    inherits under that name, when there is a dictionary and such a
    member, and undefined otherwise. *)
Lemma getCategoryIndex_unregistered (ax : axis) (v : value) :
  ~ registered ax v ->
  getCategoryIndex ax v =
  if bool_decide (is_Some (_categoriesMap ax)) && inherited (ToString v)
  then Member (ToString v) else Undefined.
Proof.
  intros Hnr%not_registered_lookup. unfold getCategoryIndex.
  destruct (_categoriesMap ax) as [m|]; simpl in *; [|done].
  by apply object_get_None.
Qed.

Lemma getCategoryIndex_plain (ax : axis) (v : value) :
  ~ registered ax v -> inherited (ToString v) = false ->
  getCategoryIndex ax v = Undefined.
Proof.
  intros Hnr Hp. rewrite getCategoryIndex_unregistered by done.
  by rewrite Hp, andb_false_r.
Qed.

Lemma registered_dec (ax : axis) (v : value) :
  registered ax v \/ ~ registered ax v.
Proof.
  rewrite not_registered_lookup, registered_lookup.
  destruct (default ∅ (_categoriesMap ax) !! ToString v); eauto.
Qed.

Lemma setCategoryIndex_invalid (ax : axis) (v : value) :
  isValidCategory v = false -> setCategoryIndex ax v = (BADNUM, ax).
Proof. intros H. unfold setCategoryIndex. by rewrite H. Qed.

Lemma setCategoryIndex_hit (ax : axis) (v : value) (i : nat) :
  isValidCategory v = true ->
  getCategoryIndex ax v = Num (Num.of_nat i) ->
  setCategoryIndex ax v = (Num (Num.of_nat i), ax).
Proof.
  intros Hv Hi. apply getCategoryIndex_Some in Hi.
  unfold setCategoryIndex. by rewrite Hv, Hi.
Qed.

Lemma setCategoryIndex_miss (ax : axis) (v : value) :
  isValidCategory v = true ->
  ~ registered ax v ->
  inherited (ToString v) = false ->
  setCategoryIndex ax v =
  (Num (Num.of_nat (length (_categories ax))),
   set_categories ax (_categories ax ++ [v])
     (<[ToString v := length (_categories ax)]>
        (default ∅ (_categoriesMap ax)))).
Proof.
  intros Hv Hi%not_registered_lookup Hp.
  unfold setCategoryIndex. by rewrite Hv, Hi, Hp.
Qed.

Lemma setCategoryIndex_inherited (ax : axis) (v : value) :
  isValidCategory v = true ->
  ~ registered ax v ->
  inherited (ToString v) = true ->
  setCategoryIndex ax v =
  (Member (ToString v),
   set_categories ax (_categories ax) (default ∅ (_categoriesMap ax))).
Proof.
  intros Hv Hi%not_registered_lookup Hp.
  unfold setCategoryIndex. by rewrite Hv, Hi, Hp.
Qed.

(** A call of [setCategoryIndex] leaves the index of every registered label
    as it was, and registers no label but its own. *)
Lemma setCategoryIndex_stable (ax : axis) (v u : value) :
  registered ax u ->
  getCategoryIndex (snd (setCategoryIndex ax v)) u = getCategoryIndex ax u.
Proof.
  intros [j Hu]. rewrite Hu. apply getCategoryIndex_Some in Hu.
  apply getCategoryIndex_Some.
  unfold setCategoryIndex. destruct (isValidCategory v); [|done].
  destruct (default ∅ (_categoriesMap ax) !! ToString v) as [i|] eqn:Hl;
    [done|].
  destruct (inherited (ToString v)); [done|]. simpl.
  destruct (decide (ToString v = ToString u)) as [Heq|Hne].
  - rewrite <- Heq, Hl in Hu. done.
  - by rewrite lookup_insert_ne.
Qed.

Lemma setCategoryIndex_others (ax : axis) (v u : value) :
  ToString u <> ToString v ->
  (registered (snd (setCategoryIndex ax v)) u <-> registered ax u).
Proof.
  intros Hne. rewrite !registered_lookup.
  unfold setCategoryIndex. destruct (isValidCategory v); [|done].
  destruct (default ∅ (_categoriesMap ax) !! ToString v) as [i|] eqn:Hl;
    [done|].
  destruct (inherited (ToString v)); [done|]. simpl.
  by rewrite lookup_insert_ne.
Qed.

(** One call keeps the dictionary and the array in agreement and extends
    the keys by the key of the label, if that is new and not the name of
    an inherited member. *)
Lemma setCategoryIndex_ok (ax : axis) (v : value) :
  isValidCategory v = true ->
  registry_ok ax ->
  registry_ok (snd (setCategoryIndex ax v)) /\
  keys_of (_categories (snd (setCategoryIndex ax v))) =
  first_seen (keys_of (_categories ax)) (plain_keys [ToString v]) /\
  (inherited (ToString v) = false ->
   exists i,
     fst (setCategoryIndex ax v) = Num (Num.of_nat i) /\
     keys_of (_categories (snd (setCategoryIndex ax v))) !! i
     = Some (ToString v)).
Proof.
  intros Hv Hok. unfold first_seen, plain_keys. simpl.
  destruct (default ∅ (_categoriesMap ax) !! ToString v) as [i|] eqn:Hl.
  - assert (Hin : ToString v ∈ keys_of (_categories ax)).
    { apply list_elem_of_lookup. exists i. by apply Hok. }
    unfold setCategoryIndex. rewrite Hv, Hl. simpl.
    split; [done|]. split.
    + destruct (inherited (ToString v)); simpl; [done|].
      by rewrite bool_decide_eq_true_2.
    + intros _. exists i. split; [done|]. by apply Hok.
  - assert (Hnin : ToString v ∉ keys_of (_categories ax)).
    { intros [i Hi]%list_elem_of_lookup. apply Hok in Hi. congruence. }
    unfold setCategoryIndex. rewrite Hv, Hl.
    destruct (inherited (ToString v)) eqn:Hp; simpl.
    { split; [|split; [done|done]]. intros k i. simpl. apply Hok. }
    rewrite bool_decide_eq_false_2 by done.
    assert (Hk : keys_of (_categories ax ++ [v])
                 = keys_of (_categories ax) ++ [ToString v]).
    { unfold keys_of. by rewrite fmap_app. }
    assert (Hlen : length (keys_of (_categories ax))
                   = length (_categories ax)).
    { unfold keys_of. by rewrite length_fmap. }
    split; [|split; [done|]].
    + intros k i. simpl. rewrite Hk.
      destruct (decide (ToString v = k)) as [<-|Hne].
      * rewrite lookup_insert_eq. split.
        -- intros [= <-]. rewrite lookup_app_r by lia.
           by rewrite Hlen, Nat.sub_diag.
        -- intros Hi. f_equal.
           destruct (decide (i < length (keys_of (_categories ax)))) as [Hlt|Hge].
           ++ rewrite lookup_app_l in Hi by done.
              exfalso. apply Hnin. apply list_elem_of_lookup. eauto.
           ++ apply lookup_lt_Some in Hi. rewrite length_app in Hi.
              simpl in Hi. lia.
      * rewrite lookup_insert_ne by done. rewrite (Hok k i). split.
        -- intros Hi. rewrite lookup_app_l; [done|].
           by apply lookup_lt_Some in Hi.
        -- intros Hi.
           destruct (decide (i < length (keys_of (_categories ax)))) as [Hlt|Hge].
           ++ by rewrite lookup_app_l in Hi.
           ++ rewrite lookup_app_r in Hi by lia.
              destruct (i - length (keys_of (_categories ax))) as [|n];
                simpl in Hi; [congruence|].
              by rewrite lookup_nil in Hi.
    + intros _. exists (length (_categories ax)). split; [done|].
      rewrite Hk, lookup_app_r by lia. by rewrite Hlen, Nat.sub_diag.
Qed.

Lemma first_seen_app (acc ks1 ks2 : list string) :
  first_seen acc (ks1 ++ ks2) = first_seen (first_seen acc ks1) ks2.
Proof. unfold first_seen. apply foldl_app. Qed.

Lemma first_seen_prefix (acc ks : list string) :
  acc `prefix_of` first_seen acc ks.
Proof.
  revert acc. induction ks as [|k ks IH]; intros acc; [done|].
  change (first_seen acc (k :: ks))
    with (first_seen (first_seen acc [k]) ks).
  etrans; [|apply IH]. unfold first_seen. simpl.
  case_bool_decide; [done|]. by apply prefix_app_r.
Qed.

Lemma insert_all_acc (ax : axis) (ls out : list value) :
  foldl (fun st v =>
           let '(i, a) := setCategoryIndex (snd st) v in (fst st ++ [i], a))
        (out, ax) ls
  = (out ++ fst (insert_all ax ls), snd (insert_all ax ls)).
Proof.
  unfold insert_all. revert ax out.
  induction ls as [|v ls IH]; intros ax out; simpl.
  - by rewrite app_nil_r.
  - destruct (setCategoryIndex ax v) as [i a1]. simpl.
    rewrite (IH a1 (out ++ [i])), (IH a1 [i]). simpl.
    by rewrite <- app_assoc.
Qed.

Lemma insert_all_cons (ax : axis) (v : value) (ls : list value) :
  insert_all ax (v :: ls) =
  (fst (setCategoryIndex ax v)
     :: fst (insert_all (snd (setCategoryIndex ax v)) ls),
   snd (insert_all (snd (setCategoryIndex ax v)) ls)).
Proof.
  unfold insert_all at 1. simpl.
  destruct (setCategoryIndex ax v) as [i a1]. simpl.
  by rewrite insert_all_acc.
Qed.

Lemma isValidCategory_false (v : value) :
  isValidCategory v = false <-> v = Null \/ v = Undefined.
Proof. destruct v; simpl; split; intros H; try done; auto; by destruct H. Qed.

Lemma isValidCategory_true (v : value) :
  isValidCategory v = true <-> v <> Null /\ v <> Undefined.
Proof.
  destruct v; simpl; split; try done; intros H; try done; by destruct H.
Qed.

Lemma registrable_true (v : value) :
  registrable v = true <->
  isValidCategory v = true /\ inherited (ToString v) = false.
Proof.
  unfold registrable. rewrite andb_true_iff, negb_true_iff. done.
Qed.

Lemma keys_of_registrable (v : value) :
  isValidCategory v = true ->
  keys_of (List.filter registrable [v]) = plain_keys [ToString v].
Proof.
  intros Hv. unfold registrable, plain_keys. simpl. rewrite Hv. simpl.
  by destruct (inherited (ToString v)).
Qed.

(** Registering a list of labels: the keys of the registry become the keys
    of the labels that can be registered, in first-seen order, and every
    such label is returned the place of its key in the final registry; a
    null or undefined label is returned BADNUM. *)
Lemma insert_all_ok (ax : axis) (ls : list value) :
  registry_ok ax ->
  registry_ok (snd (insert_all ax ls)) /\
  keys_of (_categories (snd (insert_all ax ls)))
  = first_seen (keys_of (_categories ax))
      (keys_of (List.filter registrable ls)) /\
  Forall2 (fun v r =>
             (registrable v = true ->
              exists i, r = Num (Num.of_nat i) /\
                keys_of (_categories (snd (insert_all ax ls))) !! i
                = Some (ToString v)) /\
             (isValidCategory v = false -> r = BADNUM))
          ls (fst (insert_all ax ls)).
Proof.
  revert ax. induction ls as [|v ls IH]; intros ax Hok.
  - split; [exact Hok|]. split; [reflexivity|]. constructor.
  - rewrite insert_all_cons. cbn [fst snd].
    destruct (isValidCategory v) eqn:Hv.
    + destruct (setCategoryIndex_ok ax v Hv Hok) as (Hok1 & Hk1 & Hidx).
      destruct (IH _ Hok1) as (Hok2 & Hk2 & Hall).
      split; [done|]. split.
      * rewrite Hk2, Hk1.
        change (v :: ls) with ([v] ++ ls).
        rewrite List.filter_app.
        assert (Happ : forall l1 l2 : list value,
                  keys_of (l1 ++ l2) = keys_of l1 ++ keys_of l2)
          by (intros; apply fmap_app).
        by rewrite Happ, first_seen_app, keys_of_registrable.
      * constructor; [|done]. split; [|congruence].
        intros [_ Hp]%registrable_true.
        destruct (Hidx Hp) as (i & Hi & Hki).
        exists i. split; [done|].
        rewrite Hk2. eapply prefix_lookup_Some; [exact Hki|].
        apply first_seen_prefix.
    + rewrite setCategoryIndex_invalid by done. cbn [fst snd].
      destruct (IH _ Hok) as (Hok2 & Hk2 & Hall).
      split; [done|]. split.
      * rewrite Hk2. cbn [List.filter]. unfold registrable at 2.
        by rewrite Hv.
      * constructor; [|done]. split; [|done].
        intros [Hv' _]%registrable_true. congruence.
Qed.

(** C5.  [setCategoryIndex], the d2c and d2l of a category axis.  A null or
    undefined label yields BADNUM and leaves the registry as it is.  A label
    that is registered yields its index and leaves the registry as it is.  A
    label that is not registered, and whose key is not the name of a member
    of [Object.prototype], is appended to the categories, yields the next
    index (the number of categories so far), is registered with that index
    from then on, and every other registered label keeps its index.  A
    label that is not registered and whose key is such a name ([constructor],
    [toString], ...) is not appended: the call returns the inherited
    member, not an index, and the label is still not registered afterwards.
    Over a sequence of labels the registry therefore lists the keys of the
    labels that can be registered, in first-seen order.  From an empty
    registry the labels b, a, b, c receive 0, 1, 0, 2, the categories are
    b, a, c, and a further [a] yields 1 and changes nothing; the labels
    b, constructor, a receive 0, the function [Object] and 1, and the
    categories are b, a. *)
Theorem setCategoryIndex_registry :
  (forall ax v,
     v = Null \/ v = Undefined -> setCategoryIndex ax v = (BADNUM, ax)) /\
  (forall ax v i,
     v <> Null -> v <> Undefined ->
     getCategoryIndex ax v = Num (Num.of_nat i) ->
     setCategoryIndex ax v = (Num (Num.of_nat i), ax)) /\
  (forall ax v,
     v <> Null -> v <> Undefined ->
     ~ registered ax v -> inherited (ToString v) = false ->
     let next := Num (Num.of_nat (length (_categories ax))) in
     fst (setCategoryIndex ax v) = next /\
     _categories (snd (setCategoryIndex ax v)) = _categories ax ++ [v] /\
     getCategoryIndex (snd (setCategoryIndex ax v)) v = next /\
     forall u, registered ax u ->
       getCategoryIndex (snd (setCategoryIndex ax v)) u
       = getCategoryIndex ax u) /\
  (forall ax v,
     v <> Null -> v <> Undefined ->
     ~ registered ax v -> inherited (ToString v) = true ->
     fst (setCategoryIndex ax v) = Member (ToString v) /\
     _categories (snd (setCategoryIndex ax v)) = _categories ax /\
     forall u,
       registered (snd (setCategoryIndex ax v)) u <-> registered ax u) /\
  (forall ax ls,
     registry_ok ax ->
     keys_of (_categories (snd (insert_all ax ls)))
     = first_seen (keys_of (_categories ax))
         (keys_of (List.filter registrable ls)) /\
     Forall2 (fun v r =>
                (registrable v = true ->
                 exists i, r = Num (Num.of_nat i) /\
                   keys_of (_categories (snd (insert_all ax ls))) !! i
                   = Some (ToString v)) /\
                (isValidCategory v = false -> r = BADNUM))
             ls (fst (insert_all ax ls))) /\
  (let ax1 :=
     snd (insert_all (fresh_axis category "x")
            [Str "b"; Str "a"; Str "b"; Str "c"]) in
   fst (insert_all (fresh_axis category "x")
          [Str "b"; Str "a"; Str "b"; Str "c"])
   = [Num (Fin 0); Num (Fin 1); Num (Fin 0); Num (Fin 2)] /\
   _categories ax1 = [Str "b"; Str "a"; Str "c"] /\
   getCategoryIndex ax1 (Str "b") = Num (Fin 0) /\
   getCategoryIndex ax1 (Str "a") = Num (Fin 1) /\
   getCategoryIndex ax1 (Str "c") = Num (Fin 2) /\
   setCategoryIndex ax1 (Str "a") = (Num (Fin 1), ax1)) /\
  (let ax2 :=
     snd (insert_all (fresh_axis category "x")
            [Str "b"; Str "constructor"; Str "a"]) in
   fst (insert_all (fresh_axis category "x")
          [Str "b"; Str "constructor"; Str "a"])
   = [Num (Fin 0); Member "constructor"; Num (Fin 1)] /\
   _categories ax2 = [Str "b"; Str "a"] /\
   getCategoryIndex ax2 (Str "constructor") = Member "constructor" /\
   fst (setCategoryIndex (fresh_axis category "x") (Str "toString"))
   = Member "toString" /\
   _categories (snd (setCategoryIndex (fresh_axis category "x")
                       (Str "toString"))) = []).
Proof.
  split; [|split; [|split; [|split; [|split; [|split]]]]].
  - intros ax v Hv. apply setCategoryIndex_invalid.
    by apply isValidCategory_false.
  - intros ax v i Hn Hu. apply setCategoryIndex_hit.
    by apply isValidCategory_true.
  - intros ax v Hn Hu Hmiss Hp next.
    assert (Hv : isValidCategory v = true) by by apply isValidCategory_true.
    rewrite (setCategoryIndex_miss ax v Hv Hmiss Hp). simpl.
    split; [done|]. split; [done|]. split.
    + apply getCategoryIndex_Some. simpl. by rewrite lookup_insert_eq.
    + intros u Hreg.
      pose proof (setCategoryIndex_stable ax v u Hreg) as Hs.
      by rewrite (setCategoryIndex_miss ax v Hv Hmiss Hp) in Hs.
  - intros ax v Hn Hu Hmiss Hp.
    assert (Hv : isValidCategory v = true) by by apply isValidCategory_true.
    rewrite (setCategoryIndex_inherited ax v Hv Hmiss Hp). simpl.
    split; [done|]. split; [done|].
    intros u. by rewrite !registered_lookup.
  - intros ax ls Hok.
    by destruct (insert_all_ok ax ls Hok) as (_ & ? & ?).
  - vm_compute. by repeat split.
  - vm_compute. by repeat split.
Qed.

(** *** Lookups that do not register *)

Lemma getCategoryPosition_registered (ax : axis) (v : value) :
  registered ax v -> getCategoryPosition ax v = getCategoryIndex ax v.
Proof.
  unfold getCategoryPosition. intros [i Hi]. by rewrite Hi.
Qed.

Lemma getCategoryPosition_unregistered (ax : axis) (v : value) :
  ~ registered ax v -> inherited (ToString v) = false ->
  getCategoryPosition ax v =
  if isNumeric v then Num (ToNumber v) else Undefined.
Proof.
  unfold getCategoryPosition. intros Hnr Hp.
  by rewrite (getCategoryIndex_plain ax v Hnr Hp).
Qed.



(** Under the laws of the built-ins a value that reads as a number has a
    key that no plain object inherits. *)
Lemma isNumeric_plain (v : value) :
  isNumeric v = true -> inherited (ToString v) = false.
Proof.
  destruct v as [| |n|s| | |k]; simpl; try done.
  - intros _. apply NumberToString_plain.
  - intros Hn. destruct (inherited s) eqn:Hp; [|done].
    rewrite (StringToNumber_inherited s Hp) in Hn. simpl in Hn. done.
Qed.



(** *** Data to pixel through the linearized space *)

Lemma mapM_exn_lookup {A B : Type} (f : A -> exn B) (xs : list A)
    (out : list B) (i : nat) (a : A) :
  mapM f xs = Ok out -> xs !! i = Some a ->
  exists b, f a = Ok b /\ out !! i = Some b.
Proof.
  revert out i. induction xs as [|x xs IH]; intros out i Hout Hi; [done|].
  simpl in Hout.
  destruct (f x) as [y|] eqn:Hy; simpl in Hout; [|done].
  destruct (mapM f xs) as [ys|] eqn:Hys; simpl in Hout; [|done].
  injection Hout as <-.
  destruct i as [|i]; simpl in *.
  - injection Hi as <-. eauto.
  - by apply IH.
Qed.

Lemma setMultiCategoryIndex_item (ax : axis) (arrayIn : value)
    (len i : nat) (out : list value) (v0 v1 : value) :
  setMultiCategoryIndex ax arrayIn len = Ok out ->
  i < len ->
  row_item arrayIn 0 i = Ok v0 ->
  row_item arrayIn 1 i = Ok v1 ->
  item out i = getCategoryIndex ax (Arr [v0; v1]).
Proof.
  unfold setMultiCategoryIndex. intros Hout Hi H0 H1.
  destruct (mapM_exn_lookup _ _ _ i i Hout) as (b & Hb & Hlook).
  { by apply lookup_seq. }
  rewrite H0, H1 in Hb. simpl in Hb. injection Hb as <-.
  unfold item. by apply nth_lookup_Some.
Qed.


Lemma registered_index (ax : axis) (v : value) :
  registered ax v -> exists i, getCategoryIndex ax v = Num (Num.of_nat i).
Proof. done. Qed.

Lemma r2c_registered (ax : axis) (v a2 cal : value) :
  type ax = category \/ type ax = multicategory ->
  registered ax v ->
  r2c ax v a2 cal = Ok (getCategoryIndex ax v).
Proof.
  intros Hty Hreg. unfold r2c.
  rewrite (getCategoryPosition_registered ax v Hreg).
  destruct (registered_index ax v Hreg) as [i ->].
  by destruct Hty as [-> | ->].
Qed.

(** C1, as the code has it.  On a linear, log or date axis, for every
    value, [d2p(v)] is [l2p(d2l(v))].  On a category axis this holds for
    every label that is neither null nor undefined and is registered; d2l
    then returns its index without changing the registry.  On a
    multicategory axis, for every row of the two-row array whose pair is
    registered, [d2p] of the pair is [l2p] of the entry that the bulk
    conversion [setMultiCategoryIndex] computes for the row. *)
Theorem d2p_through_linearized (ax : axis) (a2 cal : value) :
  (forall v,
     type ax <> multicategory ->
     (type ax = category ->
      v <> Null /\ v <> Undefined /\ registered ax v) ->
     d2p ax v a2 cal = l2p_of_d2l ax v a2 cal /\
     exists x, d2l ax v a2 cal = Ok (x, ax)) /\
  (forall arrayIn len out i v0 v1,
     type ax = multicategory ->
     setMultiCategoryIndex ax arrayIn len = Ok out ->
     i < len ->
     row_item arrayIn 0 i = Ok v0 ->
     row_item arrayIn 1 i = Ok v1 ->
     registered ax (Arr [v0; v1]) ->
     d2p ax (Arr [v0; v1]) a2 cal = Ok (l2p ax (item out i))).
Proof.
  split.
  - intros v Hmulti Hcat. unfold l2p_of_d2l, d2p, d2l.
    destruct (type ax) eqn:Hty; try done; simpl.
    + split; [reflexivity|by eexists].
    + unfold d2r. rewrite Hty. split; [reflexivity|by eexists].
    + split; [reflexivity|by eexists].
    + destruct Hcat as (Hn & Hu & Hreg); [done|].
      rewrite r2c_registered by (rewrite ?Hty; auto). simpl.
      destruct (registered_index ax v Hreg) as [i Hi].
      rewrite (setCategoryIndex_hit ax v i); [| by apply isValidCategory_true |done].
      simpl. rewrite Hi. eauto.
  - intros arrayIn len out i v0 v1 Hty Hout Hi H0 H1 Hreg.
    rewrite (setMultiCategoryIndex_item ax arrayIn len i out v0 v1) by done.
    unfold d2p. rewrite Hty.
    rewrite r2c_registered by auto. done.
Qed.


(** *** The logarithm with clipping *)

Lemma lt_Fin (x y : Q) : Num.lt (Fin x) (Fin y) = true <-> (x < y)%Q.
Proof.
  simpl. rewrite Qlt_alt. destruct (x ?= y)%Q; split; congruence.
Qed.

Lemma lt_Fin_false (x y : Q) : Num.lt (Fin x) (Fin y) = false <-> (y <= x)%Q.
Proof.
  simpl. rewrite Qle_alt.
  rewrite <- (Qcompare_antisym x y). destruct (x ?= y)%Q; simpl; split;
    congruence.
Qed.

Lemma eqb_Fin (x y : Q) : Num.eqb (Fin x) (Fin y) = true <-> (x == y)%Q.
Proof. simpl. apply Qeq_bool_iff. Qed.

Lemma le_Fin (x y : Q) : Num.le (Fin x) (Fin y) = true <-> (x <= y)%Q.
Proof.
  unfold Num.le. rewrite orb_true_iff, lt_Fin, eqb_Fin. split.
  - intros [H|H]; [by apply Qlt_le_weak|]. rewrite H. apply Qle_refl.
  - intros H. apply Qle_lteq in H. tauto.
Qed.

(** A positive value is sent to [Math.log(v) / Math.LN10], whatever the
    clip flag and the range. *)
Lemma toLog_positive (ax : axis) (v : value) (clip : bool) :
  Num.gt (ToNumber v) (Fin 0) = true ->
  toLog ax v clip = Num (Num.div (Math_log (ToNumber v)) Math_LN10).
Proof. intros H. unfold toLog. by rewrite H. Qed.


(** Without clipping, or without a range of two elements, a value that is
    not positive is sent to BADNUM. *)
Lemma toLog_unclipped (ax : axis) (v : value) (clip : bool) :
  Num.gt (ToNumber v) (Fin 0) = false ->
  clip = false \/ range ax = None \/
    (exists r, range ax = Some r /\ length r <> 2) ->
  toLog ax v clip = BADNUM.
Proof.
  intros Hgt H. unfold toLog. rewrite Hgt.
  destruct H as [-> | [-> | (r & -> & Hlen)]].
  - destruct (range ax); [|done]. by rewrite andb_false_r.
  - done.
  - apply Nat.eqb_neq in Hlen. rewrite Hlen. by rewrite andb_false_r.
Qed.


(** *** Failure of conversions and of [setScale] *)















Lemma setScale_Ok (L : layout) (ax ax2 : axis) (usePrivateRange : bool) :
  setScale L ax usePrivateRange = Ok ax2 <->
  derive_scale L ax usePrivateRange = Ok ax2 /\
  Num.isFinite (_m ax2) = true /\ Num.isFinite (_b ax2) = true /\
  Num.lt (_length ax2) (Fin 0) = false.
Proof.
  unfold setScale.
  destruct (derive_scale L ax usePrivateRange) as [ax3|e] eqn:Hd; simpl.
  - destruct (Num.isFinite (_m ax3)) eqn:Hm, (Num.isFinite (_b ax3)) eqn:Hb,
      (Num.lt (_length ax3) (Fin 0)) eqn:Hl; simpl; split; try done.
    all: try (intros ([= <-] & ? & ? & ?); congruence).
    intros [= <-]. auto.
  - split; [done|]. by intros [? _].
Qed.


















(** *** Rounding to the hundredth of a pixel *)

Lemma Qfloor_unique (y : Q) (z : Z) :
  (inject_Z z <= y)%Q -> (y < inject_Z (z + 1))%Q -> Qfloor y = z.
Proof.
  intros Hlo Hhi.
  pose proof (Qfloor_le y) as Hf1. pose proof (Qlt_floor y) as Hf2.
  assert (H1 : (inject_Z (Qfloor y) < inject_Z (z + 1))%Q)
    by (eapply Qle_lt_trans; eauto).
  assert (H2 : (inject_Z z < inject_Z (Qfloor y + 1))%Q)
    by (eapply Qle_lt_trans; eauto).
  rewrite <- Zlt_Qlt in H1, H2. lia.
Qed.

Lemma d3_round2_Fin (x : Q) :
  d3_round2 (Fin x) =
  Fin (Qred (inject_Z (Qfloor (Qred (Qred (x * 100) + (1 # 2)))) / 100)).
Proof. reflexivity. Qed.


(** The rounding moves a number by half a hundredth at most. *)
Lemma d3_round2_close (x : Q) :
  exists y, d3_round2 (Fin x) = Fin y /\ (Qabs (y - x) <= 1 # 200)%Q.
Proof.
  rewrite d3_round2_Fin. eexists. split; [reflexivity|].
  rewrite Qred_correct.
  set (u := Qred (Qred (x * 100) + (1 # 2))).
  pose proof (Qfloor_le u) as Hlo. pose proof (Qlt_floor u) as Hhi.
  rewrite inject_Z_plus in Hhi. change (inject_Z 1) with 1%Q in Hhi.
  assert (Hu : (u == x * 100 + (1 # 2))%Q).
  { unfold u. by rewrite !Qred_correct. }
  set (f := inject_Z (Qfloor u)) in *. clearbody f. clearbody u.
  assert (Hd : (f / 100 == f * (1 # 100))%Q) by field. rewrite Hd.
  apply Qabs_case; intros _; lra.
Qed.


(** *** The scale *)

Lemma isNumeric_Fin (v : value) :
  isNumeric v = true -> exists q, ToNumber v = Fin q.
Proof.
  destruct v as [| |n|s|a|a|k]; simpl; try done.
  - destruct n; try done. eauto.
  - destruct (_ && _); [done|].
    destruct (StringToNumber s); try done. eauto.
Qed.

Lemma cleanNumber_shape (v : value) : number_or_undefined (cleanNumber v).
Proof.
  unfold cleanNumber.
  destruct (isNumeric _) eqn:Hn; [|by left].
  apply isNumeric_Fin in Hn as [q ->]. right. eauto.
Qed.

Lemma getCategoryPosition_shape (ax : axis) (v : value) :
  linearized_shape (getCategoryPosition ax v).
Proof.
  unfold getCategoryPosition.
  destruct (registered_dec ax v) as [[i ->] | Hnr]; simpl.
  - left. right. unfold Num.of_nat. eauto.
  - rewrite (getCategoryIndex_unregistered ax v Hnr).
    destruct (_ && _); simpl; [right; eauto|]. left.
    destruct (isNumeric v) eqn:Hn; [|by left].
    apply isNumeric_Fin in Hn as [q ->]. right. eauto.
Qed.

Lemma dt2ms_shape (ax : axis) (v a2 cal : value) :
  number_or_undefined (dt2ms ax v a2 cal).
Proof.
  unfold dt2ms. destruct (dateTime2ms _ _); [right; eauto|].
  destruct (isNumeric v) eqn:Hn; [|by left].
  apply isNumeric_Fin in Hn as [q ->]. right.
  destruct (dateTime2ms_Date _); eexists; split; try reflexivity; done.
Qed.

Lemma r2l_shape (ax : axis) (v a2 cal : value) :
  linearized_shape (r2l ax v a2 cal).
Proof.
  unfold r2l. destruct (type ax);
    try apply getCategoryPosition_shape; left;
    auto using cleanNumber_shape, dt2ms_shape.
Qed.

Lemma r2l_second_argument (ax : axis) (v a2 a2' cal : value) :
  r2l ax v a2 cal = r2l ax v a2' cal.
Proof. reflexivity. Qed.

Lemma r2l_set_scale (ax : axis) (dom : num * num) (off len m b : num)
    (v a2 cal : value) :
  r2l (set_scale ax dom off len m b) v a2 cal = r2l ax v a2 cal.
Proof. reflexivity. Qed.

Lemma div_Fin (x y : Q) :
  ~ (y == 0)%Q -> Num.div (Fin x) (Fin y) = Fin (Qred (x / y)).
Proof.
  intros Hy. simpl.
  destruct (Qeq_bool y 0) eqn:H; [|done].
  by apply Qeq_bool_iff in H.
Qed.

(** With a finite slope [m = len / (rl1 - rl0)] and a finite intercept
    [b = -m * rl0], the two ends are distinct finite numbers, [b + m * rl0]
    is zero and [b + m * rl1] is [len]. *)
Lemma scale_endpoints (len rl0 rl1 : num) :
  let m := Num.div len (Num.sub rl1 rl0) in
  let b := Num.mul (Num.opp m) rl0 in
  rl0 <> PInf -> rl0 <> NInf -> rl1 <> PInf -> rl1 <> NInf ->
  Num.isFinite m = true -> Num.isFinite b = true ->
  exists q0 q1 lq,
    rl0 = Fin q0 /\ rl1 = Fin q1 /\ len = Fin lq /\ ~ (q1 == q0)%Q /\
    Num.add b (Num.mul m (Fin q0)) = Fin 0 /\
    Num.add b (Num.mul m (Fin q1)) = Fin (Qred lq).
Proof.
  intros m b H0p H0n H1p H1n Hm Hb. subst m b.
  destruct rl0 as [q0| | |]; try done.
  2: { by destruct (Num.div len (Num.sub rl1 NaN)). }
  destruct rl1 as [q1| | |]; try done.
  2: { by destruct len. }
  destruct len as [lq| | |]; try done.
  2,3: by simpl in Hm; destruct (_ ?= _)%Q.
  exists q0, q1, lq. simpl in Hm, Hb |- *.
  destruct (Qeq_bool (Qred (q1 + Qred (- q0))) 0) eqn:Hd.
  { unfold Num.signed_inf in Hm. by destruct (lq ?= 0)%Q. }
  apply Qeq_bool_neq in Hd. rewrite !Qred_correct in Hd.
  assert (Hne : ~ (q1 == q0)%Q) by (intros Heq; apply Hd; lra).
  assert (Hne' : ~ (q1 + - q0 == 0)%Q) by done.
  repeat split; try done.
  - change (Fin 0) with (Fin (Qred 0)). apply Fin_Qred_eq.
    rewrite !Qred_correct. field. done.
  - apply Fin_Qred_eq. rewrite !Qred_correct. field. done.
Qed.


Lemma linearized_shape_ToNumber (v : value) :
  linearized_shape v ->
  ToNumber v <> PInf /\ ToNumber v <> NInf /\
  forall q, ToNumber v = Fin q -> v = Num (Fin q).
Proof.
  intros [[-> | (n & -> & Hp & Hn)] | [k ->]]; simpl.
  - repeat split; done.
  - repeat split; try done. by intros q ->.
  - repeat split; done.
Qed.



(** *** [cleanRange] on a numeric range *)

Lemma get_set_range (ax : axis) (attr : rangeAttr) (r : list value) :
  get_range (set_range ax attr r) attr = Some r.
Proof. by destruct attr. Qed.

Lemma type_set_range (ax : axis) (attr : rangeAttr) (r : list value) :
  type (set_range ax attr r) = type ax.
Proof. by destruct attr. Qed.

(** The increment of the split: the larger of 1 and a millionth of the
    absolute value. *)
Lemma split_increment (r : Q) :
  Num.max (Fin 1) (Num.abs (Num.mul (Fin r) (Fin (1 # 1000000))))
  = Fin (Qred (Qmax 1 (Qabs r * (1 # 1000000)))).
Proof.
  cbn [Num.mul Num.abs Num.max].
  assert (Heq : (Qabs (Qred (r * (1 # 1000000))) == Qabs r * (1 # 1000000))%Q).
  { rewrite Qred_correct, Qabs_Qmult. by rewrite (Qabs_pos (1 # 1000000)). }
  destruct (Num.lt (Fin 1) (Fin (Qred (Qabs (Qred (r * (1 # 1000000)))))))
    eqn:Hlt.
  - apply lt_Fin in Hlt. rewrite Qred_correct, Heq in Hlt.
    apply Fin_Qred_eq. rewrite Heq. symmetry. apply Q.max_r. lra.
  - apply lt_Fin_false in Hlt. rewrite Qred_correct, Heq in Hlt.
    change (Fin 1) with (Fin (Qred 1)). apply Fin_Qred_eq.
    symmetry. by apply Q.max_l.
Qed.

(** A number within the safe bound is not clamped. *)
Lemma within_FP_SAFE (x : Q) :
  (- FP_SAFE <= x)%Q -> (x <= FP_SAFE)%Q ->
  Num.lt (Fin x) (Fin (- FP_SAFE)) = false /\
  Num.gt (Fin x) (Fin FP_SAFE) = false.
Proof. intros Hlo Hhi. split; by apply lt_Fin_false. Qed.


(** A turn of the loop on two distinct numbers, the one at hand within the
    safe bound, changes nothing. *)
Lemma cleanRange_numeric_keep (i : nat) (a b : Q) :
  i < 2 ->
  (- FP_SAFE <= (if i =? 0 then a else b))%Q ->
  ((if i =? 0 then a else b) <= FP_SAFE)%Q ->
  ~ (a == b)%Q ->
  cleanRange_numeric i [Num (Fin a); Num (Fin b)]
  = Continue [Num (Fin a); Num (Fin b)].
Proof.
  intros Hi Hlo Hhi Hne. unfold cleanRange_numeric.
  assert (Heq : strict_eq (Num (Fin a)) (Num (Fin b)) = false).
  { simpl. apply not_true_is_false. by intros ?%Qeq_bool_iff. }
  destruct i as [|[|i]]; [| |lia]; simpl in Hlo, Hhi;
    destruct (within_FP_SAFE _ Hlo Hhi) as [H1 H2];
    cbn [item nth isNumeric Num.isFinite negb ToNumber];
    rewrite H1, H2; cbn [item nth]; by rewrite Heq.
Qed.

(** The first turn of the loop on two equal numbers splits them. *)
Lemma cleanRange_numeric_split (r : Q) :
  (- FP_SAFE <= r)%Q -> (r <= FP_SAFE)%Q ->
  let inc := Qmax 1 (Qabs r * (1 # 1000000)) in
  cleanRange_numeric 0 [Num (Fin r); Num (Fin r)]
  = Continue [Num (Fin (Qred (r - inc))); Num (Fin (Qred (r + inc)))].
Proof.
  intros Hlo Hhi inc. unfold cleanRange_numeric.
  destruct (within_FP_SAFE _ Hlo Hhi) as [H1 H2].
  cbn [item nth isNumeric Num.isFinite negb ToNumber].
  rewrite H1, H2. cbn [item nth].
  assert (Heq : strict_eq (Num (Fin r)) (Num (Fin r)) = true).
  { simpl. by apply Qeq_bool_iff. }
  rewrite Heq. cbn [ToNumber]. rewrite split_increment. fold inc.
  cbn [insert list_insert item nth js_add ToNumber Num.sub Num.add Num.opp].
  assert (Hl : Fin (Qred (r + Qred (- Qred inc))) = Fin (Qred (r - inc))).
  { apply Fin_Qred_eq. rewrite !Qred_correct. reflexivity. }
  assert (Hr : Fin (Qred (r + Qred inc)) = Fin (Qred (r + inc))).
  { apply Fin_Qred_eq. rewrite !Qred_correct. reflexivity. }
  by rewrite Hl, Hr.
Qed.


(** [cleanRange] on an axis that is not a date axis, when both turns of the
    loop go through. *)
Lemma cleanRange_two_turns (ax : axis) (attr : rangeAttr)
    (dflt : option (list value)) (r r1 r2 : list value) :
  type ax <> date ->
  get_range ax attr = Some r ->
  length r = 2 ->
  cleanRange_numeric 0 r = Continue r1 ->
  cleanRange_numeric 1 r1 = Continue r2 ->
  cleanRange ax attr dflt = set_range ax attr r2.
Proof.
  intros Hty Hr Hlen H0 H1. unfold cleanRange, cleanRange_step.
  rewrite Hr, Hlen. simpl.
  destruct (type ax) eqn:Ht; try done;
    by rewrite H0, type_set_range, Ht, H1.
Qed.

(** On an axis that is not a date axis, [cleanRange] on a range whose
    two ends are the same number [r] (within the safe bound, with room for
    the increment below it) replaces them by [r - inc] and [r + inc], where
    [inc] is the larger of 1 and a millionth of the absolute value of [r];
    the two ends are then distinct.  For [5, 5] this is [4, 6]. *)
Lemma cleanRange_split_numbers (ax : axis) (attr : rangeAttr)
    (dflt : option (list value)) (r : Q)
    (Hty : type ax <> date)
    (Hr : get_range ax attr = Some [Num (Fin r); Num (Fin r)])
    (Hlo : (- FP_SAFE <= r)%Q)
    (Hhi : (r + Qmax 1 (Qabs r * (1 # 1000000)) <= FP_SAFE)%Q) :
  let inc := Qmax 1 (Qabs r * (1 # 1000000)) in
  get_range (cleanRange ax attr dflt) attr
  = Some [Num (Fin (Qred (r - inc))); Num (Fin (Qred (r + inc)))] /\
  (1 <= inc)%Q /\
  (Qred (r - inc) < Qred (r + inc))%Q /\
  (r = 5%Q ->
   get_range (cleanRange ax attr dflt) attr
   = Some [Num (Fin 4); Num (Fin 6)]).
Proof.
  intros inc.
  assert (Hinc : (1 <= inc)%Q) by apply Q.le_max_l.
  assert (Hget : get_range (cleanRange ax attr dflt) attr
                 = Some [Num (Fin (Qred (r - inc)));
                         Num (Fin (Qred (r + inc)))]).
  { rewrite (cleanRange_two_turns ax attr dflt
               [Num (Fin r); Num (Fin r)]
               [Num (Fin (Qred (r - inc))); Num (Fin (Qred (r + inc)))]
               [Num (Fin (Qred (r - inc))); Num (Fin (Qred (r + inc)))]);
      try done.
    - apply get_set_range.
    - apply cleanRange_numeric_split; [done|]. fold inc in Hhi. lra.
    - apply cleanRange_numeric_keep; simpl; rewrite ?Qred_correct.
      + lia.
      + lra.
      + by fold inc in Hhi.
      + lra. }
  split; [done|]. split; [done|]. split.
  - rewrite !Qred_correct. lra.
  - intros ->. rewrite Hget. reflexivity.
Qed.




(** *** The pixel round trip *)



(** *** The sequence made for a missing array *)

(** C8, as the code has it.  When the trace has no array for the axis
    letter, [makeCalcdata] returns the sequence [v0 + i * dv] for
    [i = 0 .. len - 1], where [v0] is the [d2c] of the attribute [letter0]
    when the trace has it and 0 otherwise, [dv] is the number of the
    attribute [dletter] when that is truthy (in particular not 0) and 1
    otherwise, and [len] is the [_length] of the trace when that is set and
    not zero and the length of the array of the opposite letter otherwise.
    When [v0] and [dv] are finite numbers the entries are the numbers
    [v0 + i * dv].  On a linear axis, [x0 = 5], [dx = 2] and a [y] of
    length 4 give [5, 7, 9, 11]. *)
Theorem makeCalcdata_sequence (ax ax' : axis) (tr : trace) (letter : string)
    (v0 : value) (len : nat)
    (Habsent : props tr !! letter = None)
    (Hstart : sequence_start ax tr letter = Ok (v0, ax'))
    (Hlen : sequence_length tr letter = Ok (Some len)) :
  makeCalcdata ax tr letter
  = Ok (Arr (map (fun i =>
                    js_add v0
                      (Num (Num.mul (Num.of_nat i) (sequence_step tr letter))))
               (seq 0 len)), ax') /\
  (forall q0 dq,
     v0 = Num (Fin q0) -> sequence_step tr letter = Fin dq ->
     makeCalcdata ax tr letter
     = Ok (Arr (map (fun i =>
                       Num (Fin (Qred (q0 + inject_Z (Z.of_nat i) * dq))))
                  (seq 0 len)), ax')) /\
  (forall a b c d,
     makeCalcdata (fresh_axis linear "x")
       (trace_of [("x0", Num (Fin 5)); ("dx", Num (Fin 2));
                  ("y", Arr [a; b; c; d])]) "x"
     = Ok (Arr [Num (Fin 5); Num (Fin 7); Num (Fin 9); Num (Fin 11)],
           fresh_axis linear "x")).
Proof.
  assert (Hmain : makeCalcdata ax tr letter
     = Ok (Arr (map (fun i =>
                    js_add v0
                      (Num (Num.mul (Num.of_nat i) (sequence_step tr letter))))
               (seq 0 len)), ax')).
  { unfold makeCalcdata. rewrite Habsent.
    unfold sequence_start in Hstart. rewrite Hstart. simpl.
    unfold sequence_length in Hlen. rewrite Hlen. reflexivity. }
  split; [exact Hmain|]. split.
  - intros q0 dq -> Hdq. rewrite Hmain, Hdq. do 3 f_equal.
    apply map_ext. intros i. simpl. f_equal. apply Fin_Qred_eq.
    rewrite Qred_correct. reflexivity.
  - intros a b c d. vm_compute. reflexivity.
Qed.


(** *** The order of the pairs of a multicategory axis *)

Lemma elem_of_first_seen (acc ks : list string) (k : string) :
  k ∈ first_seen acc ks <-> k ∈ acc \/ k ∈ ks.
Proof.
  revert acc. induction ks as [|k' ks IH]; intros acc.
  - unfold first_seen. simpl. rewrite elem_of_nil. tauto.
  - change (first_seen acc (k' :: ks))
      with (first_seen (first_seen acc [k']) ks).
    rewrite IH. unfold first_seen at 1. simpl.
    rewrite elem_of_cons. case_bool_decide as Hk.
    + split; [tauto|]. intros [?|[->|?]]; auto.
    + rewrite elem_of_app, list_elem_of_singleton. tauto.
Qed.

Lemma NoDup_first_seen (acc ks : list string) :
  NoDup acc -> NoDup (first_seen acc ks).
Proof.
  revert acc. induction ks as [|k ks IH]; intros acc Hacc; [done|].
  change (first_seen acc (k :: ks)) with (first_seen (first_seen acc [k]) ks).
  apply IH. unfold first_seen. simpl. case_bool_decide as Hk; [done|].
  apply NoDup_app. split; [done|]. split.
  - intros x Hx ->%list_elem_of_singleton. done.
  - apply NoDup_singleton.
Qed.

Lemma seen_ok_empty : seen_ok (0, ∅) [].
Proof.
  split; [done|]. intros k i. simpl. by rewrite lookup_empty, lookup_nil.
Qed.

Lemma plain_keys_app (ks1 ks2 : list string) :
  plain_keys (ks1 ++ ks2) = plain_keys ks1 ++ plain_keys ks2.
Proof. apply List.filter_app. Qed.

Lemma see_ok (sn : seen_table) (ks : list string) (v : value) :
  seen_ok sn ks ->
  seen_ok (see sn v) (first_seen ks (plain_keys [ToString v])).
Proof.
  intros [Hcnt Hrank]. unfold see, object_has, plain_keys. cbn [List.filter].
  destruct (snd sn !! ToString v) as [i|] eqn:Hl.
  - rewrite bool_decide_eq_true_2 by eauto. cbn [orb].
    assert (Hin : ToString v ∈ ks).
    { apply list_elem_of_lookup. exists i. by apply Hrank. }
    destruct (inherited (ToString v)); unfold first_seen; simpl; [done|].
    by rewrite bool_decide_eq_true_2.
  - rewrite bool_decide_eq_false_2 by (by intros [? ?]). cbn [orb].
    destruct (inherited (ToString v)) eqn:Hp; unfold first_seen; simpl;
      [done|].
    assert (Hnin : ToString v ∉ ks).
    { intros [i Hi]%list_elem_of_lookup. apply Hrank in Hi. congruence. }
    rewrite bool_decide_eq_false_2 by done.
    split; simpl.
    + rewrite length_app. simpl. lia.
    + intros k i. rewrite Hcnt.
      destruct (decide (ToString v = k)) as [<-|Hne].
      * rewrite lookup_insert_eq. split.
        -- intros [= <-]. rewrite lookup_app_r by lia.
           by rewrite Nat.sub_diag.
        -- intros Hi. f_equal.
           destruct (decide (i < length ks)) as [Hlt|Hge].
           ++ rewrite lookup_app_l in Hi by done.
              exfalso. apply Hnin. apply list_elem_of_lookup. eauto.
           ++ apply lookup_lt_Some in Hi. rewrite length_app in Hi.
              simpl in Hi. lia.
      * rewrite lookup_insert_ne by done. rewrite (Hrank k i). split.
        -- intros Hi. rewrite lookup_app_l; [done|].
           by apply lookup_lt_Some in Hi.
        -- intros Hi.
           destruct (decide (i < length ks)) as [Hlt|Hge].
           ++ by rewrite lookup_app_l in Hi.
           ++ rewrite lookup_app_r in Hi by lia.
              destruct (i - length ks) as [|n]; simpl in Hi; [congruence|].
              by rewrite lookup_nil in Hi.
Qed.

Lemma scan_ok_empty : scan_ok empty_scan.
Proof.
  split; [apply seen_ok_empty|]. split; [apply seen_ok_empty|].
  constructor.
Qed.

Lemma scan_rows_ok (a0 a1 : value) (j n : nat) (sc sc' : scan) :
  scan_ok sc -> scan_rows a0 a1 j n sc = Ok sc' -> scan_ok sc'.
Proof.
  revert j sc. induction n as [|n IH]; intros j sc Hok; simpl.
  - by intros [= <-].
  - destruct (get a0 j) as [v0|]; simpl; [|done].
    destruct (get a1 j) as [v1|]; simpl; [|done].
    apply IH.
    destruct (isValidCategory v0) eqn:H0, (isValidCategory v1) eqn:H1;
      simpl; try done.
    destruct Hok as (Hs0 & Hs1 & Hv).
    split; [|split]; simpl.
    + unfold first_keys. rewrite fmap_app, plain_keys_app, first_seen_app.
      simpl. by apply see_ok.
    + unfold second_keys. rewrite fmap_app, plain_keys_app, first_seen_app.
      simpl. by apply see_ok.
    + apply Forall_app. split; [done|]. by repeat constructor.
Qed.

Lemma scan_trace_ok (ax : axis) (fullData : list trace) (sc sc' : scan)
    (ti : nat) :
  scan_ok sc -> scan_trace ax fullData sc ti = Ok sc' -> scan_ok sc'.
Proof.
  intros Hok. unfold scan_trace.
  destruct (fullData !! ti) as [tr|]; [|done].
  destruct (props tr !! axLetter ax) as [arrayIn|]; [|by intros [= <-]].
  destruct (get arrayIn 0) as [a0|]; simpl; [|done].
  destruct (isArrayOrTypedArray a0); [|by intros [= <-]].
  destruct (get arrayIn 1) as [a1|]; simpl; [|done].
  destruct (isArrayOrTypedArray a1); [|by intros [= <-]].
  by apply scan_rows_ok.
Qed.

Lemma scan_traces_ok (ax : axis) (fullData : list trace) (sc sc' : scan)
    (tis : list nat) :
  scan_ok sc ->
  foldlM (scan_trace ax fullData) sc tis = Ok sc' -> scan_ok sc'.
Proof.
  revert sc. induction tis as [|ti tis IH]; intros sc Hok; simpl.
  - by intros [= <-].
  - destruct (scan_trace ax fullData sc ti) as [sc1|] eqn:H1; simpl; [|done].
    apply IH. by eapply scan_trace_ok.
Qed.

(** The pairs that the scan lists are the pairs that the traces show. *)
Lemma entry_get (a x : value) (i : nat) : get a i = Ok x -> entry a i = x.
Proof. intros H. unfold entry. by rewrite H. Qed.

Lemma scan_rows_pairs_eq (a0 a1 : value) (n : nat) :
  forall (j : nat) (sc sc' : scan),
    scan_rows a0 a1 j n sc = Ok sc' ->
    pairs sc' =
    pairs sc ++
    List.filter (fun p => isValidCategory (fst p) && isValidCategory (snd p))
      (map (fun k => (entry a0 k, entry a1 k)) (seq j n)).
Proof.
  induction n as [|n IH]; intros j sc sc' Hrun.
  - injection Hrun as <-. simpl. by rewrite app_nil_r.
  - cbn [scan_rows] in Hrun.
    destruct (get a0 j) as [x0|] eqn:H0; [|done].
    destruct (get a1 j) as [x1|] eqn:H1; [|done].
    cbn [mbind exn_bind] in Hrun. apply IH in Hrun. rewrite Hrun.
    cbn [seq map List.filter fst snd].
    rewrite (entry_get a0 x0 j H0), (entry_get a1 x1 j H1).
    destruct (isValidCategory x0 && isValidCategory x1); [|done].
    cbn [pairs]. by rewrite <- app_assoc.
Qed.

Lemma scan_trace_pairs_eq (ax : axis) (fullData : list trace)
    (sc sc' : scan) (ti : nat) :
  scan_trace ax fullData sc ti = Ok sc' ->
  exists tr, fullData !! ti = Some tr /\
    pairs sc' = pairs sc ++ observed_rows ax tr.
Proof.
  unfold scan_trace, observed_rows. intros Hrun.
  destruct (fullData !! ti) as [tr|]; [|done]. exists tr. split; [done|].
  destruct (props tr !! axLetter ax) as [arrayIn|];
    [|injection Hrun as <-; by rewrite app_nil_r].
  fold (calcdata_length tr arrayIn) in Hrun.
  destruct (get arrayIn 0) as [a0|] eqn:H0; [|done].
  cbn [mbind exn_bind] in Hrun. rewrite (entry_get arrayIn a0 0 H0).
  destruct (isArrayOrTypedArray a0);
    [|injection Hrun as <-; by rewrite app_nil_r].
  destruct (get arrayIn 1) as [a1|] eqn:H1; [|done].
  cbn [mbind exn_bind] in Hrun. rewrite (entry_get arrayIn a1 1 H1).
  destruct (isArrayOrTypedArray a1);
    [|injection Hrun as <-; by rewrite app_nil_r].
  cbn [andb]. by apply scan_rows_pairs_eq.
Qed.

Lemma scan_traces_pairs_eq (ax : axis) (fullData : list trace)
    (tis : list nat) :
  forall sc sc',
    foldlM (scan_trace ax fullData) sc tis = Ok sc' ->
    pairs sc' = pairs sc ++ observed_pairs ax fullData tis.
Proof.
  induction tis as [|ti tis IH]; intros sc sc' Hrun; simpl in Hrun.
  - injection Hrun as <-. unfold observed_pairs. simpl. by rewrite app_nil_r.
  - destruct (scan_trace ax fullData sc ti) as [sc1|] eqn:H1; [|done].
    cbn [mbind exn_bind] in Hrun.
    apply scan_trace_pairs_eq in H1 as (tr & Htr & H1).
    rewrite (IH _ _ Hrun), H1. unfold observed_pairs. cbn [flat_map].
    by rewrite Htr, <- app_assoc.
Qed.

(** The traces gathered are the contributing traces. *)
Lemma gather_traceIndices_eq (L : layout) (ax : axis) (tis : list nat) :
  gather_traceIndices L ax = Ok tis -> tis = contributing_traces L ax.
Proof.
  unfold gather_traceIndices, contributing_traces.
  destruct (_axisMatchGroups L) as [[|g gs]|].
  - intros [= <-]. destruct (_ =? 0); simpl; by rewrite app_nil_r.
  - destruct (length (_categories ax) =? 0);
      [|intros [= <-]; by rewrite app_nil_r].
    generalize (g :: gs). intros groups.
    assert (Hin : forall (group : list (string * value)) acc acc',
              foldlM (fun acc2 kv =>
                        if negb (String.eqb (fst kv) (axId ax)) then
                          match axes L !! fst kv with
                          | Some ax2 => Ok (acc2 ++ _traceIndices ax2)
                          | None => Throw TypeError
                          end
                        else Ok acc2) acc group = Ok acc' ->
              acc' = acc ++
                flat_map
                  (fun kv : string * value =>
                     if String.eqb (fst kv) (axId ax) then []
                     else match axes L !! fst kv with
                          | Some ax2 => _traceIndices ax2
                          | None => []
                          end) group).
    { induction group as [|kv group IH]; intros acc acc' Hrun; simpl in Hrun.
      - injection Hrun as <-. simpl. by rewrite app_nil_r.
      - cbn [flat_map]. destruct (String.eqb kv.1 (axId ax)); cbn [negb] in Hrun.
        + cbn [mbind exn_bind] in Hrun. by apply IH.
        + destruct (axes L !! kv.1) as [ax2|]; [|done].
          cbn [mbind exn_bind] in Hrun. apply IH in Hrun.
          by rewrite Hrun, app_assoc. }
    generalize (_traceIndices ax). revert tis.
    induction groups as [|group groups IH]; intros tis acc Hrun;
      simpl in Hrun.
    + injection Hrun as <-. simpl. by rewrite app_nil_r.
    + cbn [flat_map]. destruct (truthy _).
      * destruct (foldlM _ acc group) as [acc1|] eqn:H1; [|done].
        cbn [mbind exn_bind] in Hrun.
        apply Hin in H1. apply IH in Hrun. by rewrite Hrun, H1, app_assoc.
      * cbn [mbind exn_bind] in Hrun. by apply IH.
  - intros [= <-]. by rewrite app_nil_r.
Qed.


(** The sort: a rearrangement, in the order that the comparison function
    decides among the elements it compares consistently. *)
Section Sort.

Context {A : Type} (cmp : A -> A -> num) (P : A -> Prop)
  (le : A -> A -> Prop).

Hypothesis cmp_before :
  forall a b, P a -> P b -> Num.lt (cmp a b) (Fin 0) = true -> le a b.
Hypothesis cmp_after :
  forall a b, P a -> P b -> Num.lt (cmp a b) (Fin 0) = false -> le b a.
Hypothesis le_trans :
  forall a b c, P a -> P b -> P c -> le a b -> le b c -> le a c.

Lemma sort_insert_perm (x : A) (xs : list A) :
  sort_insert cmp x xs ≡ₚ x :: xs.
Proof.
  induction xs as [|y xs IH]; simpl; [done|].
  destruct (Num.lt (cmp x y) (Fin 0)); [done|].
  rewrite IH. apply Permutation_swap.
Qed.

Lemma sort_insert_sorted (x : A) (xs : list A) :
  P x -> Forall P xs ->
  StronglySorted le xs -> StronglySorted le (sort_insert cmp x xs).
Proof.
  induction xs as [|y xs IH]; intros Px Pxs Hs; simpl.
  - repeat constructor.
  - apply Forall_cons in Pxs as [Py Pxs].
    apply StronglySorted_cons in Hs as [Hy Hs].
    destruct (Num.lt (cmp x y) (Fin 0)) eqn:Hxy.
    + constructor.
      * by constructor.
      * constructor; [by apply cmp_before|].
        rewrite Forall_forall in Hy, Pxs. apply Forall_forall.
        intros z Hz. apply (le_trans x y z); auto.
    + constructor; [by apply IH|].
      rewrite (sort_insert_perm x xs). constructor; [|done].
      by apply cmp_after.
Qed.

Lemma sort_fold_perm (xs acc : list A) :
  fold_left (fun a x => sort_insert cmp x a) xs acc ≡ₚ xs ++ acc.
Proof.
  revert acc. induction xs as [|x xs IH]; intros acc; simpl; [done|].
  rewrite IH, sort_insert_perm. by rewrite Permutation_middle.
Qed.

Lemma sort_perm (xs : list A) : sort cmp xs ≡ₚ xs.
Proof. unfold sort. by rewrite sort_fold_perm, app_nil_r. Qed.

Lemma sort_sorted (xs : list A) :
  Forall P xs -> StronglySorted le (sort cmp xs).
Proof.
  unfold sort.
  assert (Hgen : forall acc,
            Forall P acc -> StronglySorted le acc -> Forall P xs ->
            StronglySorted le
              (fold_left (fun a x => sort_insert cmp x a) xs acc)).
  { induction xs as [|x xs IH]; intros acc Pacc Hacc Pxs; simpl; [done|].
    apply Forall_cons in Pxs as [Px Pxs].
    apply IH; [|by apply sort_insert_sorted|done].
    rewrite sort_insert_perm. by constructor. }
  intros Pxs. apply Hgen; [constructor|constructor|done].
Qed.

End Sort.


(** *** The ranks of the keys *)

Lemma rank_of_nat (sn : seen_table) (ks : list string) (v : value)
    (i : nat) :
  seen_ok sn ks -> ks !! i = Some (ToString v) ->
  rank sn v = Num.of_nat i.
Proof.
  intros [_ H] Hi. unfold rank, object_get. apply H in Hi. by rewrite Hi.
Qed.

Lemma sub_of_nat (i j : nat) :
  Num.sub (Num.of_nat i) (Num.of_nat j)
  = Fin (inject_Z (Z.of_nat i - Z.of_nat j)).
Proof.
  unfold Num.sub, Num.of_nat. cbn [Num.opp Num.add].
  rewrite <- (Qcanon.Qred_identity
                (inject_Z (Z.of_nat i - Z.of_nat j)))
    by apply Z.gcd_1_r.
  apply Fin_Qred_eq. rewrite Qred_correct.
  unfold Z.sub. rewrite inject_Z_plus, inject_Z_opp. reflexivity.
Qed.

Lemma truthy_inject_Z (z : Z) :
  truthy (Num (Fin (inject_Z z))) = negb (z =? 0)%Z.
Proof.
  cbn [truthy]. f_equal. apply eq_true_iff_eq.
  rewrite Qeq_bool_iff, Z.eqb_eq. change 0%Q with (inject_Z 0).
  rewrite inject_Z_injective. done.
Qed.

Lemma lt_inject_Z (z : Z) :
  Num.lt (Fin (inject_Z z)) (Fin 0) = true <-> (z < 0)%Z.
Proof.
  rewrite lt_Fin. change 0%Q with (inject_Z 0). by rewrite <- Zlt_Qlt.
Qed.

(** The comparison of two pairs whose keys all have ranks is negative
    exactly when the ranks of the first come before those of the second
    in the lexicographic order. *)
Lemma compare_pairs_ranks (sc : scan) (a b : value * value)
    (x0 x1 y0 y1 : nat) :
  rank (seen0 sc) a.1 = Num.of_nat x0 ->
  rank (seen1 sc) a.2 = Num.of_nat x1 ->
  rank (seen0 sc) b.1 = Num.of_nat y0 ->
  rank (seen1 sc) b.2 = Num.of_nat y1 ->
  (Num.lt (compare_pairs sc a b) (Fin 0) = true <->
   x0 < y0 \/ (x0 = y0 /\ x1 < y1)).
Proof.
  intros Ha0 Ha1 Hb0 Hb1. unfold compare_pairs.
  rewrite Ha0, Ha1, Hb0, Hb1, !sub_of_nat, truthy_inject_Z.
  destruct (Z.of_nat x0 - Z.of_nat y0 =? 0)%Z eqn:Hd; cbn [negb].
  - apply Z.eqb_eq in Hd. rewrite lt_inject_Z. lia.
  - apply Z.eqb_neq in Hd. rewrite lt_inject_Z. lia.
Qed.

Lemma plain_keys_all (ks : list string) :
  Forall (fun k => inherited k = false) ks -> plain_keys ks = ks.
Proof.
  induction 1 as [|k ks Hk _ IH]; [done|].
  unfold plain_keys in *. cbn [List.filter]. by rewrite Hk, IH.
Qed.

Lemma plain_pairs_keys (ps : list (value * value)) :
  plain_pairs ps ->
  plain_keys (first_keys ps) = first_keys ps /\
  plain_keys (second_keys ps) = second_keys ps.
Proof.
  intros Hp. split; apply plain_keys_all; apply Forall_fmap;
    (eapply Forall_impl; [exact Hp|]); by intros p [? ?].
Qed.

Lemma ranked_exists (ps : list (value * value)) (p : value * value) :
  p ∈ ps -> exists i0 i1, ranked ps p i0 i1.
Proof.
  intros Hp.
  assert (H0 : ToString p.1 ∈ first_seen [] (first_keys ps)).
  { apply elem_of_first_seen. right. unfold first_keys.
    apply list_elem_of_fmap. eauto. }
  assert (H1 : ToString p.2 ∈ first_seen [] (second_keys ps)).
  { apply elem_of_first_seen. right. unfold second_keys.
    apply list_elem_of_fmap. eauto. }
  apply list_elem_of_lookup in H0 as [i0 H0].
  apply list_elem_of_lookup in H1 as [i1 H1].
  by exists i0, i1.
Qed.

Lemma ranked_unique (ps : list (value * value)) (p q : value * value)
    (i0 i1 j0 j1 : nat) :
  ToString p.1 = ToString q.1 -> ToString p.2 = ToString q.2 ->
  ranked ps p i0 i1 -> ranked ps q j0 j1 -> i0 = j0 /\ i1 = j1.
Proof.
  intros Hk0 Hk1 [Hp0 Hp1] [Hq0 Hq1]. rewrite Hk0 in Hp0. rewrite Hk1 in Hp1.
  split.
  - eapply NoDup_lookup; [|exact Hp0|exact Hq0].
    apply NoDup_first_seen, NoDup_nil_2.
  - eapply NoDup_lookup; [|exact Hp1|exact Hq1].
    apply NoDup_first_seen, NoDup_nil_2.
Qed.

Lemma lex_lt_le (ps : list (value * value)) (p q : value * value) :
  lex_lt ps p q -> lex_le ps p q.
Proof.
  intros (i0 & i1 & j0 & j1 & Hp & Hq & H).
  exists i0, i1, j0, j1. split; [done|]. split; [done|]. lia.
Qed.

Lemma lex_lt_not_le (ps : list (value * value)) (p q p' q' : value * value) :
  ToString p.1 = ToString p'.1 -> ToString p.2 = ToString p'.2 ->
  ToString q.1 = ToString q'.1 -> ToString q.2 = ToString q'.2 ->
  lex_lt ps p q -> lex_le ps q' p' -> False.
Proof.
  intros Hp0 Hp1 Hq0 Hq1 (i0 & i1 & j0 & j1 & Hp & Hq & H)
    (j0' & j1' & i0' & i1' & Hq' & Hp' & H').
  destruct (ranked_unique ps p p' i0 i1 i0' i1' Hp0 Hp1 Hp Hp') as [-> ->].
  destruct (ranked_unique ps q q' j0 j1 j0' j1' Hq0 Hq1 Hq Hq') as [-> ->].
  lia.
Qed.

Lemma lex_le_trans (ps : list (value * value)) (a b c : value * value) :
  lex_le ps a b -> lex_le ps b c -> lex_le ps a c.
Proof.
  intros (i0 & i1 & j0 & j1 & Ha & Hb & H)
    (j0' & j1' & k0 & k1 & Hb' & Hc & H').
  destruct (ranked_unique ps b b j0 j1 j0' j1' eq_refl eq_refl Hb Hb')
    as [-> ->].
  exists i0, i1, k0, k1. split; [done|]. split; [done|]. lia.
Qed.

(** After a scan of pairs without inherited names, the ranks that the
    tables give are the appearance-order ranks. *)
Lemma scan_ranked (sc : scan) (p : value * value) (i0 i1 : nat) :
  scan_ok sc -> plain_pairs (pairs sc) ->
  ranked (pairs sc) p i0 i1 ->
  rank (seen0 sc) p.1 = Num.of_nat i0 /\
  rank (seen1 sc) p.2 = Num.of_nat i1.
Proof.
  intros (Hs0 & Hs1 & _) Hplain [H0 H1].
  destruct (plain_pairs_keys _ Hplain) as [Hk0 Hk1].
  rewrite Hk0 in Hs0. rewrite Hk1 in Hs1.
  split; eapply rank_of_nat; eauto.
Qed.

Lemma compare_pairs_lex (sc : scan) (p q : value * value) :
  scan_ok sc -> plain_pairs (pairs sc) ->
  p ∈ pairs sc -> q ∈ pairs sc ->
  (Num.lt (compare_pairs sc p q) (Fin 0) = true <-> lex_lt (pairs sc) p q).
Proof.
  intros Hok Hplain Hp Hq.
  destruct (ranked_exists _ p Hp) as (i0 & i1 & Hrp).
  destruct (ranked_exists _ q Hq) as (j0 & j1 & Hrq).
  destruct (scan_ranked sc p i0 i1 Hok Hplain Hrp) as [Hp0 Hp1].
  destruct (scan_ranked sc q j0 j1 Hok Hplain Hrq) as [Hq0 Hq1].
  rewrite (compare_pairs_ranks sc p q i0 i1 j0 j1) by done. split.
  - intros H. by exists i0, i1, j0, j1.
  - intros (i0' & i1' & j0' & j1' & Hrp' & Hrq' & H).
    destruct (ranked_unique _ p p i0 i1 i0' i1' eq_refl eq_refl Hrp Hrp')
      as [-> ->].
    destruct (ranked_unique _ q q j0 j1 j0' j1' eq_refl eq_refl Hrq Hrq')
      as [-> ->].
    done.
Qed.

Lemma compare_pairs_after (sc : scan) (p q : value * value) :
  scan_ok sc -> plain_pairs (pairs sc) ->
  p ∈ pairs sc -> q ∈ pairs sc ->
  Num.lt (compare_pairs sc p q) (Fin 0) = false -> lex_le (pairs sc) q p.
Proof.
  intros Hok Hplain Hp Hq Hge.
  destruct (ranked_exists _ p Hp) as (i0 & i1 & Hrp).
  destruct (ranked_exists _ q Hq) as (j0 & j1 & Hrq).
  destruct (scan_ranked sc p i0 i1 Hok Hplain Hrp) as [Hp0 Hp1].
  destruct (scan_ranked sc q j0 j1 Hok Hplain Hrq) as [Hq0 Hq1].
  exists j0, j1, i0, i1. split; [done|]. split; [done|].
  destruct (decide (i0 < j0 \/ (i0 = j0 /\ i1 < j1))) as [Hlt|Hnlt].
  - apply (compare_pairs_ranks sc p q i0 i1 j0 j1) in Hlt; try done.
    congruence.
  - lia.
Qed.

(** The first element of a list with a given image. *)
Lemma first_occurrence {A B : Type} `{EqDecision B} (f : A -> B)
    (xs : list A) (x : A) :
  x ∈ xs ->
  exists l1 e l2, xs = l1 ++ e :: l2 /\ f e = f x /\ f x ∉ f <$> l1.
Proof.
  induction xs as [|y xs IH]; intros Hx; [by apply elem_of_nil in Hx|].
  destruct (decide (f y = f x)) as [Heq|Hne].
  - exists [], y, xs. repeat split; [done|]. simpl. apply not_elem_of_nil.
  - apply elem_of_cons in Hx as [->|Hx]; [done|].
    destruct (IH Hx) as (l1 & e & l2 & -> & He & Hnin).
    exists (y :: l1), e, l2. repeat split; [done|].
    simpl. rewrite elem_of_cons. intros [Heq|Hin]; [by apply Hne|done].
Qed.

(** *** The labels of the pairs *)

(** The label of a pair joins its keys with a comma, which no name of a
    member of [Object.prototype] contains: a pair can always be
    registered. *)
Lemma comma_in_app (s1 s2 : string) :
  Ascii.ascii_of_nat 44 ∈ String.list_ascii_of_string (s1 +:+ "," +:+ s2).
Proof.
  induction s1 as [|c s1 IH]; simpl.
  - apply list_elem_of_here.
  - by apply list_elem_of_further.
Qed.

Lemma inherited_no_comma (k : string) :
  inherited k = true -> Ascii.ascii_of_nat 44 ∉ String.list_ascii_of_string k.
Proof.
  intros Hk%inherited_elem. unfold Object_prototype in Hk.
  repeat (apply elem_of_cons in Hk as [-> | Hk];
          [intros H; apply list_elem_of_In in H; simpl in H;
           intuition discriminate|]).
  by apply elem_of_nil in Hk.
Qed.

Lemma pair_label_plain (p : value * value) :
  inherited (ToString (pair_label p)) = false.
Proof.
  destruct (inherited (ToString (pair_label p))) eqn:Hk; [|done].
  apply inherited_no_comma in Hk. exfalso. apply Hk.
  unfold pair_label. cbn [ToString map join]. apply comma_in_app.
Qed.

Lemma pair_label_registrable (p : value * value) :
  registrable (pair_label p) = true.
Proof. apply registrable_true. split; [done|]. apply pair_label_plain. Qed.

Lemma filter_pair_labels (ps : list (value * value)) :
  List.filter registrable (pair_label <$> ps) = pair_label <$> ps.
Proof.
  induction ps as [|p ps IH]; [done|].
  rewrite fmap_cons. cbn [List.filter].
  by rewrite pair_label_registrable, IH.
Qed.

Lemma register_pairs_insert_all (ax : axis) (ps : list (value * value)) :
  register_pairs ax ps = snd (insert_all ax (pair_label <$> ps)).
Proof.
  revert ax. induction ps as [|p ps IH]; intros ax; [done|].
  rewrite fmap_cons, insert_all_cons. simpl. rewrite <- IH. reflexivity.
Qed.

Lemma register_pairs_keys (ax : axis) (ps : list (value * value)) :
  registry_ok ax ->
  registry_ok (register_pairs ax ps) /\
  keys_of (_categories (register_pairs ax ps))
  = first_seen (keys_of (_categories ax)) (keys_of (pair_label <$> ps)).
Proof.
  intros Hok. rewrite register_pairs_insert_all.
  destruct (insert_all_ok ax (pair_label <$> ps) Hok) as (Hok' & Hkeys & _).
  by rewrite filter_pair_labels in Hkeys.
Qed.

(** In a registry filled from empty with a sorted list of pairs, a pair
    whose ranks come strictly before those of another has the smaller
    index. *)
Lemma registered_order (ps0 : list (value * value)) (ax : axis)
    (ps : list (value * value)) (p q : value * value) :
  _categories ax = [] -> registry_ok ax ->
  StronglySorted (lex_le ps0) ps ->
  labels_distinguish ps ->
  p ∈ ps -> q ∈ ps ->
  lex_lt ps0 p q ->
  exists i j,
    getCategoryIndex (register_pairs ax ps) (pair_label p)
    = Num (Num.of_nat i) /\
    getCategoryIndex (register_pairs ax ps) (pair_label q)
    = Num (Num.of_nat j) /\
    i < j.
Proof.
  intros Hempty Hok Hsorted Hdist Hp Hq Hlt.
  destruct (register_pairs_keys ax ps Hok) as [Hok' Hkeys].
  rewrite Hempty in Hkeys. simpl in Hkeys.
  set (ax' := register_pairs ax ps) in *.
  set (jk := fun x : value * value => ToString (pair_label x)).
  assert (Hks : keys_of (pair_label <$> ps) = jk <$> ps).
  { unfold keys_of. by rewrite <- list_fmap_compose. }
  rewrite Hks in Hkeys.
  destruct (first_occurrence jk ps p Hp) as (l1 & e & l2 & Hsplit & He & Hnin).
  assert (Hein : e ∈ ps).
  { rewrite Hsplit. apply elem_of_app. right. apply elem_of_cons. by left. }
  destruct (Hdist e p Hein Hp He) as [He1 He2].
  assert (Hqp : jk q <> jk p).
  { intros Heq. destruct (Hdist q p Hq Hp Heq) as [H1 H2].
    assert (Hpp : lex_le ps0 p p).
    { destruct Hlt as (i0 & i1 & _ & _ & Hrp & _ & _).
      exists i0, i1, i0, i1. split; [done|]. split; [done|]. lia. }
    by apply (lex_lt_not_le ps0 p q p p). }
  assert (Hql1 : jk q ∉ jk <$> l1).
  { intros (x & Hx & Hxin)%list_elem_of_fmap.
    assert (Hxps : x ∈ ps).
    { rewrite Hsplit. apply elem_of_app. by left. }
    destruct (Hdist q x Hq Hxps Hx) as [H1 H2].
    assert (Hxe : lex_le ps0 x e).
    { rewrite Hsplit in Hsorted.
      eapply StronglySorted_app_1_elem_of; [exact Hsorted|done|].
      apply elem_of_cons. by left. }
    by apply (lex_lt_not_le ps0 p q e x). }
  set (fs1 := first_seen [] (jk <$> l1)).
  assert (Hpre : (fs1 ++ [jk p]) `prefix_of` keys_of (_categories ax')).
  { rewrite Hkeys, Hsplit, fmap_app, first_seen_app. fold fs1.
    rewrite fmap_cons.
    change (first_seen fs1 (jk e :: (jk <$> l2)))
      with (first_seen (first_seen fs1 [jk e]) (jk <$> l2)).
    replace (first_seen fs1 [jk e]) with (fs1 ++ [jk p]).
    - apply first_seen_prefix.
    - rewrite He. unfold first_seen at 1. simpl.
      rewrite bool_decide_eq_false_2; [done|].
      unfold fs1. rewrite elem_of_first_seen. intros [H|H]; [|done].
      by apply elem_of_nil in H. }
  assert (Hpi : keys_of (_categories ax') !! length fs1 = Some (jk p)).
  { eapply prefix_lookup_Some; [|exact Hpre].
    rewrite lookup_app_r by lia. by rewrite Nat.sub_diag. }
  assert (Hqin : jk q ∈ keys_of (_categories ax')).
  { rewrite Hkeys, elem_of_first_seen. right.
    apply list_elem_of_fmap. eauto. }
  apply list_elem_of_lookup in Hqin as [j Hj].
  exists (length fs1), j.
  split; [by apply getCategoryIndex_Some, Hok'|].
  split; [by apply getCategoryIndex_Some, Hok'|].
  destruct (decide (length fs1 < j)) as [?|Hge]; [done|]. exfalso.
  assert (Hj' : (fs1 ++ [jk p]) !! j = Some (jk q)).
  { rewrite (prefix_lookup_lt (fs1 ++ [jk p])
               (keys_of (_categories ax')) j); [done| |done].
    rewrite length_app. simpl. lia. }
  apply list_elem_of_lookup_2 in Hj'.
  apply elem_of_app in Hj' as [H|H].
  - unfold fs1 in H. apply elem_of_first_seen in H as [H|H]; [|done].
    by apply elem_of_nil in H.
  - by apply list_elem_of_singleton in H.
Qed.


Lemma pairs_permutation_distinguish (ps ps' : list (value * value)) :
  ps' ≡ₚ ps -> labels_distinguish ps -> labels_distinguish ps'.
Proof.
  intros Hperm Hd p q Hp Hq. apply Hd; by rewrite <- Hperm.
Qed.

(** C6.  [setupMultiCategory] on a multicategory axis without categories
    yet.  It scans the contributing traces, which are those of the axis
    and those of the other axes of the match groups that list it, and
    lists the pairs they show, row after row; it ranks the keys of each
    level in the order in which the pairs first show them, leaving out
    the keys that are names of members of [Object.prototype], which the
    tables of a plain object seem to hold already; it sorts the pairs with
    the comparison function and registers them in the sorted order.  When
    no key is such a name, the comparison puts [p] before [q] exactly when
    the ranks of [p] come first in the lexicographic order, the sorted
    list is in that order and, labels telling pairs apart, a pair whose
    ranks come before those of another has the smaller index.  For the
    rows [x, x, y] and [1, 2, 1] the categories are [x,1], [x,2], [y,1]
    with indices 0, 1, 2; for the rows [y, x, x] and [1, 2, 1], where [y]
    is met first, they are [y,1], [x,1], [x,2].  For the rows
    [a, constructor, a] and [1, 1, 2] the key [constructor] gets no rank
    and the categories are [a,1], [constructor,1], [a,2]: the pair [a,2]
    comes after a pair whose first key was met after [a]. *)
Theorem setupMultiCategory_order (L : layout) (ax ax' : axis)
    (fullData : list trace)
    (Hempty : _categories ax = [])
    (Hok : registry_ok ax)
    (Hrun : setupMultiCategory L ax fullData = Ok ax') :
  (exists sc,
     gather_traceIndices L ax = Ok (contributing_traces L ax) /\
     foldlM (scan_trace ax fullData) empty_scan (contributing_traces L ax)
     = Ok sc /\
     pairs sc = observed_pairs ax fullData (contributing_traces L ax) /\
     scan_ok sc /\
     sort (compare_pairs sc) (pairs sc) ≡ₚ pairs sc /\
     ax' = register_pairs ax (sort (compare_pairs sc) (pairs sc)) /\
     keys_of (_categories ax')
     = first_seen []
         (keys_of (pair_label <$> sort (compare_pairs sc) (pairs sc))) /\
     (plain_pairs (pairs sc) ->
      (forall p q, p ∈ pairs sc -> q ∈ pairs sc ->
         (Num.lt (compare_pairs sc p q) (Fin 0) = true <->
          lex_lt (pairs sc) p q)) /\
      StronglySorted (lex_le (pairs sc))
        (sort (compare_pairs sc) (pairs sc)) /\
      (labels_distinguish (pairs sc) ->
       forall p q, p ∈ pairs sc -> q ∈ pairs sc ->
         lex_lt (pairs sc) p q ->
         exists i j,
           getCategoryIndex ax' (pair_label p) = Num (Num.of_nat i) /\
           getCategoryIndex ax' (pair_label q) = Num (Num.of_nat j) /\
           i < j))) /\
  (exists ax1,
     setupMultiCategory (plain_layout 800 600) (multicategory_axis [0])
       [three_rows "x" "x" "y" "1" "2" "1"] = Ok ax1 /\
     _categories ax1 = [Arr [Str "x"; Str "1"]; Arr [Str "x"; Str "2"];
                        Arr [Str "y"; Str "1"]] /\
     getCategoryIndex ax1 (Arr [Str "x"; Str "1"]) = Num (Fin 0) /\
     getCategoryIndex ax1 (Arr [Str "x"; Str "2"]) = Num (Fin 1) /\
     getCategoryIndex ax1 (Arr [Str "y"; Str "1"]) = Num (Fin 2)) /\
  (exists ax2,
     setupMultiCategory (plain_layout 800 600) (multicategory_axis [0])
       [three_rows "y" "x" "x" "1" "2" "1"] = Ok ax2 /\
     _categories ax2 = [Arr [Str "y"; Str "1"]; Arr [Str "x"; Str "1"];
                        Arr [Str "x"; Str "2"]]) /\
  (exists ax3,
     setupMultiCategory (plain_layout 800 600) (multicategory_axis [0])
       [three_rows "a" "constructor" "a" "1" "1" "2"] = Ok ax3 /\
     _categories ax3 = [Arr [Str "a"; Str "1"];
                        Arr [Str "constructor"; Str "1"];
                        Arr [Str "a"; Str "2"]] /\
     getCategoryIndex ax3 (Arr [Str "constructor"; Str "1"]) = Num (Fin 1) /\
     getCategoryIndex ax3 (Arr [Str "a"; Str "2"]) = Num (Fin 2)).
Proof.
  split; [|split; [|split]].
  - unfold setupMultiCategory in Hrun.
    destruct (gather_traceIndices L ax) as [tis|] eqn:Htis; simpl in Hrun;
      [|done].
    pose proof (gather_traceIndices_eq L ax tis Htis) as ->.
    destruct (foldlM (scan_trace ax fullData) empty_scan
                (contributing_traces L ax)) as [sc|] eqn:Hsc;
      simpl in Hrun; [|done].
    injection Hrun as <-.
    set (sorted := sort (compare_pairs sc) (pairs sc)).
    assert (Hperm : sorted ≡ₚ pairs sc) by apply sort_perm.
    assert (Hscan : scan_ok sc)
      by (by eapply scan_traces_ok; [apply scan_ok_empty|]).
    exists sc. split; [done|]. split; [done|].
    split; [by rewrite (scan_traces_pairs_eq _ _ _ _ _ Hsc)|].
    split; [done|]. split; [done|]. split; [done|].
    destruct (register_pairs_keys ax sorted Hok) as [_ Hkeys].
    rewrite Hempty in Hkeys. split; [done|].
    intros Hplain.
    assert (Hsorted : StronglySorted (lex_le (pairs sc)) sorted).
    { apply (sort_sorted (compare_pairs sc) (fun p => p ∈ pairs sc)).
      - intros a b Ha Hb Hlt. apply lex_lt_le.
        by apply (compare_pairs_lex sc a b).
      - intros a b Ha Hb Hge. by apply (compare_pairs_after sc a b).
      - intros a b c _ _ _. apply lex_le_trans.
      - by apply Forall_forall. }
    split; [intros p q Hp Hq; by apply compare_pairs_lex|].
    split; [done|].
    intros Hdist p q Hp Hq Hlt.
    apply (registered_order (pairs sc) ax sorted p q); try done.
    + by apply (pairs_permutation_distinguish (pairs sc)).
    + by rewrite Hperm.
    + by rewrite Hperm.
  - eexists. vm_compute. repeat split; reflexivity.
  - eexists. vm_compute. repeat split; reflexivity.
  - eexists. vm_compute. repeat split; reflexivity.
Qed.

End Properties.

(** ** Further properties of the code

    What the code shows beyond the specification: the order that [l2p]
    keeps, the round trip between labels and indices, what [cleanRange]
    and [setScale] guarantee, [isValidRange], [isPtWithinRange],
    [clearCalc], the bulk conversion of multicategory axes, and the bars
    of a bar trace. *)

Section MoreProperties.

Context {E : Env} {EL : EnvLaws E}.

#[local] Arguments Qplus : simpl never.
#[local] Arguments Qmult : simpl never.
#[local] Arguments Qopp : simpl never.
#[local] Arguments Qminus : simpl never.
#[local] Arguments Qdiv : simpl never.
#[local] Arguments Qinv : simpl never.
#[local] Arguments Qabs : simpl never.
#[local] Arguments Qred : simpl never.
#[local] Arguments Qfloor : simpl never.
#[local] Arguments Qcompare : simpl never.
#[local] Arguments Qeq_bool : simpl never.
#[local] Arguments inject_Z : simpl never.

(** *** The pixel of a linearized number *)

Lemma l2p_Fin (ax : axis) (mq bq x : Q) :
  _m ax = Fin mq -> _b ax = Fin bq ->
  l2p ax (Num (Fin x)) = Num (d3_round2 (Fin (Qred (bq + Qred (mq * x))))).
Proof. intros Hm Hb. unfold l2p. simpl. by rewrite Hm, Hb. Qed.

Lemma d3_round2_mono (x y : Q) :
  (x <= y)%Q ->
  exists p q,
    d3_round2 (Fin x) = Fin p /\ d3_round2 (Fin y) = Fin q /\ (p <= q)%Q.
Proof.
  intros Hxy. rewrite !d3_round2_Fin. do 2 eexists.
  split; [reflexivity|]. split; [reflexivity|].
  rewrite !Qred_correct.
  assert (Hf : (Qfloor (x * 100 + (1 # 2)) <= Qfloor (y * 100 + (1 # 2)))%Z).
  { apply Qfloor_resp_le. lra. }
  rewrite Zle_Qle in Hf.
  set (f := inject_Z (Qfloor (x * 100 + (1 # 2)))) in *.
  set (g := inject_Z (Qfloor (y * 100 + (1 # 2)))) in *.
  clearbody f g.
  assert (Hd : forall u : Q, (u / 100 == u * (1 # 100))%Q) by (intros; field).
  rewrite !Hd. lra.
Qed.

(** X1. [l2p] keeps the order of two finite numbers when the slope is
    positive or zero and reverses it when the slope is negative or zero:
    the rounding to the hundredth of a pixel never swaps two positions. *)
Theorem l2p_monotone (ax : axis) (mq bq x y : Q)
    (Hm : _m ax = Fin mq) (Hb : _b ax = Fin bq) (Hxy : (x <= y)%Q) :
  exists px py,
    l2p ax (Num (Fin x)) = Num (Fin px) /\
    l2p ax (Num (Fin y)) = Num (Fin py) /\
    ((0 <= mq)%Q -> (px <= py)%Q) /\
    ((mq <= 0)%Q -> (py <= px)%Q).
Proof.
  rewrite !(l2p_Fin ax mq bq) by done.
  destruct (d3_round2_close (Qred (bq + Qred (mq * x)))) as (px & Hpx & _).
  destruct (d3_round2_close (Qred (bq + Qred (mq * y)))) as (py & Hpy & _).
  exists px, py. rewrite Hpx, Hpy. split; [done|]. split; [done|].
  split; intros Hs.
  - destruct (d3_round2_mono (Qred (bq + Qred (mq * x)))
                (Qred (bq + Qred (mq * y)))) as (p & q & Hp & Hq & Hle).
    { rewrite !Qred_correct. nra. }
    rewrite Hpx in Hp. rewrite Hpy in Hq. by injection Hp as ->; injection Hq as ->.
  - destruct (d3_round2_mono (Qred (bq + Qred (mq * y)))
                (Qred (bq + Qred (mq * x)))) as (p & q & Hp & Hq & Hle).
    { rewrite !Qred_correct. nra. }
    rewrite Hpy in Hp. rewrite Hpx in Hq. by injection Hp as ->; injection Hq as ->.
Qed.

(** *** The label at a position *)

Lemma round_Fin (x : Q) (z : Z) :
  (inject_Z z - (1 # 2) <= x)%Q -> (x < inject_Z z + (1 # 2))%Q ->
  Num.round (Fin x) = Fin (inject_Z z).
Proof.
  intros Hlo Hhi. unfold Num.round. cbn [Num.add Num.floor]. do 2 f_equal.
  apply Qfloor_unique; rewrite Qred_correct.
  - lra.
  - rewrite inject_Z_plus. change (inject_Z 1) with 1%Q. lra.
Qed.

Lemma item_num_of_nat (a : list value) (i : nat) :
  item_num a (Fin (inject_Z (Z.of_nat i))) = item a i.
Proof.
  unfold item_num. rewrite Qfloor_Z.
  rewrite (proj2 (Qeq_bool_iff _ _)) by reflexivity.
  rewrite (proj2 (Z.leb_le _ _)) by lia.
  by rewrite Nat2Z.id.
Qed.

Lemma item_num_negative (a : list value) (z : Z) :
  (z < 0)%Z -> item_num a (Fin (inject_Z z)) = Undefined.
Proof.
  intros Hz. unfold item_num. rewrite Qfloor_Z.
  rewrite (proj2 (Z.leb_gt _ _)) by lia.
  by rewrite andb_false_r.
Qed.

(** X3. [getCategoryName] gives the category whose index is nearest to the
    position, a half going up: the [i]-th category for every position from
    [i - 1/2] to below [i + 1/2], and undefined below [-1/2], at or beyond
    the number of categories less a half, and for a position that is not a
    finite number. *)
Theorem getCategoryName_nearest (ax : axis) :
  (forall (x : Q) (i : nat),
     (inject_Z (Z.of_nat i) - (1 # 2) <= x)%Q ->
     (x < inject_Z (Z.of_nat i) + (1 # 2))%Q ->
     getCategoryName ax (Num (Fin x)) = item (_categories ax) i) /\
  (forall x : Q,
     (x < - (1 # 2))%Q -> getCategoryName ax (Num (Fin x)) = Undefined) /\
  (forall x : Q,
     (inject_Z (Z.of_nat (length (_categories ax))) - (1 # 2) <= x)%Q ->
     getCategoryName ax (Num (Fin x)) = Undefined) /\
  (forall v, Num.isFinite (ToNumber v) = false ->
     getCategoryName ax v = Undefined).
Proof.
  repeat split.
  - intros x i Hlo Hhi. unfold getCategoryName. cbn [ToNumber].
    rewrite (round_Fin x (Z.of_nat i)) by done. apply item_num_of_nat.
  - intros x Hx. unfold getCategoryName. cbn [ToNumber].
    set (z := Qfloor (x + (1 # 2))).
    assert (Hz : (z < 0)%Z).
    { apply Z.lt_nge. intros Hge. rewrite Zle_Qle in Hge.
      pose proof (Qfloor_le (x + (1 # 2))) as Hf. fold z in Hf.
      change (inject_Z 0) with 0%Q in Hge. lra. }
    rewrite (round_Fin x z).
    + by apply item_num_negative.
    + pose proof (Qfloor_le (x + (1 # 2))) as Hf. fold z in Hf. lra.
    + pose proof (Qlt_floor (x + (1 # 2))) as Hf. fold z in Hf.
      rewrite inject_Z_plus in Hf. change (inject_Z 1) with 1%Q in Hf. lra.
  - intros x Hx. unfold getCategoryName. cbn [ToNumber].
    set (z := Qfloor (x + (1 # 2))).
    assert (Hz : (Z.of_nat (length (_categories ax)) <= z)%Z).
    { unfold z.
      rewrite <- (Qfloor_Z (Z.of_nat (length (_categories ax)))).
      apply Qfloor_resp_le. lra. }
    rewrite (round_Fin x z).
    + replace z with (Z.of_nat (Z.to_nat z)) by lia.
      rewrite item_num_of_nat. unfold item. apply nth_overflow. lia.
    + pose proof (Qfloor_le (x + (1 # 2))) as Hf. fold z in Hf. lra.
    + pose proof (Qlt_floor (x + (1 # 2))) as Hf. fold z in Hf.
      rewrite inject_Z_plus in Hf. change (inject_Z 1) with 1%Q in Hf. lra.
  - intros v Hv. unfold getCategoryName.
    by destruct (ToNumber v).
Qed.

(** *** Labels and indices *)

Lemma getCategoryName_of_nat (ax : axis) (i : nat) :
  getCategoryName ax (Num (Num.of_nat i)) = item (_categories ax) i.
Proof.
  unfold getCategoryName, Num.of_nat. cbn [ToNumber].
  rewrite (round_Fin _ (Z.of_nat i)) by lra. apply item_num_of_nat.
Qed.

Lemma type_setCategoryIndex (ax : axis) (v : value) :
  type (snd (setCategoryIndex ax v)) = type ax.
Proof.
  unfold setCategoryIndex. destruct (isValidCategory v); [|done].
  destruct (_ !! _); [done|]. by destruct (inherited _).
Qed.

Lemma setCategoryIndex_dictionary (ax : axis) (v : value) :
  isValidCategory v = true ->
  is_Some (_categoriesMap (snd (setCategoryIndex ax v))).
Proof.
  intros Hv. unfold setCategoryIndex. rewrite Hv.
  destruct (default ∅ (_categoriesMap ax) !! ToString v) as [i|] eqn:Hl.
  - cbn [snd]. destruct (_categoriesMap ax); [eauto|].
    simpl in Hl. by rewrite lookup_empty in Hl.
  - destruct (inherited _); simpl; eauto.
Qed.

Lemma setCategoryIndex_dictionary_stays (ax : axis) (v : value) :
  is_Some (_categoriesMap ax) ->
  is_Some (_categoriesMap (snd (setCategoryIndex ax v))).
Proof.
  intros Hm. unfold setCategoryIndex. destruct (isValidCategory v); [|done].
  destruct (_ !! _); [done|]. destruct (inherited _); simpl; eauto.
Qed.

(** What [setCategoryIndex] returns is what the lookup of the label gives
    afterwards; the label is then registered, unless its key is the name
    of an inherited member. *)
Lemma setCategoryIndex_index (ax : axis) (v : value) :
  isValidCategory v = true ->
  fst (setCategoryIndex ax v)
  = getCategoryIndex (snd (setCategoryIndex ax v)) v /\
  (inherited (ToString v) = false ->
   registered (snd (setCategoryIndex ax v)) v).
Proof.
  intros Hv.
  destruct (registered_dec ax v) as [[i Hi] | Hnr].
  - rewrite (setCategoryIndex_hit ax v i Hv Hi). cbn [fst snd].
    split; [done|]. intros _. by exists i.
  - destruct (inherited (ToString v)) eqn:Hp.
    + rewrite (setCategoryIndex_inherited ax v Hv Hnr Hp). cbn [fst snd].
      split; [|done].
      apply not_registered_lookup in Hnr.
      unfold getCategoryIndex. cbn [set_categories _categoriesMap].
      by rewrite (object_get_None _ _ Hnr), Hp.
    + rewrite (setCategoryIndex_miss ax v Hv Hnr Hp). cbn [fst snd].
      assert (Hidx : getCategoryIndex
                (set_categories ax (_categories ax ++ [v])
                   (<[ToString v:=length (_categories ax)]>
                      (default ∅ (_categoriesMap ax)))) v
              = Num (Num.of_nat (length (_categories ax)))).
      { apply getCategoryIndex_Some. simpl. by rewrite lookup_insert_eq. }
      split; [done|]. intros _. by eexists.
Qed.

(** A call of [setCategoryIndex] on an axis that has a dictionary leaves
    the lookup of a registered label and of the name of an inherited
    member as it was. *)
Lemma setCategoryIndex_keeps (ax : axis) (v u : value) :
  registered ax u \/
    (is_Some (_categoriesMap ax) /\ inherited (ToString u) = true) ->
  getCategoryIndex (snd (setCategoryIndex ax v)) u = getCategoryIndex ax u.
Proof.
  intros [Hreg | [[m Hm] Hp]]; [by apply setCategoryIndex_stable|].
  destruct (registered_dec ax u) as [Hreg | Hnr];
    [by apply setCategoryIndex_stable|].
  apply not_registered_lookup in Hnr. rewrite Hm in Hnr. simpl in Hnr.
  assert (Hbefore : getCategoryIndex ax u = Member (ToString u)).
  { unfold getCategoryIndex. rewrite Hm.
    by rewrite (object_get_None _ _ Hnr), Hp. }
  rewrite Hbefore.
  unfold setCategoryIndex. destruct (isValidCategory v); [|done].
  rewrite Hm. cbn [default from_option id].
  destruct (m !! ToString v) as [i|] eqn:Hl; [done|].
  destruct (inherited (ToString v)) eqn:Hpv; cbn [snd];
    unfold getCategoryIndex; cbn [set_categories _categoriesMap].
  - by rewrite (object_get_None _ _ Hnr), Hp.
  - rewrite object_get_None; [by rewrite Hp|].
    rewrite lookup_insert_ne; [done|]. intros Heq. congruence.
Qed.

(** No call registers the name of an inherited member. *)
Lemma setCategoryIndex_inherited_stays (ax : axis) (v u : value) :
  inherited (ToString u) = true ->
  registered (snd (setCategoryIndex ax v)) u -> registered ax u.
Proof.
  intros Hp. rewrite !registered_lookup.
  unfold setCategoryIndex. destruct (isValidCategory v); [|done].
  destruct (default ∅ (_categoriesMap ax) !! ToString v) as [i|] eqn:Hl;
    [done|].
  destruct (inherited (ToString v)) eqn:Hpv; [done|]. simpl.
  rewrite lookup_insert_ne; [done|]. intros Heq. congruence.
Qed.

(** Under the index of a registered label the array holds a label with the
    same key. *)
Lemma getCategoryName_index (ax : axis) (v : value) (j : nat) :
  registry_ok ax ->
  getCategoryIndex ax v = Num (Num.of_nat j) ->
  exists u, _categories ax !! j = Some u /\ ToString u = ToString v /\
    getCategoryName ax (Num (Num.of_nat j)) = u.
Proof.
  intros Hok Hj. apply getCategoryIndex_Some in Hj.
  apply Hok in Hj. unfold keys_of in Hj.
  apply list_lookup_fmap_Some in Hj as (u & Hu & Hk).
  exists u. split; [done|]. split; [done|].
  rewrite getCategoryName_of_nat. unfold item. by apply nth_lookup_Some.
Qed.

Lemma getCategoryName_Member (ax : axis) (k : string) :
  getCategoryName ax (Member k) = Undefined.
Proof. reflexivity. Qed.

(** X4. On a category axis whose dictionary and array agree, a label
    converted to its index and back gives a label with the same key, the
    label itself when it was not registered before; this for every label
    that is registered or whose key is not the name of a member of
    [Object.prototype].  A label that is not registered and whose key is
    such a name is converted to the inherited member, and that back to
    undefined.  An index below the number of categories converted to its
    label and back gives the index. *)
Theorem category_round_trip (ax : axis) (a2 cal : value)
    (Hok : registry_ok ax) :
  (forall v c ax',
     type ax = category ->
     v <> Null -> v <> Undefined ->
     registered ax v \/ inherited (ToString v) = false ->
     d2c ax v a2 cal = Ok (c, ax') ->
     ToString (c2d ax' c a2 cal) = ToString v /\
     (~ registered ax v -> c2d ax' c a2 cal = v)) /\
  (forall v c ax',
     type ax = category ->
     v <> Null -> v <> Undefined ->
     ~ registered ax v -> inherited (ToString v) = true ->
     d2c ax v a2 cal = Ok (c, ax') ->
     c = Member (ToString v) /\ c2d ax' c a2 cal = Undefined) /\
  (forall i,
     type ax = category \/ type ax = multicategory ->
     i < length (_categories ax) ->
     d2r ax (c2d ax (Num (Num.of_nat i)) a2 cal) a2 cal
     = Num (Num.of_nat i)).
Proof.
  split; [|split].
  - intros v c ax' Hty Hn Hu Hcan Hrun.
    assert (Hv : isValidCategory v = true) by by apply isValidCategory_true.
    unfold d2c in Hrun. rewrite Hty in Hrun.
    injection Hrun as Hrun.
    assert (Hc : c = fst (setCategoryIndex ax v)) by by rewrite Hrun.
    assert (Hax : ax' = snd (setCategoryIndex ax v)) by by rewrite Hrun.
    clear Hrun.
    assert (Hty' : type ax' = category)
      by (by rewrite Hax, type_setCategoryIndex).
    unfold c2d. rewrite Hty'.
    destruct (registered_dec ax v) as [[i Hi] | Hnr].
    + rewrite (setCategoryIndex_hit ax v i Hv Hi) in Hc, Hax.
      cbn [fst snd] in Hc, Hax. subst c ax'. split.
      * by destruct (getCategoryName_index ax v i Hok Hi)
          as (u & _ & Hk & ->).
      * intros Hnr. exfalso. apply Hnr. by exists i.
    + destruct Hcan as [Hreg | Hp]; [done|].
      rewrite (setCategoryIndex_miss ax v Hv Hnr Hp) in Hc, Hax.
      cbn [fst snd] in Hc, Hax. rewrite Hc, Hax.
      rewrite getCategoryName_of_nat. cbn [set_categories _categories].
      unfold item. rewrite app_nth2 by lia. rewrite Nat.sub_diag.
      split; [done|]. done.
  - intros v c ax' Hty Hn Hu Hnr Hp Hrun.
    assert (Hv : isValidCategory v = true) by by apply isValidCategory_true.
    unfold d2c in Hrun. rewrite Hty in Hrun.
    rewrite (setCategoryIndex_inherited ax v Hv Hnr Hp) in Hrun.
    injection Hrun as <- <-. split; [done|].
    unfold c2d. cbn [set_categories type]. rewrite Hty.
    apply getCategoryName_Member.
  - intros i Hty Hi.
    assert (Hc2d : c2d ax (Num (Num.of_nat i)) a2 cal
                   = item (_categories ax) i).
    { unfold c2d. destruct Hty as [-> | ->]; apply getCategoryName_of_nat. }
    assert (Hd2r : forall v, d2r ax v a2 cal = getCategoryPosition ax v).
    { intros v. unfold d2r. by destruct Hty as [-> | ->]. }
    rewrite Hc2d, Hd2r.
    destruct (lookup_lt_is_Some_2 (_categories ax) i Hi) as [u Hu].
    assert (Hitem : item (_categories ax) i = u)
      by (unfold item; by apply nth_lookup_Some).
    rewrite Hitem.
    assert (Hidx : getCategoryIndex ax u = Num (Num.of_nat i)).
    { apply getCategoryIndex_Some. apply Hok. unfold keys_of.
      by rewrite list_lookup_fmap, Hu. }
    rewrite getCategoryPosition_registered; [done|]. by exists i.
Qed.

(** *** [makeCalcdata] on an array *)

Lemma convert_items_category (l : list value) (cal : value) (n : nat) :
  forall (i : nat) (ax : axis),
    type ax = category -> registry_ok ax ->
    exists cs ax',
      convert_items ax (Arr l) cal i n = Ok (cs, ax') /\
      length cs = n /\ type ax' = category /\ registry_ok ax' /\
      (is_Some (_categoriesMap ax) -> is_Some (_categoriesMap ax')) /\
      (forall u,
         registered ax u \/
           (is_Some (_categoriesMap ax) /\ inherited (ToString u) = true) ->
         getCategoryIndex ax' u = getCategoryIndex ax u) /\
      (forall u, inherited (ToString u) = true ->
         registered ax' u -> registered ax u) /\
      (forall k, k < n ->
         if isValidCategory (item l (i + k)) then
           item cs k = getCategoryIndex ax' (item l (i + k)) /\
           is_Some (_categoriesMap ax') /\
           (inherited (ToString (item l (i + k))) = false ->
            registered ax' (item l (i + k)))
         else item cs k = BADNUM).
Proof.
  induction n as [|n IH]; intros i ax Hty Hok.
  - exists [], ax. split; [done|]. split; [done|]. split; [done|].
    split; [done|]. split; [done|]. split; [done|]. split; [done|].
    intros k Hk. lia.
  - cbn [convert_items get]. cbn [mbind exn_bind].
    unfold d2c at 1. rewrite Hty.
    set (x := item l i).
    destruct (setCategoryIndex ax x) as [c ax1] eqn:Hset.
    assert (Hc : c = fst (setCategoryIndex ax x)) by by rewrite Hset.
    assert (Hax1 : ax1 = snd (setCategoryIndex ax x)) by by rewrite Hset.
    assert (Hty1 : type ax1 = category)
      by by rewrite Hax1, type_setCategoryIndex.
    assert (Hok1 : registry_ok ax1).
    { destruct (isValidCategory x) eqn:Hv.
      - rewrite Hax1. by apply setCategoryIndex_ok.
      - rewrite Hax1, setCategoryIndex_invalid by done. done. }
    assert (Hdict1 : is_Some (_categoriesMap ax) ->
                     is_Some (_categoriesMap ax1))
      by (rewrite Hax1; apply setCategoryIndex_dictionary_stays).
    destruct (IH (S i) ax1 Hty1 Hok1)
      as (cs & ax' & Hrun & Hlen & Hty' & Hok' & Hdict & Hkeep & Hno
          & Hitems).
    cbn [mbind exn_bind]. rewrite Hrun. cbn [mbind exn_bind mret exn_ret].
    exists (c :: cs), ax'.
    split; [done|]. split; [simpl; by rewrite Hlen|].
    split; [done|]. split; [done|]. split; [by auto|].
    split; [|split].
    + intros u Hu.
      assert (Hu1 : getCategoryIndex ax1 u = getCategoryIndex ax u)
        by (rewrite Hax1; by apply setCategoryIndex_keeps).
      rewrite <- Hu1. apply Hkeep.
      destruct Hu as [[j Hj] | [Hm Hp]].
      * left. exists j. by rewrite Hu1.
      * right. split; [by auto|done].
    + intros u Hp Hreg. apply Hno in Hreg; [|done].
      rewrite Hax1 in Hreg. by eapply setCategoryIndex_inherited_stays.
    + intros [|k] Hk.
      * rewrite Nat.add_0_r. fold x.
        destruct (isValidCategory x) eqn:Hv.
        -- destruct (setCategoryIndex_index ax x Hv) as [Hidx Hreg].
           rewrite <- Hax1 in Hreg, Hidx. rewrite <- Hc in Hidx.
           assert (Hm1 : is_Some (_categoriesMap ax1))
             by (rewrite Hax1; by apply setCategoryIndex_dictionary).
           assert (Hkeep1 : getCategoryIndex ax' x = getCategoryIndex ax1 x).
           { apply Hkeep.
             destruct (inherited (ToString x)) eqn:Hp; [by right|].
             left. by apply Hreg. }
           cbn [item nth]. split; [by rewrite Hkeep1|].
           split; [by auto|].
           intros Hp. destruct (Hreg Hp) as [j Hj].
           exists j. by rewrite Hkeep1.
        -- cbn [item nth]. rewrite Hc, setCategoryIndex_invalid by done. done.
      * replace (i + S k) with (S i + k) by lia.
        apply (Hitems k). lia.
Qed.

(** X5. [makeCalcdata] on a category axis whose dictionary and array agree,
    for a trace that has an array for the axis letter: it returns, and the
    result has the length sought; a null or undefined entry is given
    BADNUM, and every other entry what the lookup of it gives on the axis
    returned.  An entry whose key is not the name of a member of
    [Object.prototype] is registered afterwards and given its index,
    under which the axis holds a label with its key.  An entry whose key
    is such a name, unless a label of that key was registered, is given
    the inherited member and is not registered.  The labels registered
    before keep their indices, and the dictionary and the array still
    agree. *)
Theorem makeCalcdata_category (ax : axis) (tr : trace) (letter : string)
    (l : list value)
    (Hty : type ax = category) (Hok : registry_ok ax)
    (Hin : props tr !! letter = Some (Arr l)) :
  exists cs ax',
    makeCalcdata ax tr letter = Ok (Arr cs, ax') /\
    length cs = calcdata_length tr (Arr l) /\
    registry_ok ax' /\
    (forall u, registered ax u ->
       getCategoryIndex ax' u = getCategoryIndex ax u) /\
    (forall i, i < length cs ->
       (item l i = Null \/ item l i = Undefined -> item cs i = BADNUM) /\
       (item l i <> Null -> item l i <> Undefined ->
          item cs i = getCategoryIndex ax' (item l i) /\
          (inherited (ToString (item l i)) = false ->
             registered ax' (item l i) /\
             ToString (c2d ax' (item cs i) Undefined Undefined)
             = ToString (item l i)) /\
          (inherited (ToString (item l i)) = true ->
           ~ registered ax (item l i) ->
             item cs i = Member (ToString (item l i)) /\
             ~ registered ax' (item l i)))).
Proof.
  destruct (convert_items_category l Undefined (calcdata_length tr (Arr l))
              0 ax Hty Hok)
    as (cs & ax' & Hrun & Hlen & Hty' & Hok' & Hdict & Hkeep & Hno & Hitems).
  exists cs, ax'. unfold makeCalcdata. rewrite Hin, Hty.
  fold (calcdata_length tr (Arr l)). rewrite Hrun.
  split; [done|]. split; [done|]. split; [done|].
  split; [intros u Hu; apply Hkeep; by left|].
  intros i Hi. rewrite Hlen in Hi. specialize (Hitems i Hi). simpl in Hitems.
  split.
  - intros Hbad. apply isValidCategory_false in Hbad.
    by rewrite Hbad in Hitems.
  - intros Hn Hu.
    assert (Hv : isValidCategory (item l i) = true)
      by by apply isValidCategory_true.
    rewrite Hv in Hitems. destruct Hitems as (Hidx & Hm & Hreg).
    split; [done|]. split.
    + intros Hp. split; [by apply Hreg|].
      destruct (Hreg Hp) as [j Hj].
      destruct (getCategoryName_index ax' _ j Hok' Hj) as (u & _ & Hk & Hname).
      unfold c2d. by rewrite Hty', Hidx, Hj, Hname.
    + intros Hp Hnr.
      assert (Hnr' : ~ registered ax' (item l i)).
      { intros Hreg'. apply Hnr. by apply Hno. }
      split; [|done]. rewrite Hidx.
      rewrite (getCategoryIndex_unregistered ax' _ Hnr'), Hp.
      by rewrite bool_decide_eq_true_2.
Qed.

Lemma convert_items_numbers (l : list value) (cal : value) (ax : axis)
    (n : nat) :
  type ax = linear \/ type ax = log ->
  forall i,
    convert_items ax (Arr l) cal i n
    = Ok (map (fun k => cleanNumber (item l k)) (seq i n), ax).
Proof.
  intros Hty. induction n as [|n IH]; intros i; [done|].
  cbn [convert_items get]. cbn [mbind exn_bind].
  unfold d2c at 1.
  assert (Hd : match type ax with
               | linear | log => Ok (cleanNumber (item l i), ax)
               | date => Ok (dt2ms ax (item l i) (Num (Fin 0)) cal, ax)
               | category => Ok (setCategoryIndex ax (item l i))
               | multicategory => Throw TypeError
               end = Ok (cleanNumber (item l i), ax))
    by (by destruct Hty as [-> | ->]).
  rewrite Hd. cbn [mbind exn_bind]. rewrite IH. done.
Qed.

(** X6. [makeCalcdata] on a linear or log axis never changes the axis and
    keeps positions: for an array it returns the [cleanNumber] of each of
    the first entries, as many as the length sought, BADNUM standing for an
    entry that is no number or that lies beyond the end of the array; a
    typed array is returned as it is, cut to that length. *)
Theorem makeCalcdata_numbers (ax : axis) (tr : trace) (letter : string)
    (Hty : type ax = linear \/ type ax = log) :
  (forall l,
     props tr !! letter = Some (Arr l) ->
     makeCalcdata ax tr letter
     = Ok (Arr (map (fun i => cleanNumber (item l i))
                  (seq 0 (calcdata_length tr (Arr l)))), ax)) /\
  (forall a,
     props tr !! letter = Some (TypedArr a) ->
     makeCalcdata ax tr letter
     = Ok (TypedArr (take (calcdata_length tr (TypedArr a)) a), ax)).
Proof.
  split.
  - intros l Hin. unfold makeCalcdata. rewrite Hin.
    fold (calcdata_length tr (Arr l)).
    assert (Hrun := convert_items_numbers l Undefined ax
                      (calcdata_length tr (Arr l)) Hty 0).
    destruct Hty as [Hty | Hty]; rewrite Hty in *; by rewrite Hrun.
  - intros a Hin. unfold makeCalcdata. rewrite Hin.
    fold (calcdata_length tr (TypedArr a)).
    destruct Hty as [Hty | Hty]; rewrite Hty;
      (destruct (calcdata_length tr (TypedArr a) =? length a) eqn:Hl;
       [apply Nat.eqb_eq in Hl; by rewrite Hl, firstn_all | done]).
Qed.

(** *** [cleanRange]: a couplet of distinct numbers *)

Lemma numeric_is_number_Num (n : num) : numeric_is_number (Num n).
Proof. intros H. destruct n; try done; eauto. Qed.

Lemma numeric_is_number_cases (v : value) :
  numeric_is_number v ->
  isNumeric v = false \/ exists q, v = Num (Fin q).
Proof. intros H. destruct (isNumeric v) eqn:Hn; [right; by apply H | by left]. Qed.

(** The second turn of the loop, with a number at the first end: two
    distinct numbers come out. *)
Lemma cleanRange_numeric_second_Fin (x y : Q) :
  exists x' y',
    cleanRange_numeric 1 [Num (Fin x); Num (Fin y)]
    = Continue [Num (Fin x'); Num (Fin y')] /\ ~ (x' == y')%Q.
Proof.
  unfold cleanRange_numeric.
  cbn [item nth isNumeric Num.isFinite negb ToNumber Nat.sub].
  assert (Hcl : exists y1,
            (if Num.lt (Fin y) (Fin (- FP_SAFE))
             then <[1:=Num (Fin (- FP_SAFE))]> [Num (Fin x); Num (Fin y)]
             else if Num.gt (Fin y) (Fin FP_SAFE)
                  then <[1:=Num (Fin FP_SAFE)]> [Num (Fin x); Num (Fin y)]
                  else [Num (Fin x); Num (Fin y)])
            = [Num (Fin x); Num (Fin y1)]).
  { destruct (Num.lt _ _); [by eexists|]. destruct (Num.gt _ _); by eexists. }
  destruct Hcl as [y1 ->]. cbn [item nth strict_eq Num.eqb].
  destruct (Qeq_bool x y1) eqn:Heq.
  - apply Qeq_bool_iff in Heq. cbn [ToNumber]. rewrite split_increment.
    set (inc := Qmax 1 (Qabs x * (1 # 1000000))).
    assert (Hinc : (1 <= inc)%Q) by apply Q.le_max_l.
    cbn [insert list_insert item nth js_add ToNumber Num.sub Num.add Num.opp].
    do 2 eexists. split; [reflexivity|].
    rewrite !Qred_correct. lra.
  - apply Qeq_bool_neq in Heq. by do 2 eexists.
Qed.

Lemma cleanRange_numeric_second (x : Q) (b : value) :
  numeric_is_number b ->
  exists x' y',
    cleanRange_numeric 1 [Num (Fin x); b]
    = Continue [Num (Fin x'); Num (Fin y')] /\ ~ (x' == y')%Q.
Proof.
  intros [Hb | [y ->]]%numeric_is_number_cases.
  - assert (Heq : cleanRange_numeric 1 [Num (Fin x); b]
                  = cleanRange_numeric 1
                      [Num (Fin x); Num (Fin (Qred (x * 10)))]).
    { unfold cleanRange_numeric.
      cbn [item nth Nat.sub Nat.eqb isNumeric Num.isFinite negb ToNumber
           Num.mul insert list_insert].
      by rewrite Hb. }
    rewrite Heq. apply cleanRange_numeric_second_Fin.
  - apply cleanRange_numeric_second_Fin.
Qed.

(** The first turn of the loop, with a number at the first end. *)
Lemma cleanRange_numeric_first_Fin (x : Q) (b : value) :
  numeric_is_number b ->
  exists x' b',
    cleanRange_numeric 0 [Num (Fin x); b] = Continue [Num (Fin x'); b'] /\
    numeric_is_number b'.
Proof.
  intros Hb. unfold cleanRange_numeric.
  cbn [item nth isNumeric Num.isFinite negb ToNumber Nat.sub].
  assert (Hcl : exists x1,
            (if Num.lt (Fin x) (Fin (- FP_SAFE))
             then <[0:=Num (Fin (- FP_SAFE))]> [Num (Fin x); b]
             else if Num.gt (Fin x) (Fin FP_SAFE)
                  then <[0:=Num (Fin FP_SAFE)]> [Num (Fin x); b]
                  else [Num (Fin x); b])
            = [Num (Fin x1); b]).
  { destruct (Num.lt _ _); [by eexists|]. destruct (Num.gt _ _); by eexists. }
  destruct Hcl as [x1 ->]. cbn [item nth].
  destruct (strict_eq (Num (Fin x1)) b) eqn:Heq.
  - cbn [ToNumber]. rewrite split_increment.
    cbn [insert list_insert item nth Num.sub Num.add Num.opp].
    destruct b as [| |n|s|a|a|k]; try done.
    cbn [js_add ToNumber]. do 2 eexists. split; [reflexivity|].
    apply numeric_is_number_Num.
  - by do 2 eexists.
Qed.

Lemma cleanRange_numeric_first (a b : value) :
  numeric_is_number a -> numeric_is_number b ->
  (isNumeric a = false /\ isNumeric b = false /\
   cleanRange_numeric 0 [a; b] = Default) \/
  ((isNumeric a = true \/ isNumeric b = true) /\
   exists x' b',
     cleanRange_numeric 0 [a; b] = Continue [Num (Fin x'); b'] /\
     numeric_is_number b').
Proof.
  intros [Ha | [x ->]]%numeric_is_number_cases Hb.
  - destruct (numeric_is_number_cases b Hb) as [Hnb | [y ->]].
    + left. split; [done|]. split; [done|].
      unfold cleanRange_numeric. cbn [item nth Nat.sub].
      by rewrite Ha, Hnb.
    + right. split; [by right|].
      assert (Heq : cleanRange_numeric 0 [a; Num (Fin y)]
                    = cleanRange_numeric 0
                        [Num (Fin (Qred (y * (1 # 10)))); Num (Fin y)]).
      { unfold cleanRange_numeric.
        cbn [item nth Nat.sub Nat.eqb isNumeric Num.isFinite negb ToNumber
             Num.mul insert list_insert].
        by rewrite Ha. }
      rewrite Heq. apply cleanRange_numeric_first_Fin.
      apply numeric_is_number_Num.
  - right. split; [by left|]. by apply cleanRange_numeric_first_Fin.
Qed.

(** [cleanRange] on an axis that is not a date axis, over a couplet. *)
Lemma cleanRange_not_date (ax : axis) (attr : rangeAttr)
    (dflt : option (list value)) (r : list value) :
  type ax <> date ->
  get_range ax attr = Some r ->
  length r = 2 ->
  cleanRange ax attr dflt =
  match cleanRange_numeric 0 r with
  | Default => set_range ax attr (default_range ax dflt)
  | Break r1 => set_range ax attr r1
  | Continue r1 =>
      match cleanRange_numeric 1 r1 with
      | Default => set_range ax attr (default_range ax dflt)
      | Break r2 | Continue r2 => set_range ax attr r2
      end
  end.
Proof.
  intros Hty Hr Hlen. unfold cleanRange, cleanRange_step, default_range.
  rewrite Hr, Hlen. cbn [Nat.eqb negb].
  destruct (type ax) eqn:Ht; try done;
    destruct (cleanRange_numeric 0 r); try done;
    by rewrite type_set_range, Ht.
Qed.

(** The range after [cleanRange], for two ends neither of which is a
    string that reads as a number. *)
Lemma cleanRange_numbers (ax : axis) (attr : rangeAttr)
    (dflt : option (list value)) (a b : value) :
  type ax <> date ->
  get_range ax attr = Some [a; b] ->
  numeric_is_number a -> numeric_is_number b ->
  (isNumeric a = false /\ isNumeric b = false /\
   cleanRange ax attr dflt = set_range ax attr (default_range ax dflt)) \/
  ((isNumeric a = true \/ isNumeric b = true) /\
   exists x y,
     cleanRange ax attr dflt
     = set_range ax attr [Num (Fin x); Num (Fin y)] /\ ~ (x == y)%Q).
Proof.
  intros Hty Hr Ha Hb.
  rewrite (cleanRange_not_date ax attr dflt [a; b]) by done.
  destruct (cleanRange_numeric_first a b Ha Hb)
    as [(Hna & Hnb & ->) | (Hnum & x' & b' & -> & Hb')].
  - by left.
  - right. split; [done|].
    destruct (cleanRange_numeric_second x' b' Hb') as (x & y & -> & Hne).
    by exists x, y.
Qed.

(** X7. [cleanRange] makes the range a couplet of distinct numbers: on an
    axis that is not a date axis, for a range of two ends neither of which
    is a string that reads as a number, the range is afterwards two finite
    numbers that differ as soon as one of the ends was a finite number,
    and the default range when neither was. *)
Theorem cleanRange_distinct_numbers (ax : axis) (attr : rangeAttr)
    (dflt : option (list value)) (a b : value)
    (Hty : type ax <> date)
    (Hr : get_range ax attr = Some [a; b])
    (Ha : numeric_is_number a) (Hb : numeric_is_number b) :
  (isNumeric a = true \/ isNumeric b = true ->
   exists x y,
     get_range (cleanRange ax attr dflt) attr
     = Some [Num (Fin x); Num (Fin y)] /\ ~ (x == y)%Q) /\
  (isNumeric a = false -> isNumeric b = false ->
   get_range (cleanRange ax attr dflt) attr = Some (default_range ax dflt)).
Proof.
  destruct (cleanRange_numbers ax attr dflt a b Hty Hr Ha Hb)
    as [(Hna & Hnb & ->) | (Hnum & x & y & -> & Hne)].
  - split.
    + intros [H | H]; congruence.
    + intros _ _. apply get_set_range.
  - split.
    + intros _. exists x, y. split; [apply get_set_range | done].
    + intros Hna Hnb. destruct Hnum; congruence.
Qed.

(** *** [cleanRange]: always a couplet *)

(** [cleanRange] sets the attribute and nothing else. *)
Lemma cleanRange_set_range (ax : axis) (attr : rangeAttr)
    (dflt : option (list value)) :
  exists r, cleanRange ax attr dflt = set_range ax attr r.
Proof.
  unfold cleanRange.
  destruct (get_range ax attr) as [r|]; [|by eexists].
  destruct (negb _); [by eexists|].
  destruct (cleanRange_step ax 0 _) as [r1|r1|]; try by eexists.
  destruct (cleanRange_step _ 1 r1) as [r2|r2|]; by eexists.
Qed.


Lemma cleanRange_numeric_length (i : nat) (r r' : list value) :
  cleanRange_numeric i r = Continue r' \/ cleanRange_numeric i r = Break r' ->
  length r' = length r.
Proof.
  unfold cleanRange_numeric.
  destruct (negb (isNumeric (item r i))).
  - destruct (isNumeric (item r (1 - i))); [|intros [?|?]; done].
    set (r1 := <[i:=_]> r).
    assert (H1 : length r1 = length r) by apply length_insert.
    clearbody r1.
    set (r2 := if Num.lt _ _ then _ else _).
    assert (H2 : length r2 = length r).
    { unfold r2. destruct (Num.lt _ _); [by rewrite length_insert|].
      destruct (Num.gt _ _); [by rewrite length_insert|done]. }
    clearbody r2.
    destruct (strict_eq _ _); intros [[= <-] | ?]; try done.
    by rewrite !length_insert.
  - set (r2 := if Num.lt _ _ then _ else _).
    assert (H2 : length r2 = length r).
    { unfold r2. destruct (Num.lt _ _); [by rewrite length_insert|].
      destruct (Num.gt _ _); [by rewrite length_insert|done]. }
    clearbody r2.
    destruct (strict_eq _ _); intros [[= <-] | ?]; try done.
    by rewrite !length_insert.
Qed.

Lemma cleanRange_date_length (ax : axis) (i : nat) (r r' : list value) :
  cleanRange_date ax i r = Continue r' \/ cleanRange_date ax i r = Break r' ->
  length r' = length r.
Proof.
  unfold cleanRange_date.
  destruct (negb _); [intros [?|?]; done|].
  destruct (strict_eq _ _); intros [[= <-] | [= <-]]; try done.
  by rewrite !length_insert.
Qed.

Lemma cleanRange_step_length (ax : axis) (i : nat) (r r' : list value) :
  cleanRange_step ax i r = Continue r' \/ cleanRange_step ax i r = Break r' ->
  length r' = length r.
Proof.
  unfold cleanRange_step.
  destruct (type ax);
    eauto using cleanRange_numeric_length, cleanRange_date_length.
Qed.

(** X8. [cleanRange] always leaves a couplet, provided the default ranges
    are couplets: whatever the attribute held, it holds an array of two
    entries afterwards, and this is the default range when the attribute
    was absent or not of length 2.  The type of the axis and the other of
    the two attributes are not touched. *)
Theorem cleanRange_couplet (ax : axis) (attr : rangeAttr)
    (dflt : option (list value))
    (Hdflt : length (default_range ax dflt) = 2) :
  (exists r,
     get_range (cleanRange ax attr dflt) attr = Some r /\ length r = 2) /\
  (get_range ax attr = None \/
   (exists r, get_range ax attr = Some r /\ length r <> 2) ->
   get_range (cleanRange ax attr dflt) attr = Some (default_range ax dflt)) /\
  type (cleanRange ax attr dflt) = type ax /\
  (forall attr', attr' <> attr ->
     get_range (cleanRange ax attr dflt) attr' = get_range ax attr').
Proof.
  assert (Hother : forall r attr', attr' <> attr ->
            get_range (set_range ax attr r) attr' = get_range ax attr').
  { intros r attr' Hne. by destruct attr, attr'. }
  unfold cleanRange. fold (default_range ax dflt).
  destruct (get_range ax attr) as [r|] eqn:Hr.
  2: { split; [eexists; split; [apply get_set_range|done]|].
       split; [intros _; apply get_set_range|].
       split; [apply type_set_range|]. intros; by apply Hother. }
  destruct (length r =? 2) eqn:Hlen; cbn [negb].
  2: { split; [eexists; split; [apply get_set_range|done]|].
       split; [intros _; apply get_set_range|].
       split; [apply type_set_range|]. intros; by apply Hother. }
  apply Nat.eqb_eq in Hlen.
  set (r0 := match type ax with date => _ | _ => r end).
  assert (Hr0 : length r0 = 2).
  { unfold r0. destruct (type ax); try done. by rewrite !length_insert. }
  clearbody r0.
  assert (Hbad : Some r = None \/
                 (exists r', Some r = Some r' /\ length r' <> 2) -> False).
  { intros [? | (r' & [= <-] & ?)]; done. }
  destruct (cleanRange_step ax 0 r0) as [r1|r1|] eqn:H0.
  - assert (Hr1 : length r1 = 2)
      by (rewrite <- Hr0; eapply cleanRange_step_length; eauto).
    destruct (cleanRange_step (set_range ax attr r1) 1 r1) as [r2|r2|] eqn:H1.
    + assert (Hr2 : length r2 = 2)
        by (rewrite <- Hr1; eapply cleanRange_step_length; eauto).
      split; [eexists; split; [apply get_set_range|done]|].
      split; [intros H; by destruct Hbad|].
      split; [apply type_set_range|]. intros; by apply Hother.
    + assert (Hr2 : length r2 = 2)
        by (rewrite <- Hr1; eapply cleanRange_step_length; eauto).
      split; [eexists; split; [apply get_set_range|done]|].
      split; [intros H; by destruct Hbad|].
      split; [apply type_set_range|]. intros; by apply Hother.
    + split; [eexists; split; [apply get_set_range|done]|].
      split; [intros _; apply get_set_range|].
      split; [apply type_set_range|]. intros; by apply Hother.
  - assert (Hr1 : length r1 = 2)
      by (rewrite <- Hr0; eapply cleanRange_step_length; eauto).
    split; [eexists; split; [apply get_set_range|done]|].
    split; [intros H; by destruct Hbad|].
    split; [apply type_set_range|]. intros; by apply Hother.
  - split; [eexists; split; [apply get_set_range|done]|].
    split; [intros _; apply get_set_range|].
    split; [apply type_set_range|]. intros; by apply Hother.
Qed.

(** *** [setScale] on a numeric axis *)

Lemma cleanNumber_Fin (q : Q) : cleanNumber (Num (Fin q)) = Num (Fin q).
Proof. reflexivity. Qed.

(** X10. On a vertical axis the scale is upside down: after a [setScale]
    that returns on an axis of letter [y], the two ends of the range are
    linearized to two distinct finite numbers, the length is not negative,
    the slope is finite, not positive when the range increases and not
    negative when it decreases, and [l2p] sends the linearized second end
    of the range to pixel 0. *)
Theorem setScale_y_endpoints (L : layout) (ax ax' : axis)
    (usePrivateRange : bool)
    (Hy : axLetter ax = "y")
    (Hrun : setScale L ax usePrivateRange = Ok ax') :
  exists r q0 q1 lq mq,
    get_range ax' (scale_attr ax usePrivateRange) = Some r /\
    r2l ax' (item r 0) Undefined Undefined = Num (Fin q0) /\
    r2l ax' (item r 1) Undefined Undefined = Num (Fin q1) /\
    ~ (q0 == q1)%Q /\
    _length ax' = Fin lq /\ (0 <= lq)%Q /\
    _m ax' = Fin mq /\
    ((q0 < q1)%Q -> (mq <= 0)%Q) /\ ((q1 < q0)%Q -> (0 <= mq)%Q) /\
    l2p ax' (Num (Fin q1)) = Num (Fin 0).
Proof.
  apply setScale_Ok in Hrun as [Hd (Hm & Hb & Hlen)].
  unfold derive_scale in Hd.
  rewrite Hy in Hd. change (String.eqb "y" "y") with true in Hd.
  set (attr := scale_attr ax usePrivateRange) in *.
  destruct (match overlaying ax with Some _ => _ | None => _ end)
    as [dom|] eqn:Hdom; simpl in Hd; [|done].
  destruct (get_range (cleanRange ax attr None) attr) as [r|] eqn:Hr;
    [|done].
  injection Hd as <-.
  set (ax1 := cleanRange ax attr None) in *.
  set (v0 := r2l ax1 (item r 0) (calendar ax) Undefined) in *.
  set (v1 := r2l ax1 (item r 1) (calendar ax) Undefined) in *.
  simpl in Hm, Hb, Hlen.
  destruct (linearized_shape_ToNumber v0 (r2l_shape _ _ _ _))
    as (H0p & H0n & H0).
  destruct (linearized_shape_ToNumber v1 (r2l_shape _ _ _ _))
    as (H1p & H1n & H1).
  destruct (scale_endpoints _ _ _ H1p H1n H0p H0n Hm Hb)
    as (q1 & q0 & lq & Hq1 & Hq0 & Hlq & Hne & Hz & Hl).
  rewrite Hlq in Hlen. apply lt_Fin_false in Hlen.
  assert (Hd : ~ (Qred (q0 + Qred (- q1)) == 0)%Q).
  { rewrite !Qred_correct. intros H. apply Hne. lra. }
  exists r, q0, q1, lq, (Qred (lq / Qred (q0 + Qred (- q1)))).
  split; [by destruct attr|].
  rewrite !r2l_set_scale.
  rewrite (r2l_second_argument ax1 (item r 0) Undefined (calendar ax)).
  rewrite (r2l_second_argument ax1 (item r 1) Undefined (calendar ax)).
  fold v0 v1.
  split; [by apply H0|]. split; [by apply H1|].
  split; [done|]. split; [done|]. split; [done|].
  assert (Hslope : _m (set_scale ax1 dom
            (Num.mul (gs_h (_size L)) (Num.sub (Fin 1) (snd dom)))
            (Num.mul (gs_h (_size L)) (Num.sub (snd dom) (fst dom)))
            (Num.div (Num.mul (gs_h (_size L)) (Num.sub (snd dom) (fst dom)))
               (Num.sub (ToNumber v0) (ToNumber v1)))
            (Num.mul (Num.opp (Num.div
               (Num.mul (gs_h (_size L)) (Num.sub (snd dom) (fst dom)))
               (Num.sub (ToNumber v0) (ToNumber v1)))) (ToNumber v1)))
          = Fin (Qred (lq / Qred (q0 + Qred (- q1))))).
  { cbn [set_scale _m]. rewrite Hlq, Hq0, Hq1.
    cbn [Num.sub Num.add Num.opp]. by apply div_Fin. }
  split; [exact Hslope|].
  set (mq := Qred (lq / Qred (q0 + Qred (- q1)))).
  assert (Hprod : (mq * (q0 - q1) == lq)%Q).
  { unfold mq. rewrite !Qred_correct. field. intros H. apply Hne. lra. }
  split; [|split].
  - intros Hlt. nra.
  - intros Hlt. nra.
  - unfold l2p. cbn [isNumeric Num.isFinite negb ToNumber set_scale _b _m].
    rewrite Hq0, Hq1 in Hz |- *. by rewrite Hz.
Qed.

Lemma ensureNumber_Fin (q : Q) :
  (- FP_SAFE <= q)%Q -> (q <= FP_SAFE)%Q ->
  ensureNumber (Num (Fin q)) = Num (Fin q).
Proof.
  intros Hlo Hhi. unfold ensureNumber.
  cbn [isNumeric Num.isFinite negb ToNumber].
  destruct (within_FP_SAFE q Hlo Hhi) as [-> ->]. done.
Qed.

(** *** Points within the range *)

(** Comparisons with an end of the range, which is a number or undefined,
    are comparisons of numbers; those of a coordinate with an end that is
    an inherited member are false. *)
Lemma js_lt_number (a b : value) :
  number_or_undefined a -> js_lt a b = Num.lt (ToNumber a) (ToNumber b).
Proof. intros [-> | (n & -> & _)]; by destruct b. Qed.

Lemma js_le_number_l (a b : value) :
  number_or_undefined a -> js_le a b = Num.le (ToNumber a) (ToNumber b).
Proof. intros [-> | (n & -> & _)]; by destruct b. Qed.

Lemma js_le_number_r (a b : value) :
  number_or_undefined b -> js_le a b = Num.le (ToNumber a) (ToNumber b).
Proof. intros [-> | (n & -> & _)]; by destruct a. Qed.

Lemma c2l_shape (ax : axis) (v a2 cal : value) :
  c2l ax v a2 cal = Undefined \/ exists n, c2l ax v a2 cal = Num n.
Proof.
  unfold c2l, ensureNumber, toLog, BADNUM.
  destruct (type ax);
    repeat match goal with
           | |- context [if ?c then _ else _] => destruct c
           | |- context [match ?c with Some _ => _ | None => _ end] =>
               destruct c
           end; eauto.
Qed.

Lemma js_le_Member (c : value) (k : string) :
  c = Undefined \/ (exists n, c = Num n) ->
  js_le (Member k) c = false /\ js_le c (Member k) = false.
Proof. intros [-> | [n ->]]; split; by destruct n || done. Qed.

Lemma between_Member (r0 r1 c : value) :
  c = Undefined \/ (exists n, c = Num n) ->
  (exists k, r0 = Member k) \/ (exists k, r1 = Member k) ->
  (if js_lt r0 r1 then js_le r0 c && js_le c r1
   else js_le r1 c && js_le c r0) = false.
Proof.
  intros Hc [[k ->] | [k ->]];
    destruct (js_le_Member c k Hc) as [H1 H2]; rewrite H1, H2;
    destruct (js_lt _ _); by rewrite ?andb_false_r.
Qed.

Lemma le_NaN_l (n : num) : Num.le NaN n = false.
Proof. by destruct n. Qed.

Lemma le_NaN_r (n : num) : Num.le n NaN = false.
Proof. by destruct n. Qed.

(** Between two numbers, whichever is the smaller. *)
Lemma between_sym (a b c : num) :
  (if Num.lt a b then Num.le a c && Num.le c b
   else Num.le b c && Num.le c a)
  = (if Num.lt b a then Num.le b c && Num.le c a
     else Num.le a c && Num.le c b).
Proof.
  destruct (Num.lt a b) eqn:Hab, (Num.lt b a) eqn:Hba; try done.
  - destruct a as [x| | |], b as [y| | |]; try done.
    apply lt_Fin in Hab, Hba. lra.
  - destruct a as [x| | |], b as [y| | |]; try done;
      rewrite ?le_NaN_l, ?le_NaN_r, ?andb_false_r; try done.
    apply lt_Fin_false in Hab, Hba.
    assert (Hxy : (x == y)%Q) by lra.
    destruct c as [z| | |]; try done.
    apply eq_true_iff_eq. rewrite !andb_true_iff, !le_Fin. rewrite Hxy. tauto.
Qed.

Lemma toLog_unclipped_range (ax : axis) (r : list value) (v : value) :
  toLog (set_range ax attr_range r) v false
  = if Num.gt (ToNumber v) (Fin 0)
    then Num (Num.div (Math_log (ToNumber v)) Math_LN10) else BADNUM.
Proof.
  unfold toLog. destruct (Num.gt _ _); [done|]. cbn [set_range range].
  by rewrite andb_false_r.
Qed.

Lemma c2l_Null_range (ax : axis) (r r' : list value) (v cal : value) :
  c2l (set_range ax attr_range r) v Null cal
  = c2l (set_range ax attr_range r') v Null cal.
Proof.
  unfold c2l. rewrite !type_set_range. cbn [truthy].
  destruct (type ax); try done. by rewrite !toLog_unclipped_range.
Qed.

Lemma r2l_set_range (ax : axis) (attr : rangeAttr) (r : list value)
    (v a2 cal : value) :
  r2l (set_range ax attr r) v a2 cal = r2l ax v a2 cal.
Proof. by destruct attr. Qed.

(** X12. [isPtWithinRange] does not depend on the direction of the axis: it
    gives the same answer for a range and for the range with its two ends
    exchanged, on every axis type and for every point. *)
Theorem isPtWithinRange_reversed (ax : axis) (a b : value)
    (d : gmap string value) (cal : value) :
  isPtWithinRange (set_range ax attr_range [a; b]) d cal
  = isPtWithinRange (set_range ax attr_range [b; a]) d cal.
Proof.
  unfold isPtWithinRange.
  assert (Hl : axLetter (set_range ax attr_range [a; b])
               = axLetter (set_range ax attr_range [b; a])) by done.
  rewrite Hl, (c2l_Null_range ax [a; b] [b; a]).
  set (c := c2l _ _ _ _).
  assert (Hc : c = Undefined \/ exists n, c = Num n) by apply c2l_shape.
  clearbody c.
  change (range (set_range ax attr_range [a; b])) with (Some [a; b]).
  change (range (set_range ax attr_range [b; a])) with (Some [b; a]).
  cbn [item nth]. rewrite !r2l_set_range.
  set (r0 := r2l ax a Undefined Undefined).
  set (r1 := r2l ax b Undefined Undefined).
  assert (H0 : linearized_shape r0) by apply r2l_shape.
  assert (H1 : linearized_shape r1) by apply r2l_shape.
  clearbody r0 r1. f_equal.
  destruct H0 as [H0 | H0].
  2: { rewrite (between_Member r0 r1 c Hc) by (by left).
       by rewrite (between_Member r1 r0 c Hc) by (by right). }
  destruct H1 as [H1 | H1].
  2: { rewrite (between_Member r0 r1 c Hc) by (by right).
       by rewrite (between_Member r1 r0 c Hc) by (by left). }
  rewrite !js_lt_number, !(js_le_number_l r0), !(js_le_number_l r1),
    !(js_le_number_r c r0), !(js_le_number_r c r1) by done.
  apply between_sym.
Qed.

(** X13. On a linear axis whose range is two finite numbers, in either
    order, a point whose coordinate is a finite number within the safe
    bound is within the range exactly when the coordinate lies between the
    two ends, the ends included. *)
Theorem isPtWithinRange_linear (ax : axis) (d : gmap string value)
    (cal : value) (a b c : Q)
    (Hty : type ax = linear)
    (Hr : range ax = Some [Num (Fin a); Num (Fin b)])
    (Hd : d !! axLetter ax = Some (Num (Fin c)))
    (Hlo : (- FP_SAFE <= c)%Q) (Hhi : (c <= FP_SAFE)%Q) :
  exists inside,
    isPtWithinRange ax d cal = Ok inside /\
    (inside = true <-> (Qmin a b <= c)%Q /\ (c <= Qmax a b)%Q).
Proof.
  unfold isPtWithinRange, c2l, r2l. rewrite Hr, Hd, Hty.
  cbn [default from_option id item nth].
  rewrite !cleanNumber_Fin, ensureNumber_Fin by done.
  cbn [js_lt js_le ToNumber].
  eexists. split; [reflexivity|].
  destruct (Num.lt (Fin a) (Fin b)) eqn:Hab.
  - apply lt_Fin in Hab. rewrite andb_true_iff, !le_Fin.
    rewrite Q.min_l, Q.max_r by lra. done.
  - apply lt_Fin_false in Hab. rewrite andb_true_iff, !le_Fin.
    rewrite Q.min_r, Q.max_l by lra. done.
Qed.

(** X14. A point without a position is never within the range: on an axis
    that has a range, [isPtWithinRange] answers false for a point that has
    no coordinate for the axis letter, on every axis type, and on a log
    axis for a coordinate that is not greater than zero, since the
    linearization is asked not to clip. *)
Theorem isPtWithinRange_no_position (ax : axis) (r : list value)
    (d : gmap string value) (cal : value)
    (Hr : range ax = Some r) :
  (d !! axLetter ax = None -> isPtWithinRange ax d cal = Ok false) /\
  (forall v, type ax = log -> d !! axLetter ax = Some v ->
     Num.gt (ToNumber v) (Fin 0) = false ->
     isPtWithinRange ax d cal = Ok false).
Proof.
  assert (Hbad : forall v,
            c2l ax v Null cal = BADNUM ->
            d !! axLetter ax = Some v \/
              (d !! axLetter ax = None /\ v = Undefined) ->
            isPtWithinRange ax d cal = Ok false).
  { intros v Hc Hd. unfold isPtWithinRange. rewrite Hr.
    assert (Hv : default Undefined (d !! axLetter ax) = v).
    { destruct Hd as [-> | [-> ->]]; done. }
    rewrite Hv, Hc. f_equal.
    set (r0 := r2l ax (item r 0) Undefined Undefined).
    set (r1 := r2l ax (item r 1) Undefined Undefined).
    assert (H0 : linearized_shape r0) by apply r2l_shape.
    assert (H1 : linearized_shape r1) by apply r2l_shape.
    assert (Hle : forall r', linearized_shape r' -> js_le r' BADNUM = false).
    { intros r' [Hr' | [k ->]]; [|done].
      rewrite js_le_number_l by done. cbn [BADNUM ToNumber].
      apply le_NaN_r. }
    rewrite !Hle by done.
    by destruct (js_lt r0 r1). }
  split.
  - intros Hd. apply (Hbad Undefined); [|by right].
    unfold c2l. destruct (type ax); try done.
    unfold toLog. cbn [ToNumber Num.gt Num.lt truthy].
    rewrite Hr. by rewrite andb_false_r.
  - intros v Hty Hd Hgt. apply (Hbad v); [|by left].
    unfold c2l. rewrite Hty. cbn [truthy].
    apply toLog_unclipped; [done | by left].
Qed.

(** *** Valid ranges *)

Lemma isNumeric_Num_ToNumber (v : value) :
  isNumeric v = true -> isNumeric (Num (ToNumber v)) = true.
Proof. intros [q ->]%isNumeric_Fin. done. Qed.

Lemma isNumeric_getCategoryPosition (ax : axis) (v : value) :
  isNumeric (getCategoryPosition ax v) = true <->
  registered ax v \/ isNumeric v = true.
Proof.
  destruct (registered_dec ax v) as [Hreg | Hnr].
  - rewrite (getCategoryPosition_registered ax v Hreg).
    destruct Hreg as [i Hi]. rewrite Hi.
    split; [left; by exists i|]. intros _. apply of_nat_isFinite.
  - destruct (isNumeric v) eqn:Hn.
    + rewrite (getCategoryPosition_unregistered ax v Hnr)
        by by apply isNumeric_plain.
      rewrite Hn, (isNumeric_Num_ToNumber v Hn). split; [by right|done].
    + assert (Hpos : isNumeric (getCategoryPosition ax v) = false).
      { unfold getCategoryPosition.
        rewrite (getCategoryIndex_unregistered ax v Hnr), Hn.
        by destruct (_ && _). }
      rewrite Hpos. split; [done|]. intros [? | ?]; done.
Qed.

(** X15. [isValidRange] accepts arrays of two entries only, never a typed
    array or another value.  On a category or multicategory axis the two
    entries may each be a registered label or a value that reads as a
    finite number, and nothing else; on a linear or log axis each must be
    a value that [cleanNumber] reads as a number. *)
Theorem isValidRange_accepts (ax : axis) :
  (forall v, (forall a b, v <> Arr [a; b]) -> isValidRange ax v = false) /\
  (forall a b,
     type ax = category \/ type ax = multicategory ->
     (isValidRange ax (Arr [a; b]) = true <->
      (registered ax a \/ isNumeric a = true) /\
      (registered ax b \/ isNumeric b = true))) /\
  (forall a b,
     type ax = linear \/ type ax = log ->
     (isValidRange ax (Arr [a; b]) = true <->
      cleanNumber a <> BADNUM /\ cleanNumber b <> BADNUM)).
Proof.
  split; [|split].
  - intros v Hv. destruct v as [| | | |l| |]; try done.
    destruct l as [|a [|b [|c l]]]; try done. by destruct (Hv a b).
  - intros a b Hty. unfold isValidRange. cbn [length Nat.eqb item nth andb].
    assert (Hr2l : forall v,
              r2l ax v Undefined Undefined = getCategoryPosition ax v).
    { intros v. unfold r2l. by destruct Hty as [-> | ->]. }
    rewrite !Hr2l, andb_true_iff, !isNumeric_getCategoryPosition. done.
  - intros a b Hty. unfold isValidRange. cbn [length Nat.eqb item nth andb].
    assert (Hr2l : forall v, r2l ax v Undefined Undefined = cleanNumber v).
    { intros v. unfold r2l. by destruct Hty as [-> | ->]. }
    rewrite !Hr2l, andb_true_iff.
    assert (Hc : forall v, isNumeric (cleanNumber v) = true
                           <-> cleanNumber v <> BADNUM).
    { intros v. unfold cleanNumber.
      destruct (isNumeric (match v with Str s => _ | _ => v end)) eqn:Hn.
      - rewrite (isNumeric_Num_ToNumber _ Hn). done.
      - done. }
    by rewrite !Hc.
Qed.

(** *** [clearCalc] *)

Lemma register_all_insert_all (ax : axis) (ls : list value) :
  register_all ax ls = snd (insert_all ax ls).
Proof.
  unfold register_all. revert ax.
  induction ls as [|v ls IH]; intros ax; [done|].
  rewrite insert_all_cons. simpl. by rewrite <- IH.
Qed.

Lemma register_all_filter (ax : axis) (ls : list value) :
  register_all ax ls = register_all ax (List.filter isValidCategory ls).
Proof.
  unfold register_all. revert ax.
  induction ls as [|v ls IH]; intros ax; [done|]. simpl.
  destruct (isValidCategory v) eqn:Hv; simpl.
  - apply IH.
  - rewrite setCategoryIndex_invalid by done. apply IH.
Qed.

Lemma registry_ok_emptyCategories (ax : axis) :
  registry_ok (emptyCategories ax).
Proof.
  intros k i. unfold emptyCategories. simpl.
  by rewrite lookup_empty, lookup_nil.
Qed.

Lemma register_all_ok (ax : axis) (ls : list value) :
  registry_ok ax ->
  registry_ok (register_all ax ls) /\
  keys_of (_categories (register_all ax ls))
  = first_seen (keys_of (_categories ax))
      (keys_of (List.filter registrable ls)).
Proof.
  intros Hok. rewrite register_all_insert_all.
  by destruct (insert_all_ok ax ls Hok) as (H1 & H2 & _).
Qed.

(** Registrations change the registry only. *)
Lemma register_all_fields (ax : axis) (ls : list value) :
  _id (register_all ax ls) = _id ax /\
  type (register_all ax ls) = type ax /\
  range (register_all ax ls) = range ax /\
  _traceIndices (register_all ax ls) = _traceIndices ax.
Proof.
  unfold register_all. revert ax.
  induction ls as [|v ls IH]; intros ax; [done|]. simpl.
  destruct (IH (snd (setCategoryIndex ax v))) as (-> & -> & -> & ->).
  unfold setCategoryIndex. destruct (isValidCategory v); [|done].
  destruct (_ !! _); [done|]. by destruct (inherited _).
Qed.

Lemma register_all_stable (ax : axis) (ls : list value) (u : value) :
  registered ax u ->
  getCategoryIndex (register_all ax ls) u = getCategoryIndex ax u.
Proof.
  unfold register_all. revert ax.
  induction ls as [|v ls IH]; intros ax Hu; [done|]. simpl.
  rewrite IH.
  - by apply setCategoryIndex_stable.
  - destruct Hu as [j Hj]. exists j. by rewrite setCategoryIndex_stable by by exists j.
Qed.

Lemma clearCalc_in_no_group (L : layout) (ax : axis)
    (init : option (list value)) (hasCategories : string -> bool) :
  in_no_group L ax ->
  clearCalc L ax init hasCategories
  = Ok (register_all (emptyCategories ax) (default [] init)).
Proof.
  unfold in_no_group, clearCalc. intros Hno.
  destruct (_axisMatchGroups L) as [[|g gs]|];
    cbn [mbind exn_bind mret exn_ret]; try by destruct init.
  destruct (List.find _ (g :: gs)) as [group|] eqn:Hfind.
  - apply find_some in Hfind as [Hin Htr].
    rewrite Forall_forall in Hno.
    apply list_elem_of_In in Hin. apply Hno in Hin. congruence.
  - cbn [mbind exn_bind mret exn_ret]. by destruct init.
Qed.

(** The axes of a group that have no categories yet are passed over. *)
Lemma group_categories_skip (L : layout) (hasCategories : string -> bool)
    (skipped tail : list (string * value)) :
  Forall (fun kv => is_Some (axes L !! fst kv)
                    /\ hasCategories (fst kv) = false) skipped ->
  group_categories L hasCategories (skipped ++ tail)
  = group_categories L hasCategories tail.
Proof.
  induction 1 as [|kv skipped [[ax2 Hax2] Hhas] _ IH]; [done|].
  simpl. by rewrite Hax2, Hhas.
Qed.

(** X16. [clearCalc] on an axis that no match group lists starts the
    registry afresh: whatever the axis held, it holds afterwards the
    initial categories and nothing else, each label that is neither null
    nor undefined and whose key is not the name of a member of
    [Object.prototype] once, in the order in which they are first met, and
    the dictionary and the array agree; without initial categories the
    registry is empty. *)
Theorem clearCalc_afresh (L : layout) (ax : axis)
    (init : option (list value)) (hasCategories : string -> bool)
    (Hno : in_no_group L ax) :
  exists ax',
    clearCalc L ax init hasCategories = Ok ax' /\
    registry_ok ax' /\
    keys_of (_categories ax')
    = first_seen [] (keys_of (List.filter registrable (default [] init))) /\
    (init = None -> _categories ax' = [] /\ _categoriesMap ax' = Some ∅) /\
    type ax' = type ax /\ range ax' = range ax.
Proof.
  rewrite (clearCalc_in_no_group L ax init hasCategories Hno). eexists.
  split; [reflexivity|].
  destruct (register_all_ok (emptyCategories ax) (default [] init)
              (registry_ok_emptyCategories ax)) as [Hok Hkeys].
  split; [done|]. split; [done|]. split; [by intros ->|].
  by destruct (register_all_fields (emptyCategories ax) (default [] init))
    as (_ & -> & -> & _).
Qed.

(** X17. [clearCalc] on an axis that a match group lists, for the first
    such group: the axes that the group lists are looked at in the order
    of their ids, those that have no categories yet are passed over, and
    the registry of the first that has categories is taken over, when
    that axis has a dictionary too; the initial categories are registered
    after it, and the labels of that axis keep their indices.  When no
    axis of the group has categories the registry starts afresh.  When
    the layout has no axis under an id that is reached, a TypeError is
    thrown. *)
Theorem clearCalc_matched (L : layout) (ax : axis)
    (init : option (list value)) (hasCategories : string -> bool)
    (groups : list (list (string * value)))
    (group skipped tail : list (string * value))
    (Hgroups : _axisMatchGroups L = Some groups)
    (Hfind : List.find (fun g => truthy (group_lookup g (axId ax))) groups
             = Some group)
    (Hgroup : group = skipped ++ tail)
    (Hskipped : Forall (fun kv => is_Some (axes L !! fst kv)
                                  /\ hasCategories (fst kv) = false)
                  skipped) :
  (tail = [] ->
   clearCalc L ax init hasCategories
   = Ok (register_all (emptyCategories ax) (default [] init))) /\
  (forall id2 s rest,
     tail = (id2, s) :: rest -> axes L !! id2 = None ->
     clearCalc L ax init hasCategories = Throw TypeError) /\
  (forall id2 s rest ax2 m,
     tail = (id2, s) :: rest -> hasCategories id2 = true ->
     axes L !! id2 = Some ax2 -> _categoriesMap ax2 = Some m ->
     registry_ok ax2 ->
     exists ax',
       clearCalc L ax init hasCategories = Ok ax' /\
       registry_ok ax' /\
       keys_of (_categories ax')
       = first_seen (keys_of (_categories ax2))
           (keys_of (List.filter registrable (default [] init))) /\
       (forall u, registered ax2 u ->
          getCategoryIndex ax' u = getCategoryIndex ax2 u)).
Proof.
  assert (Hg : exists g gs, groups = g :: gs).
  { destruct groups as [|g gs]; [done|]. eauto. }
  destruct Hg as (g & gs & ->).
  assert (Hrun : clearCalc L ax init hasCategories
    = (ax1 ← (found ← group_categories L hasCategories tail;
              match found with
              | Some (categories, Some categoriesMap) =>
                  Ok (set_categories ax categories categoriesMap)
              | _ => Ok (emptyCategories ax)
              end);
       mret (register_all ax1 (default [] init)))).
  { unfold clearCalc. rewrite Hgroups, Hfind, Hgroup.
    rewrite (group_categories_skip L hasCategories skipped tail Hskipped).
    destruct (group_categories L hasCategories tail) as [found|e]; [|done].
    cbn [mbind exn_bind mret exn_ret].
    destruct found as [[cs [m|]]|]; cbn [mbind exn_bind mret exn_ret];
      by destruct init. }
  rewrite Hrun. split; [|split].
  - by intros ->.
  - intros id2 s rest -> Hnone. simpl. by rewrite Hnone.
  - intros id2 s rest ax2 m -> Hhas Hax2 Hm Hok2. simpl.
    rewrite Hax2, Hhas, Hm. cbn [mbind exn_bind mret exn_ret].
    set (ax1 := set_categories ax (_categories ax2) m).
    assert (Hok1 : registry_ok ax1).
    { intros k i. specialize (Hok2 k i). rewrite Hm in Hok2. done. }
    assert (Hidx1 : forall u, getCategoryIndex ax1 u = getCategoryIndex ax2 u).
    { intros u. unfold getCategoryIndex. by rewrite Hm. }
    exists (register_all ax1 (default [] init)).
    split; [done|].
    destruct (register_all_ok ax1 (default [] init) Hok1) as [Hok Hkeys].
    split; [done|]. split; [done|].
    intros u [j Hj]. rewrite <- Hidx1.
    apply register_all_stable. exists j. by rewrite Hidx1.
Qed.

(** *** The pairs of a multicategory axis *)

Lemma register_pairs_register_all (ax : axis) (ps : list (value * value)) :
  register_pairs ax ps = register_all ax (pair_label <$> ps).
Proof.
  unfold register_pairs, register_all. revert ax.
  induction ps as [|p ps IH]; intros ax; [done|]. simpl. apply IH.
Qed.

(** Every label that is registered one by one is registered afterwards,
    when its key is not the name of an inherited member. *)
Lemma register_all_registers (ax : axis) (ls : list value) (v : value) :
  v ∈ ls -> registrable v = true -> registered (register_all ax ls) v.
Proof.
  revert ax. induction ls as [|u ls IH]; intros ax Hin Hv.
  - by apply elem_of_nil in Hin.
  - apply elem_of_cons in Hin as [<- | Hin].
    + apply registrable_true in Hv as [Hv Hp].
      destruct (setCategoryIndex_index ax v Hv) as [_ Hreg].
      destruct (Hreg Hp) as [j Hj].
      change (register_all ax (v :: ls))
        with (register_all (snd (setCategoryIndex ax v)) ls).
      exists j. by rewrite register_all_stable by by exists j.
    + by apply IH.
Qed.

(** Registering labels that are registered changes nothing. *)
Lemma register_all_registered (ax : axis) (ls : list value) :
  Forall (fun v => isValidCategory v = true /\ registered ax v) ls ->
  register_all ax ls = ax.
Proof.
  induction 1 as [|v ls [Hv Hreg] _ IH]; [done|].
  destruct (registered_index ax v Hreg) as [i Hi].
  change (register_all ax (v :: ls))
    with (register_all (snd (setCategoryIndex ax v)) ls).
  by rewrite (setCategoryIndex_hit ax v i Hv Hi).
Qed.

Lemma foldlM_app {A B : Type} (f : B -> A -> exn B) (b b' : B)
    (l1 l2 : list A) :
  foldlM f b (l1 ++ l2) = Ok b' ->
  exists b1, foldlM f b l1 = Ok b1 /\ foldlM f b1 l2 = Ok b'.
Proof.
  revert b. induction l1 as [|x l1 IH]; intros b; simpl.
  - intros H. by exists b.
  - destruct (f b x) as [b0|]; simpl; [|done]. apply IH.
Qed.

Lemma scan_rows_pairs (a0 a1 : value) (n : nat) :
  forall (j : nat) (sc sc' : scan),
    scan_rows a0 a1 j n sc = Ok sc' ->
    pairs sc `prefix_of` pairs sc' /\
    forall k v0 v1,
      k < n -> get a0 (j + k) = Ok v0 -> get a1 (j + k) = Ok v1 ->
      isValidCategory v0 = true -> isValidCategory v1 = true ->
      (v0, v1) ∈ pairs sc'.
Proof.
  induction n as [|n IH]; intros j sc sc' Hrun.
  - injection Hrun as <-. split; [done|]. intros; lia.
  - cbn [scan_rows] in Hrun.
    destruct (get a0 j) as [x0|] eqn:H0; [|done].
    destruct (get a1 j) as [x1|] eqn:H1; [|done].
    cbn [mbind exn_bind] in Hrun.
    apply IH in Hrun as [Hpre Hall]. split.
    + etrans; [|exact Hpre].
      destruct (_ && _); [by apply prefix_app_r | done].
    + intros [|k] v0 v1 Hk Hg0 Hg1 Hv0 Hv1.
      * rewrite Nat.add_0_r in Hg0, Hg1.
        assert (x0 = v0) by congruence. assert (x1 = v1) by congruence.
        subst. rewrite Hv0, Hv1 in Hpre. cbn [andb pairs] in Hpre.
        eapply elem_of_prefix; [|exact Hpre].
        apply elem_of_app. right. by apply list_elem_of_singleton.
      * apply (Hall k); try done; try lia.
        -- by replace (S j + k) with (j + S k) by lia.
        -- by replace (S j + k) with (j + S k) by lia.
Qed.

Lemma scan_trace_pairs (ax : axis) (fullData : list trace) (sc sc' : scan)
    (ti : nat) :
  scan_trace ax fullData sc ti = Ok sc' -> pairs sc `prefix_of` pairs sc'.
Proof.
  unfold scan_trace. intros Hrun.
  destruct (fullData !! ti) as [tr|]; [|done].
  destruct (props tr !! axLetter ax) as [arrayIn|];
    [|by injection Hrun as <-].
  destruct (get arrayIn 0) as [a0|]; [|done]. cbn [mbind exn_bind] in Hrun.
  destruct (isArrayOrTypedArray a0); [|by injection Hrun as <-].
  destruct (get arrayIn 1) as [a1|]; [|done]. cbn [mbind exn_bind] in Hrun.
  destruct (isArrayOrTypedArray a1); [|by injection Hrun as <-].
  by apply scan_rows_pairs in Hrun as [Hpre _].
Qed.

Lemma scan_traces_pairs (ax : axis) (fullData : list trace)
    (tis : list nat) :
  forall sc sc',
    foldlM (scan_trace ax fullData) sc tis = Ok sc' ->
    pairs sc `prefix_of` pairs sc'.
Proof.
  induction tis as [|ti tis IH]; intros sc sc' Hrun; simpl in Hrun.
  - by injection Hrun as <-.
  - destruct (scan_trace ax fullData sc ti) as [sc1|] eqn:H1; [|done].
    cbn [mbind exn_bind] in Hrun.
    etrans; [by eapply scan_trace_pairs | by apply IH].
Qed.

(** The trace indices gathered start with those of the axis. *)
Lemma gather_traceIndices_prefix (L : layout) (ax : axis) (tis : list nat) :
  gather_traceIndices L ax = Ok tis -> _traceIndices ax `prefix_of` tis.
Proof.
  unfold gather_traceIndices.
  destruct (_axisMatchGroups L) as [[|g gs]|]; try by intros [= <-].
  destruct (_ =? 0); [|by intros [= <-]].
  generalize (g :: gs). intros groups.
  assert (Hin : forall (group : list (string * value)) acc acc',
            foldlM (fun acc2 kv =>
                      if negb (String.eqb (fst kv) (axId ax)) then
                        match axes L !! fst kv with
                        | Some ax2 => Ok (acc2 ++ _traceIndices ax2)
                        | None => Throw TypeError
                        end
                      else Ok acc2) acc group = Ok acc' ->
            acc `prefix_of` acc').
  { induction group as [|kv group IH]; intros acc acc' Hrun; simpl in Hrun.
    - by injection Hrun as <-.
    - destruct (negb _).
      + destruct (axes L !! kv.1) as [ax2|]; [|done].
        cbn [mbind exn_bind] in Hrun. apply IH in Hrun.
        etrans; [|exact Hrun]. by apply prefix_app_r.
      + cbn [mbind exn_bind] in Hrun. by apply IH. }
  generalize (_traceIndices ax). revert tis.
  induction groups as [|group groups IH]; intros tis acc Hrun;
    simpl in Hrun.
  - by injection Hrun as <-.
  - destruct (truthy _).
    + destruct (foldlM _ acc group) as [acc1|] eqn:H1; [|done].
      cbn [mbind exn_bind] in Hrun.
      etrans; [by eapply Hin | by apply IH].
    + cbn [mbind exn_bind] in Hrun. by apply IH.
Qed.

Lemma setMultiCategoryIndex_rows (ax : axis) (a0 a1 : list value)
    (rest : list value) (len : nat) :
  setMultiCategoryIndex ax (Arr (Arr a0 :: Arr a1 :: rest)) len
  = Ok (map (fun i => getCategoryIndex ax (Arr [item a0 i; item a1 i]))
          (seq 0 len)).
Proof.
  unfold setMultiCategoryIndex.
  assert (Hgo : forall i,
            mapM (fun i =>
                    v0 ← row_item (Arr (Arr a0 :: Arr a1 :: rest)) 0 i;
                    v1 ← row_item (Arr (Arr a0 :: Arr a1 :: rest)) 1 i;
                    mret (getCategoryIndex ax (Arr [v0; v1])))
                 (seq i len)
            = Ok (map (fun i => getCategoryIndex ax (Arr [item a0 i; item a1 i]))
                    (seq i len))).
  { induction len as [|len IH]; intros i; [done|].
    cbn [seq mapM map]. rewrite IH. reflexivity. }
  apply Hgo.
Qed.

(** X18. After [setupMultiCategory], [makeCalcdata] gives every row of two
    valid labels its index: for a trace of the axis whose array for the
    axis letter has two rows of labels, [makeCalcdata] on the axis that
    [setupMultiCategory] returned returns an array of the length sought,
    changes nothing, and gives each row whose two labels are neither null
    nor undefined the index under which the pair is registered. *)
Theorem makeCalcdata_multicategory (L : layout) (ax ax' : axis)
    (fullData : list trace) (ti : nat) (tr : trace)
    (a0 a1 rest : list value)
    (Hty : type ax = multicategory)
    (Hrun : setupMultiCategory L ax fullData = Ok ax')
    (Hti : ti ∈ _traceIndices ax)
    (Htr : fullData !! ti = Some tr)
    (Hin : props tr !! axLetter ax = Some (Arr (Arr a0 :: Arr a1 :: rest))) :
  exists out,
    makeCalcdata ax' tr (axLetter ax) = Ok (Arr out, ax') /\
    length out = calcdata_length tr (Arr (Arr a0 :: Arr a1 :: rest)) /\
    forall i, i < length out ->
      item out i = getCategoryIndex ax' (Arr [item a0 i; item a1 i]) /\
      (isValidCategory (item a0 i) = true ->
       isValidCategory (item a1 i) = true ->
       registered ax' (Arr [item a0 i; item a1 i])).
Proof.
  set (arrayIn := Arr (Arr a0 :: Arr a1 :: rest)) in *.
  set (len := calcdata_length tr arrayIn).
  unfold setupMultiCategory in Hrun.
  destruct (gather_traceIndices L ax) as [tis|] eqn:Hg; [|done].
  cbn [mbind exn_bind] in Hrun.
  destruct (foldlM (scan_trace ax fullData) empty_scan tis) as [sc|] eqn:Hsc;
    [|done].
  cbn [mbind exn_bind mret exn_ret] in Hrun. injection Hrun as Hax'.
  rewrite register_pairs_register_all in Hax'.
  destruct (register_all_fields ax
              (pair_label <$> sort (compare_pairs sc) (pairs sc)))
    as (Hid & Hty' & _ & _).
  rewrite Hax' in Hid, Hty'. rewrite Hty in Hty'.
  exists (map (fun i => getCategoryIndex ax' (Arr [item a0 i; item a1 i]))
            (seq 0 len)).
  split.
  { unfold makeCalcdata. rewrite Hin, Hty'. fold arrayIn.
    fold (calcdata_length tr arrayIn). fold len. unfold arrayIn.
    by rewrite setMultiCategoryIndex_rows. }
  split; [by rewrite length_map, length_seq|].
  intros i Hi. rewrite length_map, length_seq in Hi.
  split.
  { unfold item at 1.
    rewrite (nth_indep _ Undefined
               (getCategoryIndex ax' (Arr [item a0 0; item a1 0])))
      by (by rewrite length_map, length_seq).
    rewrite (map_nth (fun i => getCategoryIndex ax' (Arr [item a0 i; item a1 i]))).
    by rewrite seq_nth. }
  intros Hv0 Hv1.
  (* the row is among the pairs of the scan *)
  apply gather_traceIndices_prefix in Hg as [more ->].
  apply list_elem_of_split in Hti as (t1 & t2 & Htis).
  rewrite Htis in Hsc.
  rewrite <- !app_assoc in Hsc. cbn [app] in Hsc.
  apply foldlM_app in Hsc as (sc1 & _ & Hsc).
  cbn [foldlM] in Hsc.
  destruct (scan_trace ax fullData sc1 ti) as [sc2|] eqn:Hone; [|done].
  cbn [mbind exn_bind] in Hsc.
  apply scan_traces_pairs in Hsc.
  assert (Hrow : (item a0 i, item a1 i) ∈ pairs sc2).
  { unfold scan_trace in Hone. rewrite Htr, Hin in Hone.
    fold arrayIn in Hone. fold (calcdata_length tr arrayIn) in Hone.
    fold len in Hone. unfold arrayIn in Hone.
    cbn [get item nth mbind exn_bind isArrayOrTypedArray] in Hone.
    apply scan_rows_pairs in Hone as [_ Hall].
    by apply (Hall i). }
  assert (Hsorted : (item a0 i, item a1 i)
                    ∈ sort (compare_pairs sc) (pairs sc)).
  { rewrite (sort_perm (compare_pairs sc) (pairs sc)).
    by eapply elem_of_prefix. }
  rewrite <- Hax'.
  apply register_all_registers;
    [|apply (pair_label_registrable (item a0 i, item a1 i))].
  apply (list_elem_of_fmap_2 pair_label) in Hsorted. exact Hsorted.
Qed.

(** X19. [setupMultiCategory] a second time changes nothing: run on the axis
    that it returned, with the same layout and the same traces, it returns
    that axis. *)
Theorem setupMultiCategory_again (L : layout) (ax ax' : axis)
    (fullData : list trace)
    (Hrun : setupMultiCategory L ax fullData = Ok ax') :
  setupMultiCategory L ax' fullData = Ok ax'.
Proof.
  unfold setupMultiCategory in Hrun.
  destruct (gather_traceIndices L ax) as [tis|] eqn:Hg; [|done].
  cbn [mbind exn_bind] in Hrun.
  destruct (foldlM (scan_trace ax fullData) empty_scan tis) as [sc|] eqn:Hsc;
    [|done].
  cbn [mbind exn_bind mret exn_ret] in Hrun. injection Hrun as Hax'.
  rewrite register_pairs_register_all in Hax'.
  destruct (register_all_fields ax
              (pair_label <$> sort (compare_pairs sc) (pairs sc)))
    as (Hid & _ & _ & Htis).
  rewrite Hax' in Hid, Htis.
  assert (HaxId : axId ax' = axId ax) by (unfold axId; by rewrite Hid).
  assert (Hletter : axLetter ax' = axLetter ax)
    by (unfold axLetter; by rewrite HaxId).
  assert (Hscan : scan_trace ax' fullData = scan_trace ax fullData).
  { unfold scan_trace. by rewrite Hletter. }
  (* the traces of the second run are among those of the first *)
  assert (Hg' : exists tis' more,
            gather_traceIndices L ax' = Ok tis' /\ tis = tis' ++ more).
  { pose proof (gather_traceIndices_prefix L ax tis Hg) as [more Hmore].
    unfold gather_traceIndices in Hg |- *. rewrite HaxId, Htis.
    destruct (_axisMatchGroups L) as [[|g gs]|].
    - injection Hg as <-. exists (_traceIndices ax), []. by rewrite app_nil_r.
    - destruct (length (_categories ax') =? 0) eqn:He'.
      + destruct (length (_categories ax) =? 0) eqn:He.
        * exists tis, []. by rewrite app_nil_r.
        * injection Hg as <-. apply Nat.eqb_eq in He'.
          apply Nat.eqb_neq in He.
          exfalso. apply He.
          assert (Hpre : keys_of (_categories ax)
                         `prefix_of` keys_of (_categories ax')).
          { rewrite <- Hax', register_all_filter, register_all_insert_all.
            clear. generalize (List.filter isValidCategory
                        (pair_label <$> sort (compare_pairs sc) (pairs sc))).
            intros ls. revert ax.
            induction ls as [|v ls IH]; intros ax; [done|].
            rewrite insert_all_cons. cbn [snd].
            etrans; [|apply IH].
            unfold setCategoryIndex. destruct (isValidCategory v); [|done].
            destruct (_ !! _); [done|]. destruct (inherited _); [done|].
            cbn [snd set_categories _categories].
            unfold keys_of. rewrite fmap_app. by apply prefix_app_r. }
          apply prefix_length in Hpre. unfold keys_of in Hpre.
          rewrite !length_fmap in Hpre. lia.
      + exists (_traceIndices ax), more. split; [done|].
        destruct (length (_categories ax) =? 0); [done|].
        injection Hg as <-. apply (f_equal length) in Hmore.
        rewrite length_app in Hmore.
        destruct more; [by rewrite app_nil_r|]. simpl in Hmore. lia.
    - injection Hg as <-. exists (_traceIndices ax), []. by rewrite app_nil_r. }
  destruct Hg' as (tis' & more & Hg' & ->).
  apply foldlM_app in Hsc as (sc' & Hsc' & Hmore).
  apply scan_traces_pairs in Hmore.
  unfold setupMultiCategory. rewrite Hg'. cbn [mbind exn_bind].
  rewrite Hscan, Hsc'. cbn [mbind exn_bind mret exn_ret]. f_equal.
  rewrite register_pairs_register_all.
  apply register_all_registered. apply Forall_forall.
  intros v Hv. apply list_elem_of_fmap in Hv as (p & -> & Hp).
  split; [done|].
  rewrite (sort_perm (compare_pairs sc') (pairs sc')) in Hp.
  rewrite <- Hax'.
  apply register_all_registers; [|apply pair_label_registrable].
  apply list_elem_of_fmap_2.
  rewrite (sort_perm (compare_pairs sc) (pairs sc)).
  by eapply elem_of_prefix.
Qed.

(** *** Bars on a log axis *)



(** *** An axis that overlays another *)

(** X22. An axis that overlays another covers the same pixels: when both
    are scaled by [setScale], the overlaying axis has the domain, the
    offset and the length of the axis it overlays, provided the two have
    the same direction and the other overlays none.  When the layout has
    no axis under the id overlaid, [setScale] throws a TypeError. *)
Theorem setScale_overlaying (L : layout) (ax ax2 : axis) (id2 : string)
    (Hov : overlaying ax = Some id2) (Hid : id2 <> "") :
  (axes L !! id2 = None ->
   forall usePrivateRange, setScale L ax usePrivateRange = Throw TypeError) /\
  (axes L !! id2 = Some ax2 ->
   overlaying ax2 = None ->
   String.eqb (axLetter ax) "y" = String.eqb (axLetter ax2) "y" ->
   forall u u2 ax' ax2',
     setScale L ax u = Ok ax' -> setScale L ax2 u2 = Ok ax2' ->
     domain ax' = domain ax2 /\ domain ax2' = domain ax2 /\
     _offset ax' = _offset ax2' /\ _length ax' = _length ax2').
Proof.
  apply String.eqb_neq in Hid.
  split.
  - intros Hnone u. unfold setScale, derive_scale.
    by rewrite Hov, Hid, Hnone.
  - intros Hax2 Hov2 Hdir u u2 ax' ax2' [Hd _]%setScale_Ok [Hd2 _]%setScale_Ok.
    unfold derive_scale in Hd, Hd2.
    rewrite Hov, Hid, Hax2 in Hd. rewrite Hov2 in Hd2.
    cbn [mbind exn_bind] in Hd, Hd2.
    destruct (get_range (cleanRange ax _ None) _) as [r|]; [|done].
    destruct (get_range (cleanRange ax2 _ None) _) as [r2|]; [|done].
    rewrite Hdir in Hd.
    destruct (String.eqb (axLetter ax2) "y");
      injection Hd as <-; injection Hd2 as <-; done.
Qed.

(** *** The attribute that [setScale] scales by *)

Lemma get_range_set_scale (ax : axis) (dom : num * num) (off len m b : num)
    (attr : rangeAttr) :
  get_range (set_scale ax dom off len m b) attr = get_range ax attr.
Proof. by destruct attr. Qed.

Lemma get_range_cleanRange_other (ax : axis) (attr attr' : rangeAttr)
    (dflt : option (list value)) :
  attr' <> attr ->
  get_range (cleanRange ax attr dflt) attr' = get_range ax attr'.
Proof.
  intros Hne. destruct (cleanRange_set_range ax attr dflt) as [r ->].
  by destruct attr, attr'.
Qed.

(** X23. [setScale] cleans and reads one range attribute only: called to
    use the private range on an axis that has one, it scales by [_r] and
    leaves [range] as it was; otherwise it scales by [range] and leaves
    [_r] as it was.  The registry and the type are never touched. *)
Theorem setScale_one_attribute (L : layout) (ax ax' : axis)
    (usePrivateRange : bool)
    (Hrun : setScale L ax usePrivateRange = Ok ax') :
  (usePrivateRange = true -> is_Some (_r ax) ->
   scale_attr ax usePrivateRange = attr_r /\ range ax' = range ax) /\
  (usePrivateRange = false \/ _r ax = None ->
   scale_attr ax usePrivateRange = attr_range /\ _r ax' = _r ax) /\
  type ax' = type ax /\
  _categories ax' = _categories ax /\
  _categoriesMap ax' = _categoriesMap ax.
Proof.
  apply setScale_Ok in Hrun as [Hd _]. unfold derive_scale in Hd.
  destruct (match overlaying ax with Some _ => _ | None => _ end)
    as [dom|]; simpl in Hd; [|done].
  set (attr := scale_attr ax usePrivateRange) in *.
  destruct (get_range (cleanRange ax attr None) attr) as [r|]; [|done].
  assert (Hax' : exists off len m b,
            ax' = set_scale (cleanRange ax attr None) dom off len m b).
  { destruct (String.eqb (axLetter ax) "y"); injection Hd as <-;
      by do 4 eexists. }
  destruct Hax' as (off & len & m & b & ->). clear Hd.
  destruct (cleanRange_set_range ax attr None) as [r' Hcl].
  split; [|split; [|split; [|split]]].
  - intros -> Hsome.
    assert (Hattr : attr = attr_r).
    { unfold attr, scale_attr. by rewrite bool_decide_eq_true_2. }
    split; [done|].
    change (range (set_scale (cleanRange ax attr None) dom off len m b))
      with (get_range (cleanRange ax attr None) attr_range).
    rewrite get_range_cleanRange_other; [done|]. by rewrite Hattr.
  - intros Hcase.
    assert (Hattr : attr = attr_range).
    { unfold attr, scale_attr. destruct Hcase as [-> | Hnone]; [done|].
      rewrite bool_decide_eq_false_2; [by rewrite andb_false_r|].
      rewrite Hnone. by intros [? ?]. }
    split; [done|].
    change (_r (set_scale (cleanRange ax attr None) dom off len m b))
      with (get_range (cleanRange ax attr None) attr_r).
    rewrite get_range_cleanRange_other; [done|]. by rewrite Hattr.
  - rewrite Hcl. by destruct attr.
  - rewrite Hcl. by destruct attr.
  - rewrite Hcl. by destruct attr.
Qed.

(** *** [cleanRange] a second time *)

(** X24. [cleanRange] a second time changes nothing, for a range of two
    finite numbers within the safe bound that differ, or that are equal
    with room for the split within the safe bound: the range that the
    first call leaves is kept by the second. *)
Theorem cleanRange_again (ax : axis) (attr : rangeAttr)
    (dflt : option (list value)) (a b : Q)
    (Hty : type ax <> date)
    (Hr : get_range ax attr = Some [Num (Fin a); Num (Fin b)])
    (Ha : (- FP_SAFE <= a)%Q /\ (a <= FP_SAFE)%Q)
    (Hb : (- FP_SAFE <= b)%Q /\ (b <= FP_SAFE)%Q)
    (Hroom : (a == b)%Q ->
             (- FP_SAFE <= a - Qmax 1 (Qabs a * (1 # 1000000)))%Q /\
             (a + Qmax 1 (Qabs a * (1 # 1000000)) <= FP_SAFE)%Q) :
  cleanRange (cleanRange ax attr dflt) attr dflt = cleanRange ax attr dflt /\
  (~ (a == b)%Q -> cleanRange ax attr dflt = set_range ax attr
                                               [Num (Fin a); Num (Fin b)]).
Proof.
  destruct Ha as [Ha1 Ha2], Hb as [Hb1 Hb2].
  assert (Hkeep : forall (ax0 : axis) (x y : Q),
            type ax0 <> date ->
            get_range ax0 attr = Some [Num (Fin x); Num (Fin y)] ->
            (- FP_SAFE <= x)%Q -> (x <= FP_SAFE)%Q ->
            (- FP_SAFE <= y)%Q -> (y <= FP_SAFE)%Q ->
            ~ (x == y)%Q ->
            cleanRange ax0 attr dflt
            = set_range ax0 attr [Num (Fin x); Num (Fin y)]).
  { intros ax0 x y Ht0 Hr0 Hx1 Hx2 Hy1 Hy2 Hne.
    apply (cleanRange_two_turns ax0 attr dflt
             [Num (Fin x); Num (Fin y)] [Num (Fin x); Num (Fin y)]);
      try done.
    - by apply (cleanRange_numeric_keep 0); [lia| | |].
    - by apply (cleanRange_numeric_keep 1); [lia| | |]. }
  assert (Hset2 : forall r1 r2,
            set_range (set_range ax attr r1) attr r2 = set_range ax attr r2).
  { intros r1 r2. by destruct attr. }
  destruct (Qeq_dec a b) as [Heq | Hne].
  - destruct (Hroom Heq) as [Hlo Hhi].
    set (inc := Qmax 1 (Qabs a * (1 # 1000000))) in *.
    assert (Hinc : (1 <= inc)%Q) by apply Q.le_max_l.
    assert (Hfirst : cleanRange ax attr dflt
              = set_range ax attr
                  [Num (Fin (Qred (a - inc)));
                   Num (Fin (Qred (b + Qred inc)))]).
    { apply (cleanRange_two_turns ax attr dflt
               [Num (Fin a); Num (Fin b)]
               [Num (Fin (Qred (a - inc))); Num (Fin (Qred (b + Qred inc)))]);
        try done.
      - unfold cleanRange_numeric.
        destruct (within_FP_SAFE a Ha1 Ha2) as [H1 H2].
        cbn [item nth isNumeric Num.isFinite negb ToNumber].
        rewrite H1, H2. cbn [item nth strict_eq Num.eqb].
        rewrite (proj2 (Qeq_bool_iff a b) Heq).
        cbn [ToNumber]. rewrite split_increment. fold inc.
        cbn [insert list_insert item nth js_add ToNumber Num.sub Num.add
             Num.opp].
        do 3 f_equal. apply Fin_Qred_eq. rewrite !Qred_correct. ring.
      - apply (cleanRange_numeric_keep 1); cbn [Nat.eqb];
          rewrite ?Qred_correct; [lia| | |]; lra. }
    split; [|by intros Hne].
    rewrite Hfirst.
    rewrite (Hkeep _ (Qred (a - inc)) (Qred (b + Qred inc)));
      rewrite ?Hset2, ?type_set_range, ?get_set_range, ?Qred_correct;
      try done; lra.
  - split; [|intros _; by apply Hkeep].
    rewrite (Hkeep ax a b) by done.
    rewrite (Hkeep _ a b);
      rewrite ?Hset2, ?type_set_range, ?get_set_range; done.
Qed.

End MoreProperties.

(** ** Worked examples

    The properties at concrete inputs, in the environment of the
    examples, and the inputs at which the specification and the code
    part. *)

Section Examples.

#[local] Existing Instance sample_env.

(** The environment of the examples obeys the laws of the built-ins: the
    name of a member of [Object.prototype] does not read as a number, and
    the text of a number is no such name. *)
Lemma digit_head_app (s t : string) :
  digit_head s = true -> digit_head (s +:+ t) = true.
Proof. by destruct s. Qed.

Lemma digit_head_plain (s : string) :
  digit_head s = true -> inherited s = false.
Proof.
  intros Hs. destruct (inherited s) eqn:Hk; [|done].
  apply inherited_elem in Hk. unfold Object_prototype in Hk.
  repeat (apply elem_of_cons in Hk as [-> | Hk]; [done|]).
  by apply elem_of_nil in Hk.
Qed.

Lemma pretty_N_go_digit_head (x : N) :
  forall s, (0 < x)%N \/ digit_head s = true ->
    digit_head (pretty_N_go x s) = true.
Proof.
  induction (N.lt_wf_0 x) as [x _ IH]. intros s Hs.
  assert (x = 0 \/ 0 < x)%N as [-> | Hx] by lia.
  - rewrite pretty_N_go_0. destruct Hs as [Hs | Hs]; [lia|done].
  - rewrite pretty_N_go_step by done. apply IH.
    + by apply N.div_lt.
    + right. unfold pretty_N_char. by repeat case_match.
Qed.

Lemma pretty_Z_digit_head (z : Z) : digit_head (pretty z) = true.
Proof.
  destruct z as [|q|q]; [done| |done].
  unfold pretty, pretty_Z, pretty, pretty_positive, pretty, pretty_N.
  destruct (decide (N.pos q = 0%N)); [done|].
  apply pretty_N_go_digit_head. left. lia.
Qed.

Lemma sample_laws : EnvLaws sample_env.
Proof.
  split.
  - intros k Hk. apply inherited_elem in Hk. unfold Object_prototype in Hk.
    repeat (apply elem_of_cons in Hk as [-> | Hk]; [done|]).
    by apply elem_of_nil in Hk.
  - intros [q| | |]; [|done..].
    apply digit_head_plain. cbn [NumberToString sample_env].
    unfold sample_NumberToString.
    destruct (Z.pos (Qden q) =? 1)%Z;
      [|apply digit_head_app]; apply pretty_Z_digit_head.
Qed.

#[local] Existing Instance sample_laws.

Lemma registry_ok_fresh (ax : axis) :
  _categories ax = [] -> _categoriesMap ax = None -> registry_ok ax.
Proof.
  intros Hc Hm k i. rewrite Hc, Hm. simpl.
  by rewrite lookup_empty, lookup_nil.
Qed.

(** The axes of the examples are what [setScale] and [setCategoryIndex]
    make. *)
Lemma sample_axis_setScale :
  setScale (plain_layout 800 600)
    (with_range (fresh_axis linear "x") [Num (Fin 0); Num (Fin 10)]) false
  = Ok (sample_axis linear) /\
  setScale (plain_layout 800 600)
    (with_range (fresh_axis category "x") [Num (Fin 0); Num (Fin 10)]) false
  = Ok (sample_axis category) /\
  snd (setCategoryIndex (sample_axis category) (Str "a")) = labelled_axis.
Proof. vm_compute. repeat split. Qed.


(** Against C1 as stated: a label that is not registered.  On the category
    axis of the examples, [d2p("a")] is the pixel 400 of the middle of the range, while
    [d2l("a")] registers the label with index 0, whose pixel is 0. *)
Lemma d2p_unregistered_label :
  d2p (sample_axis category) (Str "a") Undefined Undefined
  = Ok (Num (Fin 400)) /\
  l2p_of_d2l (sample_axis category) (Str "a") Undefined Undefined
  = Ok (Num (Fin 0)) /\
  d2p (sample_axis category) (Str "a") Undefined Undefined
  <> l2p_of_d2l (sample_axis category) (Str "a") Undefined Undefined.
Proof. vm_compute. repeat split; discriminate. Qed.

Lemma d2p_through_linearized_witness :
  d2p labelled_axis (Str "a") Undefined Undefined
  = l2p_of_d2l labelled_axis (Str "a") Undefined Undefined /\
  exists x,
    d2l labelled_axis (Str "a") Undefined Undefined = Ok (x, labelled_axis).
Proof.
  apply (proj1 (d2p_through_linearized labelled_axis Undefined Undefined)).
  - vm_compute. discriminate.
  - intros _. split; [discriminate|]. split; [discriminate|].
    exists 0%nat. vm_compute. reflexivity.
Defined.





(** C4.  [toLog(0, true)] on a log axis with the range [1, 100] and
    [LOG_CLIP = 10]: the code returns -939.5, which is 10 axis lengths below
    the middle 50.5 of the range and 9.5 axis lengths below its lower end
    1; the position 10 axis lengths below the lower end is -989. *)
Theorem toLog_zero_clipped :
  toLog log_axis (Num (Fin 0)) true = Num (Fin (-1879 # 2)) /\
  ((-1879 # 2) == (1 + 100) / 2 - LOG_CLIP * Qabs (1 - 100))%Q /\
  ((-1879 # 2) == 1 - (LOG_CLIP - (1 # 2)) * Qabs (1 - 100))%Q /\
  ~ ((-1879 # 2) == 1 - LOG_CLIP * Qabs (1 - 100))%Q /\
  ((-1879 # 2) < 0)%Q.
Proof. vm_compute. repeat split; discriminate. Qed.

Lemma setCategoryIndex_registry_witness :
  setCategoryIndex (sample_axis category) Null
  = (BADNUM, sample_axis category) /\
  setCategoryIndex labelled_axis (Str "a") = (Num (Fin 0), labelled_axis) /\
  fst (setCategoryIndex labelled_axis (Str "b")) = Num (Fin 1) /\
  fst (setCategoryIndex labelled_axis (Str "constructor"))
  = Member "constructor".
Proof.
  destruct setCategoryIndex_registry as (Hnull & Hhit & Hmiss & Hinh & _).
  split; [|split; [|split]].
  - apply Hnull. by left.
  - apply (Hhit labelled_axis (Str "a") 0%nat); [discriminate|discriminate|].
    vm_compute. reflexivity.
  - apply (Hmiss labelled_axis (Str "b")); [discriminate|discriminate| |].
    + intros [i Hi]. vm_compute in Hi. discriminate.
    + vm_compute. reflexivity.
  - apply (Hinh labelled_axis (Str "constructor"));
      [discriminate|discriminate| |].
    + intros [i Hi]. vm_compute in Hi. discriminate.
    + vm_compute. reflexivity.
Defined.

Lemma setupMultiCategory_order_witness :
  exists ax1,
    setupMultiCategory (plain_layout 800 600) (multicategory_axis [0])
      [three_rows "x" "x" "y" "1" "2" "1"] = Ok ax1 /\
    _categories ax1 = [Arr [Str "x"; Str "1"]; Arr [Str "x"; Str "2"];
                       Arr [Str "y"; Str "1"]] /\
    getCategoryIndex ax1 (Arr [Str "x"; Str "1"]) = Num (Fin 0) /\
    getCategoryIndex ax1 (Arr [Str "x"; Str "2"]) = Num (Fin 1) /\
    getCategoryIndex ax1 (Arr [Str "y"; Str "1"]) = Num (Fin 2).
Proof.
  refine (proj1 (proj2
    (setupMultiCategory_order (plain_layout 800 600) (multicategory_axis [0])
       _ [three_rows "x" "x" "y" "1" "2" "1"] eq_refl _ _))).
  - by apply registry_ok_fresh.
  - vm_compute. reflexivity.
Defined.

(** C7.  On an axis that is not a date axis, [cleanRange] on a range whose
    two ends are the same number [r] (within the safe bound, with room for
    the increment below it) replaces them by [r - inc] and [r + inc], where
    [inc] is the larger of 1 and a millionth of the absolute value of [r];
    the two ends are then distinct, and [5, 5] becomes [4, 6].  The ends
    are compared with [===], though, and split with [-=] and [+=]: the
    range of the string ["5"] and the number 5, whose ends both stand for
    5, is left as it is, and [setScale] then throws; the range of the
    string ["5"] twice becomes the number 4 and the string ["51"]. *)
Theorem cleanRange_splits_equal_endpoints :
  (forall (E' : Env) (ax : axis) (attr : rangeAttr)
          (dflt : option (list value)) (r : Q),
     type ax <> date ->
     get_range ax attr = Some [Num (Fin r); Num (Fin r)] ->
     (- @FP_SAFE E' <= r)%Q ->
     (r + Qmax 1 (Qabs r * (1 # 1000000)) <= @FP_SAFE E')%Q ->
     let inc := Qmax 1 (Qabs r * (1 # 1000000)) in
     get_range (@cleanRange E' ax attr dflt) attr
     = Some [Num (Fin (Qred (r - inc))); Num (Fin (Qred (r + inc)))] /\
     (1 <= inc)%Q /\
     (Qred (r - inc) < Qred (r + inc))%Q) /\
  get_range
    (cleanRange
       (with_range (fresh_axis linear "x") [Num (Fin 5); Num (Fin 5)])
       attr_range None) attr_range
  = Some [Num (Fin 4); Num (Fin 6)] /\
  (let ax := with_range (fresh_axis linear "x") [Str "5"; Num (Fin 5)] in
   r2l ax (Str "5") Undefined Undefined = Num (Fin 5) /\
   r2l ax (Num (Fin 5)) Undefined Undefined = Num (Fin 5) /\
   cleanRange ax attr_range None = ax /\
   setScale (plain_layout 800 600) ax false = Throw ScalingError) /\
  get_range
    (cleanRange
       (with_range (fresh_axis linear "x") [Str "5"; Str "5"])
       attr_range None) attr_range
  = Some [Num (Fin 4); Str "51"].
Proof.
  split; [|split; [|split]].
  - intros E' ax attr dflt r Hty Hr Hlo Hhi inc.
    by destruct (@cleanRange_split_numbers E' ax attr dflt r Hty Hr Hlo Hhi)
      as (H1 & H2 & H3 & _).
  - vm_compute. reflexivity.
  - vm_compute. repeat split; reflexivity.
  - vm_compute. reflexivity.
Qed.

Lemma cleanRange_splits_equal_endpoints_witness :
  get_range
    (cleanRange
       (with_range (fresh_axis linear "x") [Num (Fin 7); Num (Fin 7)])
       attr_range None) attr_range
  = Some [Num (Fin (Qred (7 - Qmax 1 (Qabs 7 * (1 # 1000000)))));
          Num (Fin (Qred (7 + Qmax 1 (Qabs 7 * (1 # 1000000)))))].
Proof.
  refine (proj1
    (proj1 cleanRange_splits_equal_endpoints sample_env
       (with_range (fresh_axis linear "x") [Num (Fin 7); Num (Fin 7)])
       attr_range None 7%Q _ eq_refl _ _)).
  - discriminate.
  - apply Qle_bool_imp_le. vm_compute. reflexivity.
  - apply Qle_bool_imp_le. vm_compute. reflexivity.
Defined.

(** Against C8 as stated: a step of zero.  With [x0 = 5], [dx = 0] and a [y] of length 4 the
    code counts in steps of 1 from 5; the sequence [5 + i * 0] is not what
    it returns. *)
Lemma makeCalcdata_zero_step :
  makeCalcdata (fresh_axis linear "x")
    (trace_of [("x0", Num (Fin 5)); ("dx", Num (Fin 0));
               ("y", Arr [Null; Null; Null; Null])]) "x"
  = Ok (Arr [Num (Fin 5); Num (Fin 6); Num (Fin 7); Num (Fin 8)],
        fresh_axis linear "x") /\
  makeCalcdata (fresh_axis linear "x")
    (trace_of [("x0", Num (Fin 5)); ("dx", Num (Fin 0));
               ("y", Arr [Null; Null; Null; Null])]) "x"
  <> Ok (Arr (map (fun i => Num (Num.add (Fin 5)
                                   (Num.mul (Num.of_nat i) (Fin 0))))
                (seq 0 4)),
         fresh_axis linear "x").
Proof. vm_compute. repeat split; discriminate. Qed.

Lemma makeCalcdata_sequence_witness :
  makeCalcdata (fresh_axis linear "x")
    (trace_of [("x0", Num (Fin 5)); ("dx", Num (Fin 2));
               ("y", Arr [Null; Null; Null; Null])]) "x"
  = Ok (Arr [Num (Fin 5); Num (Fin 7); Num (Fin 9); Num (Fin 11)],
        fresh_axis linear "x").
Proof.
  refine (proj1 (proj2
    (makeCalcdata_sequence (fresh_axis linear "x") (fresh_axis linear "x")
       (trace_of [("x0", Num (Fin 5)); ("dx", Num (Fin 2));
                  ("y", Arr [Null; Null; Null; Null])]) "x"
       (Num (Fin 5)) 4 _ _ _)) 5%Q 2%Q eq_refl _).
  - vm_compute. reflexivity.
  - vm_compute. reflexivity.
  - vm_compute. reflexivity.
  - vm_compute. reflexivity.
Defined.





(** *** The further properties at concrete inputs *)

(** The axes of these examples are what [setScale] and
    [setupMultiCategory] make. *)
Lemma example_axes_made :
  setScale (plain_layout 800 600)
    (with_range (fresh_axis linear "y") [Num (Fin 0); Num (Fin 10)]) false
  = Ok sample_y_axis /\
  setScale (plain_layout 800 600) log_y_axis false = Ok log_y_scaled /\
  setupMultiCategory (plain_layout 800 600) (multicategory_axis [0])
    [three_rows "x" "x" "y" "1" "2" "1"] = Ok paired_axis.
Proof. vm_compute. repeat split. Qed.

Lemma registry_ok_labelled : registry_ok labelled_axis.
Proof.
  destruct sample_axis_setScale as (_ & _ & <-).
  apply setCategoryIndex_ok; [done|]. by apply registry_ok_fresh.
Qed.

Lemma l2p_monotone_witness :
  exists px py,
    l2p (sample_axis linear) (Num (Fin 1)) = Num (Fin px) /\
    l2p (sample_axis linear) (Num (Fin 2)) = Num (Fin py) /\
    ((0 <= 80)%Q -> (px <= py)%Q) /\
    ((80 <= 0)%Q -> (py <= px)%Q).
Proof.
  apply (l2p_monotone (sample_axis linear) 80 0 1 2).
  - vm_compute. reflexivity.
  - vm_compute. reflexivity.
  - vm_compute. discriminate.
Defined.

Lemma getCategoryName_nearest_witness :
  getCategoryName labelled_axis (Num (Fin (2 # 5))) = Str "a".
Proof.
  apply (proj1 (getCategoryName_nearest labelled_axis) (2 # 5) 0%nat).
  - vm_compute. discriminate.
  - vm_compute. reflexivity.
Defined.

Lemma category_round_trip_witness :
  c2d (snd (setCategoryIndex (fresh_axis category "x") (Str "a")))
    (Num (Fin 0)) Undefined Undefined
  = Str "a" /\
  c2d (snd (setCategoryIndex (fresh_axis category "x") (Str "constructor")))
    (Member "constructor") Undefined Undefined
  = Undefined.
Proof.
  destruct (category_round_trip (fresh_axis category "x")
              Undefined Undefined
              (registry_ok_fresh (fresh_axis category "x") eq_refl eq_refl))
    as (Hplain & Hinh & _).
  assert (Hnr : forall s, ~ registered (fresh_axis category "x") (Str s)).
  { intros s [i Hi]. vm_compute in Hi. discriminate. }
  split.
  - refine (proj2 (Hplain (Str "a") (Num (Fin 0)) _ eq_refl _ _ _ _)
              (Hnr "a")).
    + discriminate.
    + discriminate.
    + right. vm_compute. reflexivity.
    + vm_compute. reflexivity.
  - refine (proj2 (Hinh (Str "constructor") (Member "constructor") _ eq_refl
                     _ _ (Hnr "constructor") _ _)).
    + discriminate.
    + discriminate.
    + vm_compute. reflexivity.
    + vm_compute. reflexivity.
Defined.

Lemma makeCalcdata_category_witness :
  exists cs ax',
    makeCalcdata (fresh_axis category "x")
      (trace_of [("x", Arr [Str "b"; Null; Str "toString"; Str "b"])]) "x"
    = Ok (Arr cs, ax') /\
    registry_ok ax' /\
    item cs 1 = BADNUM /\
    item cs 2 = Member "toString" /\
    item cs 3 = getCategoryIndex ax' (Str "b") /\
    registered ax' (Str "b") /\
    ~ registered ax' (Str "toString").
Proof.
  destruct (makeCalcdata_category (fresh_axis category "x")
              (trace_of [("x", Arr [Str "b"; Null; Str "toString"; Str "b"])])
              "x" [Str "b"; Null; Str "toString"; Str "b"] eq_refl
              (registry_ok_fresh (fresh_axis category "x") eq_refl eq_refl))
    as (cs & ax' & Hrun & Hlen & Hok & _ & Hitems).
  - vm_compute. reflexivity.
  - assert (Hl : length cs = 4) by (rewrite Hlen; vm_compute; reflexivity).
    exists cs, ax'. split; [exact Hrun|]. split; [exact Hok|].
    assert (H1 : 1 < length cs) by (rewrite Hl; lia).
    assert (H2 : 2 < length cs) by (rewrite Hl; lia).
    assert (H3 : 3 < length cs) by (rewrite Hl; lia).
    split; [apply (proj1 (Hitems 1 H1)); by left|].
    destruct (proj2 (Hitems 2 H2)) as (_ & _ & Hinh);
      [discriminate|discriminate|].
    destruct Hinh as [Hmember Hnr].
    { vm_compute. reflexivity. }
    { intros [i Hi]. vm_compute in Hi. discriminate. }
    destruct (proj2 (Hitems 3 H3)) as (Hidx & Hplain & _);
      [discriminate|discriminate|].
    destruct Hplain as [Hreg _]; [vm_compute; reflexivity|].
    split; [exact Hmember|]. split; [exact Hidx|]. split; [exact Hreg|].
    exact Hnr.
Defined.

Lemma makeCalcdata_numbers_witness :
  makeCalcdata (fresh_axis linear "x")
    (trace_of [("x", Arr [Num (Fin 1); Str "a"; Num (Fin 3)])]) "x"
  = Ok (Arr [Num (Fin 1); BADNUM; Num (Fin 3)], fresh_axis linear "x").
Proof.
  rewrite (proj1 (makeCalcdata_numbers (fresh_axis linear "x")
                    (trace_of [("x", Arr [Num (Fin 1); Str "a"; Num (Fin 3)])])
                    "x" (or_introl eq_refl))
             [Num (Fin 1); Str "a"; Num (Fin 3)]).
  - vm_compute. reflexivity.
  - vm_compute. reflexivity.
Defined.

Lemma cleanRange_distinct_numbers_witness :
  exists x y,
    get_range
      (cleanRange (with_range (fresh_axis linear "x") [Num (Fin 3); Null])
         attr_range None) attr_range
    = Some [Num (Fin x); Num (Fin y)] /\ ~ (x == y)%Q.
Proof.
  refine (proj1 (cleanRange_distinct_numbers
                   (with_range (fresh_axis linear "x") [Num (Fin 3); Null])
                   attr_range None (Num (Fin 3)) Null _ eq_refl _ _) _).
  - discriminate.
  - intros _. by exists 3%Q.
  - intros H. vm_compute in H. discriminate H.
  - left. vm_compute. reflexivity.
Defined.

Lemma cleanRange_couplet_witness :
  get_range (cleanRange (fresh_axis linear "x") attr_range None) attr_range
  = Some [Num (Fin (-1)); Num (Fin 6)].
Proof.
  refine (proj1 (proj2 (cleanRange_couplet (fresh_axis linear "x")
                          attr_range None _)) _).
  - vm_compute. reflexivity.
  - left. reflexivity.
Defined.

Lemma setScale_y_endpoints_witness :
  exists r q0 q1 lq mq,
    get_range sample_y_axis attr_range = Some r /\
    r2l sample_y_axis (item r 0) Undefined Undefined = Num (Fin q0) /\
    r2l sample_y_axis (item r 1) Undefined Undefined = Num (Fin q1) /\
    ~ (q0 == q1)%Q /\
    _length sample_y_axis = Fin lq /\ (0 <= lq)%Q /\
    _m sample_y_axis = Fin mq /\
    ((q0 < q1)%Q -> (mq <= 0)%Q) /\ ((q1 < q0)%Q -> (0 <= mq)%Q) /\
    l2p sample_y_axis (Num (Fin q1)) = Num (Fin 0).
Proof.
  apply (setScale_y_endpoints (plain_layout 800 600)
           (with_range (fresh_axis linear "y") [Num (Fin 0); Num (Fin 10)])
           sample_y_axis false).
  - vm_compute. reflexivity.
  - apply example_axes_made.
Defined.

Lemma isPtWithinRange_linear_witness :
  exists inside,
    isPtWithinRange (sample_axis linear) {["x" := Num (Fin 10)]} Undefined
    = Ok inside /\
    (inside = true <-> (Qmin 0 10 <= 10)%Q /\ (10 <= Qmax 0 10)%Q).
Proof.
  apply (isPtWithinRange_linear (sample_axis linear)
           {["x" := Num (Fin 10)]} Undefined 0 10 10).
  - reflexivity.
  - reflexivity.
  - vm_compute. reflexivity.
  - apply Qle_bool_imp_le. vm_compute. reflexivity.
  - apply Qle_bool_imp_le. vm_compute. reflexivity.
Defined.

Lemma isPtWithinRange_no_position_witness :
  isPtWithinRange log_axis {["x" := Num (Fin 0)]} Undefined = Ok false.
Proof.
  apply (proj2 (isPtWithinRange_no_position log_axis
                  [Num (Fin 1); Num (Fin 100)] {["x" := Num (Fin 0)]}
                  Undefined eq_refl) (Num (Fin 0))).
  - reflexivity.
  - vm_compute. reflexivity.
  - vm_compute. reflexivity.
Defined.

Lemma isValidRange_accepts_witness :
  isValidRange labelled_axis (Arr [Str "a"; Num (Fin 3)]) = true.
Proof.
  apply (proj1 (proj2 (isValidRange_accepts labelled_axis))
           (Str "a") (Num (Fin 3)) (or_introl eq_refl)).
  split.
  - left. exists 0%nat. vm_compute. reflexivity.
  - right. vm_compute. reflexivity.
Defined.

Lemma clearCalc_afresh_witness :
  exists ax',
    clearCalc (plain_layout 800 600) labelled_axis
      (Some [Str "b"; Null; Str "valueOf"; Str "c"; Str "b"])
      (fun _ => true) = Ok ax' /\
    registry_ok ax' /\
    keys_of (_categories ax') = ["b"; "c"] /\
    type ax' = type labelled_axis /\ range ax' = range labelled_axis.
Proof.
  destruct (clearCalc_afresh (plain_layout 800 600) labelled_axis
              (Some [Str "b"; Null; Str "valueOf"; Str "c"; Str "b"])
              (fun _ => true) I)
    as (ax' & Hrun & Hok & Hkeys & _ & Hty & Hr).
  exists ax'. split; [exact Hrun|]. split; [exact Hok|].
  split; [rewrite Hkeys; vm_compute; reflexivity|].
  split; [exact Hty|exact Hr].
Defined.

Lemma clearCalc_matched_witness :
  exists ax',
    clearCalc matched_layout (fresh_axis category "x2") (Some [Str "b"])
      matched_hasCategories = Ok ax' /\
    registry_ok ax' /\
    keys_of (_categories ax') = ["a"; "b"] /\
    (forall u, registered labelled_axis u ->
       getCategoryIndex ax' u = getCategoryIndex labelled_axis u).
Proof.
  refine (proj2 (proj2
    (clearCalc_matched matched_layout (fresh_axis category "x2")
       (Some [Str "b"]) matched_hasCategories
       [[("x2", Num (Fin 1)); ("x", Num (Fin 1))]]
       [("x2", Num (Fin 1)); ("x", Num (Fin 1))]
       [("x2", Num (Fin 1))] [("x", Num (Fin 1))]
       eq_refl eq_refl eq_refl _))
    "x" (Num (Fin 1)) [] labelled_axis {["a" := 0]}
    eq_refl eq_refl _ eq_refl registry_ok_labelled).
  - constructor; [|constructor]. split; [|reflexivity].
    exists (fresh_axis category "x2"). vm_compute. reflexivity.
  - vm_compute. reflexivity.
Defined.

Lemma makeCalcdata_multicategory_witness :
  exists out,
    makeCalcdata paired_axis (three_rows "x" "x" "y" "1" "2" "1") "x"
    = Ok (Arr out, paired_axis) /\
    length out = 3 /\
    forall i, i < length out ->
      item out i
      = getCategoryIndex paired_axis
          (Arr [item [Str "x"; Str "x"; Str "y"] i;
                item [Str "1"; Str "2"; Str "1"] i]) /\
      (isValidCategory (item [Str "x"; Str "x"; Str "y"] i) = true ->
       isValidCategory (item [Str "1"; Str "2"; Str "1"] i) = true ->
       registered paired_axis
         (Arr [item [Str "x"; Str "x"; Str "y"] i;
               item [Str "1"; Str "2"; Str "1"] i])).
Proof.
  apply (makeCalcdata_multicategory (plain_layout 800 600)
           (multicategory_axis [0]) paired_axis
           [three_rows "x" "x" "y" "1" "2" "1"] 0
           (three_rows "x" "x" "y" "1" "2" "1")
           [Str "x"; Str "x"; Str "y"] [Str "1"; Str "2"; Str "1"] []).
  - reflexivity.
  - apply example_axes_made.
  - apply list_elem_of_here.
  - reflexivity.
  - vm_compute. reflexivity.
Defined.

Lemma setupMultiCategory_again_witness :
  setupMultiCategory (plain_layout 800 600) paired_axis
    [three_rows "x" "x" "y" "1" "2" "1"] = Ok paired_axis.
Proof.
  apply (setupMultiCategory_again (plain_layout 800 600)
           (multicategory_axis [0]) paired_axis
           [three_rows "x" "x" "y" "1" "2" "1"]).
  apply example_axes_made.
Defined.


Lemma setScale_overlaying_witness :
  exists ax' ax2',
    setScale overlay_layout overlay_axis false = Ok ax' /\
    setScale overlay_layout overlaid_axis false = Ok ax2' /\
    domain ax' = domain overlaid_axis /\ domain ax2' = domain overlaid_axis /\
    _offset ax' = _offset ax2' /\ _length ax' = _length ax2'.
Proof.
  assert (H1 : exists a, setScale overlay_layout overlay_axis false = Ok a)
    by (eexists; vm_compute; reflexivity).
  assert (H2 : exists a, setScale overlay_layout overlaid_axis false = Ok a)
    by (eexists; vm_compute; reflexivity).
  destruct H1 as [a H1], H2 as [a2 H2].
  exists a, a2. split; [exact H1|]. split; [exact H2|].
  refine (proj2 (setScale_overlaying overlay_layout overlay_axis
                   overlaid_axis "y" eq_refl _)
            eq_refl eq_refl eq_refl false false a a2 H1 H2).
  discriminate.
Defined.

Lemma setScale_one_attribute_witness :
  exists ax',
    setScale (plain_layout 800 600) private_axis true = Ok ax' /\
    scale_attr private_axis true = attr_r /\
    range ax' = range private_axis.
Proof.
  assert (H1 : exists a,
            setScale (plain_layout 800 600) private_axis true = Ok a)
    by (eexists; vm_compute; reflexivity).
  destruct H1 as [a H1]. exists a. split; [exact H1|].
  refine (proj1 (setScale_one_attribute (plain_layout 800 600)
                   private_axis a true H1) eq_refl _).
  by eexists.
Defined.

Lemma cleanRange_again_witness :
  cleanRange
    (cleanRange (sample_axis linear) attr_range None) attr_range None
  = cleanRange (sample_axis linear) attr_range None.
Proof.
  refine (proj1 (cleanRange_again (sample_axis linear) attr_range None 0 10
                   _ eq_refl _ _ _)).
  - discriminate.
  - split; apply Qle_bool_imp_le; vm_compute; reflexivity.
  - split; apply Qle_bool_imp_le; vm_compute; reflexivity.
  - intros H. vm_compute in H. discriminate H.
Defined.

End Examples.
